(** * GC Agent front end: a shallow embedding of [static/js/app.js]

    The development embeds the browser-side controller of the GC log
    analyzer (the rendering functions, the pause-chart zoom state, the
    calls to the AI endpoints and the HTML escaping helpers) and states
    the properties of the specification over that embedding.  Components
    of the repository that are not part of the front end (the aggregator
    and the agent controller) are modelled from the specification and are
    marked as such. *)

From Stdlib Require Import ZArith QArith Qround Qminmax Qabs String Ascii List Lia Bool.
From Stdlib Require Import DecimalString Lqa.
From stdpp Require Import base option list gmap.
From Equations Require Import Equations.

Import ListNotations.
Set Warnings "-register-all,-clear-no-such-hyp".
Local Open Scope Z_scope.
Local Open Scope list_scope.

(* ===================================================================== *)
(** * Part I. The embedding                                               *)
(* ===================================================================== *)

(** ** JavaScript strings

    A JavaScript string is a sequence of UTF-16 code units; a code unit is
    kept as an [N].  [lit] turns a Rocq literal (ASCII) into such a
    sequence. *)

Abbreviation jsstring := (list N).

Definition lit (s : string) : jsstring :=
  map N_of_ascii (list_ascii_of_string s).
Arguments lit s%_string.

(** The double quote delimiting attribute values. *)
Definition dquote : N := 34%N.

(** Decimal rendering of an integer, as [String(n)] gives it for the
    integers of the model. *)
Definition string_of_Z (z : Z) : jsstring :=
  lit (NilZero.string_of_int (Z.to_int z)).

Definition string_of_nat (n : nat) : jsstring := string_of_Z (Z.of_nat n).

(** [a.includes(b)]: [b] occurs in [a] as a contiguous run. *)
Fixpoint starts_with (p s : jsstring) : bool :=
  match p, s with
  | [], _ => true
  | _ :: _, [] => false
  | a :: p', b :: s' => N.eqb a b && starts_with p' s'
  end.

Fixpoint includes (s p : jsstring) : bool :=
  starts_with p s ||
  match s with
  | [] => false
  | _ :: s' => includes s' p
  end.

(** ** JavaScript values

    The values that reach the front end are decoded JSON.  Numbers of this
    type are the integer-valued ones (step numbers, counts); measurements
    ([pause_ms], heap sizes) are kept as rationals in the event record
    below. *)

Inductive JsVal : Type :=
| JUndefined
| JNull
| JBool (b : bool)
| JNum (n : Z)
| JStr (s : jsstring)
| JArr (items : list JsVal)
| JObj (fields : list (jsstring * JsVal)).

(** ToBoolean. *)
Definition truthy (v : JsVal) : bool :=
  match v with
  | JUndefined | JNull => false
  | JBool b => b
  | JNum n => negb (n =? 0)
  | JStr s => negb (Nat.eqb (length s) 0)
  | JArr _ | JObj _ => true
  end.

(** [a || b] *)
Definition js_or (a b : JsVal) : JsVal := if truthy a then a else b.

(** [a ?? b] *)
Definition js_nullish (a b : JsVal) : JsVal :=
  match a with
  | JUndefined | JNull => b
  | _ => a
  end.

Fixpoint join (sep : jsstring) (parts : list jsstring) : jsstring :=
  match parts with
  | [] => []
  | [p] => p
  | p :: rest => p ++ sep ++ join sep rest
  end.

(** ToString.  A plain object has no [toString] of its own and converts
    to the text [[object Object]]; an array joins its elements with a
    comma, a [null] or [undefined] element giving the empty string. *)
Fixpoint ToString (v : JsVal) : jsstring :=
  match v with
  | JUndefined => lit "undefined"
  | JNull => lit "null"
  | JBool true => lit "true"
  | JBool false => lit "false"
  | JNum n => string_of_Z n
  | JStr s => s
  | JArr items =>
      join (lit ",")
        (map (fun x => match x with
                       | JUndefined | JNull => []
                       | _ => ToString x
                       end) items)
  | JObj _ => lit "[object Object]"
  end.

(** Property read [o.k] on a decoded JSON object: the first field of that
    name, [undefined] when there is none. *)
Fixpoint get_field (k : jsstring) (fields : list (jsstring * JsVal)) : JsVal :=
  match fields with
  | [] => JUndefined
  | (k', v) :: rest => if decide (k = k') then v else get_field k rest
  end.

(** ** Writing HTML text

    The template literals of the source are written with these helpers;
    the white space that the templates carry between tags (line breaks and
    indentation) is not reproduced. *)

Definition attr (name : string) (value : jsstring) : jsstring :=
  lit " " ++ lit name ++ lit "=" ++ [dquote] ++ value ++ [dquote].

Definition open_tag (name : string) (attrs : list (string * jsstring)) : jsstring :=
  lit "<" ++ lit name ++ concat (map (fun a => attr (fst a) (snd a)) attrs) ++ lit ">".

Definition close_tag (name : string) : jsstring :=
  lit "</" ++ lit name ++ lit ">".

Definition el (name : string) (attrs : list (string * jsstring)) (body : jsstring) : jsstring :=
  open_tag name attrs ++ body ++ close_tag name.

Definition cls (c : string) : list (string * jsstring) := [("class"%string, lit c)].

(** ** escapeHtml (app.js, lines 1141-1146)

    [div.textContent = str; return div.innerHTML]: the text is serialized
    as the content of an element, which replaces the ampersand, the
    no-break space and the two angle brackets by character references and
    leaves every other code unit as it is. *)

Definition escape_unit (c : N) : jsstring :=
  if (c =? 38)%N then lit "&amp;"
  else if (c =? 160)%N then lit "&nbsp;"
  else if (c =? 60)%N then lit "&lt;"
  else if (c =? 62)%N then lit "&gt;"
  else [c].

Definition serialize_text (s : jsstring) : jsstring :=
  concat (map escape_unit s).

Definition escapeHtml (str : JsVal) : jsstring :=
  if negb (truthy str) then []
  else serialize_text (ToString str).


(** ** The host interface

    Number and date formatting are routines of the JavaScript engine; the
    front end only calls them.  They are taken as an interface. *)

Class Host : Type := {
  (** [x.toFixed(d)] *)
  toFixed : Q -> nat -> jsstring;
  (** [String(x)] for a number, as a template literal inserts it *)
  numberToString : Q -> jsstring;
  (** [n.toLocaleString()] for a count *)
  toLocaleString : N -> jsstring;
  (** [new Date(val).toLocaleTimeString()] *)
  dateToLocaleTimeString : JsVal -> jsstring;
  (** the message of the [TypeError] raised by a property read on
      [null] or [undefined] *)
  typeErrorMessage : jsstring
}.

(** ** The analyze result (section 6 of the specification)

    A measurement that is absent or [null] is [None].  The text fields
    are kept as decoded JSON values because the code tests them for
    truthiness and inserts them through string conversion. *)

Record GcEvent : Type := {
  gc_id : JsVal;
  timestamp : JsVal;
  uptime_seconds : option Q;
  pause_type : JsVal;
  gc_type : JsVal;
  cause : JsVal;
  pause_ms : option Q;
  heap_before_mb : option Q;
  heap_after_mb : option Q;
  heap_total_mb : option Q;
  heap_reclaimed_mb : option Q;
  is_full_gc : bool
}.

Record Issue : Type := {
  issue_type : jsstring;
  issue_severity : JsVal;
  issue_description : JsVal
}.

Record Statistics : Type := {
  total_gc_events : option N;
  full_gc_count : option N;
  max_pause_ms : option Q;
  avg_pause_ms : option Q;
  throughput_percent : option Q;
  max_heap_mb : option Q;
  pause_distribution : option (gmap jsstring N)
}.

Record AnalysisData : Type := {
  collector_type : JsVal;
  events : option (list GcEvent);
  statistics : Statistics;
  summary_severity : jsstring;
  issues : option (list Issue)
}.

(** [x > k] on a measurement: [undefined > k] and [null > 0] are false. *)
Definition num_gt (x : option Q) (k : Q) : bool :=
  match x with
  | Some q => negb (Qle_bool q k)
  | None => false
  end.

(** [x <= k] *)
Definition num_le (x : option Q) (k : Q) : bool :=
  match x with
  | Some q => Qle_bool q k
  | None => false
  end.

(** [!x] on a measurement *)
Definition num_falsy (x : option Q) : bool :=
  match x with
  | Some q => Qeq_bool q 0
  | None => true
  end.

(** [analysisData.events.filter(e => e.pause_ms > 0)] *)
Definition pause_events (evs : list GcEvent) : list GcEvent :=
  filter (fun e => num_gt (pause_ms e) 0 = true) evs.

(** [a.slice(start, end)]: a negative index counts from the end, both
    ends are clamped to the array. *)
Definition js_slice {A : Type} (l : list A) (start end_ : Z) : list A :=
  let n := Z.of_nat (length l) in
  let k := if start <? 0 then Z.max (n + start) 0 else Z.min start n in
  let f := if end_ <? 0 then Z.max (n + end_) 0 else Z.min end_ n in
  take (Z.to_nat (f - k)) (drop (Z.to_nat k) l).

Section FrontEnd.

Context `{host : Host}.

(** ** Formatting utilities (app.js, lines 1111-1139) *)

Definition formatMs (ms : option Q) : jsstring :=
  match ms with
  | None => lit "-"
  | Some q =>
      if Qle_bool 1000 q then toFixed (q / 1000)%Q 2 ++ lit "s"
      else toFixed q 1 ++ lit "ms"
  end.

Definition formatMB (mb : option Q) : jsstring :=
  match mb with
  | None => lit "-"
  | Some q =>
      if Qeq_bool q 0 then lit "-"
      else if Qle_bool 1024 q then toFixed (q / 1024)%Q 1 ++ lit " GB"
      else toFixed q 0 ++ lit " MB"
  end.

(** [formatTime(event.timestamp || event.uptime_seconds)] *)
Definition formatTime (ts : JsVal) (uptime : option Q) : jsstring :=
  if truthy ts then
    match ts with
    | JNum n => toFixed (inject_Z n) 3 ++ lit "s"
    | _ => dateToLocaleTimeString ts
    end
  else
    match uptime with
    | None => lit "-"
    | Some q => if Qeq_bool q 0 then lit "-" else toFixed q 3 ++ lit "s"
    end.

Definition getPauseBadgeClass (ms : option Q) : jsstring :=
  if num_falsy ms || num_le ms 10 then lit "fast"
  else if num_le ms 100 then lit "normal"
  else if num_le ms 500 then lit "slow"
  else lit "critical".

(** A measurement inserted by a template literal. *)
Definition num_text (x : option Q) : jsstring :=
  match x with
  | Some q => numberToString q
  | None => lit "undefined"
  end.

Definition bool_text (b : bool) : jsstring :=
  if b then lit "true" else lit "false".

(** ** displayEventsTable (app.js, lines 695-760) *)

Definition event_row (event : GcEvent) : jsstring :=
  let rowClass :=
    if is_full_gc event then lit "full-gc"
    else if num_gt (pause_ms event) 200 then lit "long-pause" else [] in
  let pauseClass := getPauseBadgeClass (pause_ms event) in
  el "tr" [("class"%string, rowClass);
           ("data-full"%string, bool_text (is_full_gc event));
           ("data-pause"%string, num_text (pause_ms event))]
    (el "td" [] (ToString (js_nullish (gc_id event) (JStr (lit "-")))) ++
     el "td" [] (formatTime (timestamp event) (uptime_seconds event)) ++
     el "td" [] (ToString (js_or (pause_type event) (gc_type event))) ++
     el "td" [] (ToString (js_or (cause event) (JStr (lit "-")))) ++
     el "td" []
       (el "span" [("class"%string, lit "pause-badge " ++ pauseClass)]
          (formatMs (pause_ms event))) ++
     el "td" [] (formatMB (heap_before_mb event)) ++
     el "td" [] (formatMB (heap_after_mb event)) ++
     el "td" [] (formatMB (heap_reclaimed_mb event))).

Definition events_toolbar : jsstring :=
  el "div" (cls "events-toolbar")
    (el "div" (cls "filter-group")
       (el "span" (cls "filter-label") (lit "Filter:") ++
        el "select" [("id"%string, lit "event-filter");
                     ("onchange"%string, lit "filterEvents()")]
          (el "option" [("value"%string, lit "all")] (lit "All Events") ++
           el "option" [("value"%string, lit "pause")] (lit "Pause Events Only") ++
           el "option" [("value"%string, lit "full")] (lit "Full GC Only") ++
           el "option" [("value"%string, lit "long")] (lit "Long Pauses (>100ms)")))).

Definition events_table_head : jsstring :=
  open_tag "div" (cls "events-scroll") ++
  open_tag "table" (cls "events-table") ++
  el "thead" []
    (el "tr" []
       (concat (map (fun h => el "th" [] (lit h))
          ["#"; "Time"; "Type"; "Cause"; "Pause"; "Heap Before";
           "Heap After"; "Reclaimed"]%string))) ++
  open_tag "tbody" [("id"%string, lit "events-tbody")].

(** [events.slice(0, 500)] *)
Definition displayEvents (events : list GcEvent) : list GcEvent :=
  js_slice events 0 500.

Definition events_notice (events : list GcEvent) : jsstring :=
  el "div" (cls "empty-state")
    (lit "Showing first 500 of " ++ string_of_nat (length events) ++ lit " events").

(** The value assigned to [container.innerHTML]. *)
Definition displayEventsTable (data : AnalysisData) : jsstring :=
  let events := default [] (events data) in
  if Nat.eqb (length events) 0 then
    el "div" (cls "empty-state") (lit "No GC events found")
  else
    events_toolbar ++ events_table_head ++
    concat (map event_row (displayEvents events)) ++
    lit "</tbody></table></div>" ++
    (if Nat.ltb 500 (length events) then events_notice events else []).

(** ** displayIssues (app.js, lines 664-693) *)

(** [s.replace(/_/g, ' ')] *)
Definition underscores_to_spaces (s : jsstring) : jsstring :=
  map (fun c => if (c =? 95)%N then 32%N else c) s.

Definition issue_card (issue : Issue) : jsstring :=
  el "div" [("class"%string, lit "issue-card " ++ ToString (issue_severity issue))]
    (el "div" (cls "issue-header")
       (el "span" (cls "issue-type") (underscores_to_spaces (issue_type issue)) ++
        el "span" [("class"%string, lit "issue-severity " ++ ToString (issue_severity issue))]
          (ToString (issue_severity issue))) ++
     el "div" (cls "issue-description") (escapeHtml (issue_description issue))).

(** The check mark of the empty state, as the source file has it. *)
Definition glyph_check : jsstring := [8218; 250; 236]%N.

Definition displayIssues (data : AnalysisData) : jsstring :=
  let issues := default [] (issues data) in
  if Nat.eqb (length issues) 0 then
    el "div" [("class"%string, lit "empty-state");
              ("style"%string, lit "color: var(--severity-healthy);")]
      (glyph_check ++ lit " No significant issues detected")
  else
    el "div" (cls "issues-list") (concat (map issue_card issues)).

(** ** displayDistributionChart (app.js, lines 621-662) *)

Definition bucketOrder : list jsstring :=
  [lit "0-10ms"; lit "10-50ms"; lit "50-100ms"; lit "100-500ms";
   lit "500ms-1s"; lit ">1s"].

(** [bucketColors[bucket]] *)
Definition bucketColors (bucket : jsstring) : jsstring :=
  if decide (bucket = lit "100-500ms") then lit "medium"
  else if decide (bucket = lit "500ms-1s") then lit "high"
  else if decide (bucket = lit ">1s") then lit "high"
  else [].

(** [Math.max(...Object.values(dist))]; [None] is the [-Infinity] of an
    empty argument list. *)
Definition maxCount (dist : gmap jsstring N) : option N :=
  foldr (fun kv acc =>
           match acc with
           | None => Some (snd kv)
           | Some m => Some (N.max (snd kv) m)
           end) None (map_to_list dist).

(** One bar of the chart: label, colour class, width in percent, count. *)
Record DistBar : Type := {
  bar_label : jsstring;
  bar_color : jsstring;
  bar_pct : Q;
  bar_count : N
}.

Definition dist_bar (dist : gmap jsstring N) (bucket : jsstring) : DistBar :=
  let count := default 0%N (dist !! bucket) in
  let pct :=
    match maxCount dist with
    | Some m =>
        if (0 <? m)%N
        then ((inject_Z (Z.of_N count) / inject_Z (Z.of_N m)) * 100)%Q
        else 0%Q
    | None => 0%Q
    end in
  {| bar_label := bucket; bar_color := bucketColors bucket;
     bar_pct := pct; bar_count := count |}.

(** The bars in rendering order: [for (const bucket of bucketOrder)]. *)
Definition dist_bars (dist : gmap jsstring N) : list DistBar :=
  map (dist_bar dist) bucketOrder.

Definition dist_bar_html (b : DistBar) : jsstring :=
  el "div" (cls "dist-bar")
    (el "div" (cls "dist-label") (bar_label b) ++
     el "div" (cls "dist-track")
       (el "div" [("class"%string, lit "dist-fill " ++ bar_color b);
                  ("style"%string, lit "width: " ++ numberToString (bar_pct b) ++ lit "%")]
          []) ++
     el "div" (cls "dist-count") (toLocaleString (bar_count b))).

Definition displayDistributionChart (data : AnalysisData) : jsstring :=
  match pause_distribution (statistics data) with
  | None => el "div" (cls "empty-state") (lit "No distribution data")
  | Some dist =>
      el "div" (cls "distribution-chart") (concat (map dist_bar_html (dist_bars dist)))
  end.

End FrontEnd.

(** ** The pause chart and its zoom state (app.js, lines 8-14, 180-403) *)

Record Zoom : Type := {
  startIndex : Z;
  endIndex : option Z;
  isDragging : bool;
  dragStartX : option Q
}.

(** The state that [displayResults] and [resetAnalysis] install. *)
Definition zoom_initial : Zoom :=
  {| startIndex := 0; endIndex := None; isDragging := false; dragStartX := None |}.

Definition set_range (z : Zoom) (s e : Z) : Zoom :=
  {| startIndex := s; endIndex := Some e;
     isDragging := isDragging z; dragStartX := dragStartX z |}.

(** What the mouse handlers registered by [setupPauseChartInteraction]
    have captured: [startIdx], [endIdx], [visibleEvents] and [chartWidth]. *)
Record Interaction : Type := {
  cap_startIdx : Z;
  cap_endIdx : Z;
  cap_visibleEvents : list GcEvent;
  cap_chartWidth : Z
}.

(** The content of the chart container after [displayPauseChart]. *)
Inductive PauseView : Type :=
| NoPauseData
| PauseChart (startIdx endIdx : Z) (shown : list GcEvent) (isZoomed : bool)
             (handlers : Interaction).

Definition padding_left : Z := 70.
Definition padding_right : Z := 20.

(** [if (pauseChartZoom.endIndex === null) pauseChartZoom.endIndex = allEvents.length] *)
Definition init_endIndex (allEvents : list GcEvent) (z : Zoom) : Zoom :=
  match endIndex z with
  | None => set_range z (startIndex z) (Z.of_nat (length allEvents))
  | Some _ => z
  end.

Definition visible_startIdx (z : Zoom) : Z := Z.max 0 (startIndex z).

Definition visible_endIdx (allEvents : list GcEvent) (z : Zoom) : Z :=
  Z.min (Z.of_nat (length allEvents)) (default 0 (endIndex z)).

(** [allEvents.slice(startIdx, endIdx)] *)
Definition visible_events (allEvents : list GcEvent) (z : Zoom) : list GcEvent :=
  js_slice allEvents (visible_startIdx z) (visible_endIdx allEvents z).

Definition setupPauseChartInteraction (allEvents : list GcEvent) (chartWidth : Z)
    (z : Zoom) : Interaction :=
  let startIdx := startIndex z in
  let endIdx := default 0 (endIndex z) in
  {| cap_startIdx := startIdx; cap_endIdx := endIdx;
     cap_visibleEvents := js_slice allEvents startIdx endIdx;
     cap_chartWidth := chartWidth |}.

(** The number of further calls [displayPauseChart] makes to itself. *)
Definition redisplays (allEvents : list GcEvent) (z : Zoom) : nat :=
  if Nat.eqb (length allEvents) 0 then 0%nat
  else if Nat.eqb (length (visible_events allEvents (init_endIndex allEvents z))) 0
       then 1%nat else 0%nat.

Definition inspect {A : Type} (a : A) : {b : A | a = b} := exist _ a eq_refl.

(** [displayPauseChart()], for the container width [clientWidth] and the
    events with a pause; it returns the zoom state it leaves and what the
    container shows. *)
Equations? displayPauseChart (clientWidth : Z) (allEvents : list GcEvent) (z : Zoom)
  : Zoom * PauseView by wf (redisplays allEvents z) lt :=
displayPauseChart clientWidth allEvents z with inspect (Nat.eqb (length allEvents) 0) := {
  | exist _ true _ => (z, NoPauseData)
  | exist _ false Hlen with
      inspect (Nat.eqb (length (visible_events allEvents (init_endIndex allEvents z))) 0) := {
      | exist _ true Hvis =>
          displayPauseChart clientWidth allEvents
            (set_range (init_endIndex allEvents z) 0 (Z.of_nat (length allEvents)))
      | exist _ false _ =>
          let z1 := init_endIndex allEvents z in
          let startIdx := visible_startIdx z1 in
          let endIdx := visible_endIdx allEvents z1 in
          let chartWidth := clientWidth - padding_left - padding_right in
          (z1, PauseChart startIdx endIdx (visible_events allEvents z1)
                 ((0 <? startIdx) || (endIdx <? Z.of_nat (length allEvents)))
                 (setupPauseChartInteraction allEvents chartWidth z1))
    }
}.
Proof.
  unfold redisplays. rewrite Hlen, Hvis.
  unfold init_endIndex, visible_events, visible_startIdx, visible_endIdx; simpl.
  destruct allEvents as [|e l]; [discriminate|].
  unfold js_slice. simpl length.
  rewrite Z.min_id. simpl (0 <? 0). rewrite Z.max_id.
  replace (Z.of_nat (S (length l)) <? 0) with false by (symmetry; apply Z.ltb_ge; lia).
  rewrite Z.min_id.
  replace (Z.min 0 (Z.of_nat (S (length l)))) with 0 by lia.
  rewrite Z.sub_0_r, Nat2Z.id. simpl. lia.
Qed.

(** The chart as it stands on the page: the zoom state and the view with
    the handlers attached to the current [svg] element. *)
Record ChartPage : Type := {
  pg_zoom : Zoom;
  pg_view : PauseView
}.

Definition page_of (r : Zoom * PauseView) : ChartPage :=
  {| pg_zoom := fst r; pg_view := snd r |}.

(** [zoomPauseChart(action)] (app.js, lines 377-403).  [Math.floor] of a
    quarter and of a half of an integer are the floor divisions by 4 and
    by 2; an action other than the three known ones changes nothing
    before the chart is displayed again. *)
Definition zoomPauseChart (clientWidth : Z) (allEvents : list GcEvent)
    (action : jsstring) (z : Zoom) : Zoom * PauseView :=
  let n := Z.of_nat (length allEvents) in
  let currentStart := startIndex z in
  let currentEnd :=
    match endIndex z with
    | Some e => if e =? 0 then n else e
    | None => n
    end in
  let visibleCount := currentEnd - currentStart in
  let z' :=
    if decide (action = lit "in") then
      let zoomInAmount := visibleCount / 4 in
      set_range z (currentStart + zoomInAmount) (currentEnd - zoomInAmount)
    else if decide (action = lit "out") then
      let zoomOutAmount := visibleCount / 2 in
      set_range z (Z.max 0 (currentStart - zoomOutAmount))
                  (Z.min n (currentEnd + zoomOutAmount))
    else if decide (action = lit "reset") then
      set_range z 0 n
    else z in
  displayPauseChart clientWidth allEvents z'.

(** The [mousedown] handler; [x] is [e.clientX - rect.left]. *)
Definition on_mousedown (h : Interaction) (x : Q) (z : Zoom) : Zoom :=
  if Qle_bool (inject_Z padding_left) x &&
     Qle_bool x (inject_Z (padding_left + cap_chartWidth h))
  then {| startIndex := startIndex z; endIndex := endIndex z;
          isDragging := true; dragStartX := Some x |}
  else z.

Definition stop_dragging (z : Zoom) : Zoom :=
  {| startIndex := startIndex z; endIndex := endIndex z;
     isDragging := false; dragStartX := dragStartX z |}.

(** The [mouseup] handler.  The result is [None] when the selection is
    divided by a chart width of zero: the quotient is then not a number
    of the model. *)
Definition on_mouseup (clientWidth : Z) (allEvents : list GcEvent)
    (h : Interaction) (x : Q) (pg : ChartPage) : option ChartPage :=
  let z := pg_zoom pg in
  if negb (isDragging z) then Some pg
  else
    let lo := inject_Z padding_left in
    let hi := inject_Z (padding_left + cap_chartWidth h) in
    let endX := Qmax lo (Qmin x hi) in
    let startX := default 0%Q (dragStartX z) in
    let z0 := stop_dragging z in
    let selWidth := Qabs (endX - startX) in
    if negb (Qle_bool 10 selWidth)
    then Some {| pg_zoom := z0; pg_view := pg_view pg |}
    else if cap_chartWidth h =? 0 then None
    else
      let leftX := (Qmin startX endX - lo)%Q in
      let rightX := (Qmax startX endX - lo)%Q in
      let len := inject_Z (Z.of_nat (length (cap_visibleEvents h))) in
      let cw := inject_Z (cap_chartWidth h) in
      let leftIdx := Qfloor ((leftX / cw) * len) in
      let rightIdx := Qceiling ((rightX / cw) * len) in
      let z1 :=
        set_range z0
          (cap_startIdx h + Z.max 0 leftIdx)
          (cap_startIdx h +
             Z.min (Z.of_nat (length (cap_visibleEvents h))) rightIdx) in
      Some (page_of (displayPauseChart clientWidth allEvents z1)).

(** What can happen to the chart between two uploads. *)
Inductive ChartEvent : Type :=
| ZoomButton (action : jsstring)
| MouseDown (x : Q)
| MouseMove (x : Q)
| MouseUp (x : Q)
| MouseLeave
| TabShown.

(** One event on the page.  The mouse handlers exist only while an [svg]
    element is displayed; [mousemove] only moves the selection rectangle;
    showing the overview tab displays the chart again. *)
Definition chart_step (clientWidth : Z) (allEvents : list GcEvent)
    (pg : ChartPage) (ev : ChartEvent) : option ChartPage :=
  match ev with
  | ZoomButton action =>
      Some (page_of (zoomPauseChart clientWidth allEvents action (pg_zoom pg)))
  | TabShown =>
      Some (page_of (displayPauseChart clientWidth allEvents (pg_zoom pg)))
  | MouseDown x =>
      match pg_view pg with
      | PauseChart _ _ _ _ h =>
          Some {| pg_zoom := on_mousedown h x (pg_zoom pg); pg_view := pg_view pg |}
      | NoPauseData => Some pg
      end
  | MouseMove _ => Some pg
  | MouseUp x =>
      match pg_view pg with
      | PauseChart _ _ _ _ h => on_mouseup clientWidth allEvents h x pg
      | NoPauseData => Some pg
      end
  | MouseLeave =>
      match pg_view pg with
      | PauseChart _ _ _ _ _ =>
          Some {| pg_zoom := stop_dragging (pg_zoom pg); pg_view := pg_view pg |}
      | NoPauseData => Some pg
      end
  end.

(** The chart part of [displayResults]: the zoom is reset for the new
    data and the chart is displayed. *)
Definition displayResults_chart (clientWidth : Z) (evs : list GcEvent)
    (z : Zoom) : ChartPage :=
  let z0 := {| startIndex := 0; endIndex := None;
               isDragging := isDragging z; dragStartX := dragStartX z |} in
  page_of (displayPauseChart clientWidth (pause_events evs) z0).

(** The invariant of the zoom state, for [n] events with a pause: once
    [endIndex] is set, [0 <= startIndex <= endIndex <= n]; before that the
    range starts at 0. *)
Definition zoom_ok (n : Z) (z : Zoom) : Prop :=
  match endIndex z with
  | None => startIndex z = 0
  | Some e => 0 <= startIndex z /\ startIndex z <= e /\ e <= n
  end.

(** A drag in progress started inside the chart area. *)
Definition drag_ok (clientWidth : Z) (z : Zoom) : Prop :=
  isDragging z = true ->
  exists x0 : Q,
    dragStartX z = Some x0 /\
    (inject_Z padding_left <= x0)%Q /\
    (x0 <= inject_Z (padding_left + (clientWidth - padding_left - padding_right)))%Q.

(** The handlers of the displayed chart are those of the current range. *)
Definition view_ok (clientWidth : Z) (allEvents : list GcEvent) (z : Zoom)
    (v : PauseView) : Prop :=
  match v with
  | NoPauseData => True
  | PauseChart _ _ _ _ h =>
      (exists e, endIndex z = Some e) /\
      h = setupPauseChartInteraction allEvents
            (clientWidth - padding_left - padding_right) z
  end.

Definition page_ok (clientWidth : Z) (allEvents : list GcEvent)
    (pg : ChartPage) : Prop :=
  zoom_ok (Z.of_nat (length allEvents)) (pg_zoom pg) /\
  drag_ok clientWidth (pg_zoom pg) /\
  view_ok clientWidth allEvents (pg_zoom pg) (pg_view pg).

(** ** Regular expressions

    The patterns of [formatMarkdown] use literal characters, character
    classes, greedy and lazy repetition, capture groups and the line
    anchors of the [m] flag.  They are matched by backtracking, as the
    language defines it: a repetition tries its alternatives in order
    (one more iteration first when greedy, the continuation first when
    lazy) and an iteration that consumes nothing is rejected. *)

Inductive charclass : Type :=
| CLit (c : N)                (* a literal character *)
| CDot                        (* [.] *)
| CDigit                      (* [\d] *)
| CSpace                      (* [\s] *)
| COneOf (cs : list N)        (* [[...]] *)
| CNoneOf (cs : list N).      (* [[^...]] *)

Inductive regex : Type :=
| REmpty
| RChar (c : charclass)
| RSeq (a b : regex)
| RRepeat (atLeastOne greedy : bool) (a : regex)
| RGroup (n : nat) (a : regex)
| RBol                        (* [^] with the [m] flag *)
| REol.                       (* [$] with the [m] flag *)

Definition is_line_terminator (c : N) : bool :=
  ((c =? 10) || (c =? 13) || (c =? 8232) || (c =? 8233))%N.

(** WhiteSpace and LineTerminator, the set of [\s] and of [trim]. *)
Definition is_js_whitespace (c : N) : bool :=
  ((c =? 9) || (c =? 10) || (c =? 11) || (c =? 12) || (c =? 13) || (c =? 32) ||
   (c =? 160) || (c =? 5760) || ((8192 <=? c) && (c <=? 8202)) ||
   (c =? 8232) || (c =? 8233) || (c =? 8239) || (c =? 8287) ||
   (c =? 12288) || (c =? 65279))%N.

Definition N_in (c : N) (cs : list N) : bool := existsb (N.eqb c) cs.

Definition class_matches (cl : charclass) (c : N) : bool :=
  match cl with
  | CLit a => (c =? a)%N
  | CDot => negb (is_line_terminator c)
  | CDigit => ((48 <=? c) && (c <=? 57))%N
  | CSpace => is_js_whitespace c
  | COneOf cs => N_in c cs
  | CNoneOf cs => negb (N_in c cs)
  end.

(** A position of the matcher: the character before it, the input that
    remains and the captures made so far. *)
Record MState : Type := {
  ms_prev : option N;
  ms_rest : jsstring;
  ms_caps : list (nat * jsstring)
}.

Definition consumed (s s' : MState) : jsstring :=
  take (length (ms_rest s) - length (ms_rest s')) (ms_rest s).

Definition set_cap (n : nat) (v : jsstring) (s : MState) : MState :=
  {| ms_prev := ms_prev s; ms_rest := ms_rest s;
     ms_caps := (n, v) :: ms_caps s |}.

Definition at_line_start (s : MState) : bool :=
  match ms_prev s with
  | None => true
  | Some c => is_line_terminator c
  end.

Definition at_line_end (s : MState) : bool :=
  match ms_rest s with
  | [] => true
  | c :: _ => is_line_terminator c
  end.

Definition orelse {A : Type} (a b : option A) : option A :=
  match a with
  | Some _ => a
  | None => b
  end.

Fixpoint rmatch (r : regex) (k : MState -> option MState) (s : MState)
  {struct r} : option MState :=
  match r with
  | REmpty => k s
  | RChar cl =>
      match ms_rest s with
      | c :: rest =>
          if class_matches cl c
          then k {| ms_prev := Some c; ms_rest := rest; ms_caps := ms_caps s |}
          else None
      | [] => None
      end
  | RSeq a b => rmatch a (rmatch b k) s
  | RGroup n a => rmatch a (fun s' => k (set_cap n (consumed s s') s')) s
  | RBol => if at_line_start s then k s else None
  | REol => if at_line_end s then k s else None
  | RRepeat atLeastOne greedy a =>
      let more :=
        fix more (fuel : nat) (s : MState) {struct fuel} : option MState :=
          match fuel with
          | O => k s
          | S fuel' =>
              let again :=
                rmatch a
                  (fun s' =>
                     if Nat.ltb (length (ms_rest s')) (length (ms_rest s))
                     then more fuel' s' else None) s in
              if greedy then orelse again (k s) else orelse (k s) again
          end in
      if atLeastOne
      then rmatch a (fun s' => more (length (ms_rest s')) s') s
      else more (length (ms_rest s)) s
  end.

(** A match at the current position: the matched text and the captures. *)
Definition exec_at (r : regex) (prev : option N) (input : jsstring)
  : option (jsstring * list (nat * jsstring)) :=
  let s0 := {| ms_prev := prev; ms_rest := input; ms_caps := [] |} in
  match rmatch r Some s0 with
  | Some s' => Some (consumed s0 s', ms_caps s')
  | None => None
  end.

(** Replacement templates: literal text, [$n] and [$&]. *)
Inductive tpart : Type :=
| TLit (s : jsstring)
| TGroup (n : nat)
| TWhole.

Fixpoint lookup_cap (n : nat) (caps : list (nat * jsstring)) : jsstring :=
  match caps with
  | [] => []
  | (m, v) :: rest => if Nat.eqb n m then v else lookup_cap n rest
  end.

Definition expand (t : list tpart) (whole : jsstring)
    (caps : list (nat * jsstring)) : jsstring :=
  concat (map (fun p => match p with
                        | TLit s => s
                        | TGroup n => lookup_cap n caps
                        | TWhole => whole
                        end) t).

(** [s.replace(r, t)] for a pattern with the [g] flag.  The input is
    walked from left to right; [skip] counts the characters of the last
    match that are still to be passed over.  After an empty match the
    walk advances by one character, which is copied. *)
Fixpoint replace_from (r : regex) (t : list tpart) (prev : option N)
    (input : jsstring) (skip : nat) {struct input} : jsstring :=
  match skip with
  | S skip' =>
      match input with
      | [] => []
      | c :: rest => replace_from r t (Some c) rest skip'
      end
  | O =>
      match exec_at r prev input with
      | Some (whole, caps) =>
          expand t whole caps ++
          match input with
          | [] => []
          | c :: rest =>
              match length whole with
              | O => c :: replace_from r t (Some c) rest 0
              | S n => replace_from r t (Some c) rest n
              end
          end
      | None =>
          match input with
          | [] => []
          | c :: rest => c :: replace_from r t (Some c) rest 0
          end
      end
  end.

Definition replace_all (r : regex) (t : list tpart) (input : jsstring) : jsstring :=
  replace_from r t None input 0.

(** Sequences and literal runs of a pattern. *)
Fixpoint rseq (rs : list regex) : regex :=
  match rs with
  | [] => REmpty
  | [r] => r
  | r :: rest => RSeq r (rseq rest)
  end.

Definition rlit (s : string) : regex :=
  rseq (map (fun c => RChar (CLit c)) (lit s)).

Definition plus (a : regex) : regex := RRepeat true true a.
Definition plus_lazy (a : regex) : regex := RRepeat true false a.
Definition star (a : regex) : regex := RRepeat false true a.

(** ** formatMarkdown (app.js, lines 1148-1182) *)

(** [/^### (.+)$/gm], [/^## (.+)$/gm], [/^# (.+)$/gm] *)
Definition re_header (hashes : string) : regex :=
  rseq [RBol; rlit hashes; rlit " "; RGroup 1 (plus (RChar CDot)); REol].

(** [/\*\*(.+?)\*\*/g] *)
Definition re_bold : regex :=
  rseq [rlit "**"; RGroup 1 (plus_lazy (RChar CDot)); rlit "**"].

(** [/`([^`]+)`/g] *)
Definition re_code : regex :=
  rseq [RChar (CLit 96); RGroup 1 (plus (RChar (CNoneOf [96%N]))); RChar (CLit 96)].

(** [/^- (.+)$/gm] *)
Definition re_bullet : regex :=
  rseq [RBol; rlit "- "; RGroup 1 (plus (RChar CDot)); REol].

(** [/^(\d+)\. (.+)$/gm] *)
Definition re_numbered : regex :=
  rseq [RBol; RGroup 1 (plus (RChar CDigit)); rlit ". ";
        RGroup 2 (plus (RChar CDot)); REol].

(** [/(<li>.*<\/li>)+/g] *)
Definition re_items : regex :=
  plus (RGroup 1 (rseq [rlit "<li>"; star (RChar CDot); rlit "</li>"])).

(** [/\n\n/g] *)
Definition re_blank_line : regex :=
  rseq [RChar (CLit 10); RChar (CLit 10)].

(** [/<p>\s*<\/p>/g] *)
Definition re_empty_par : regex :=
  rseq [rlit "<p>"; star (RChar CSpace); rlit "</p>"].

(** [/<p>(<h[123]>)/g] *)
Definition re_par_header : regex :=
  rseq [rlit "<p>"; RGroup 1 (rseq [rlit "<h"; RChar (COneOf [49; 50; 51]%N); rlit ">"])].

(** [/(<\/h[123]>)<\/p>/g] *)
Definition re_header_par : regex :=
  rseq [RGroup 1 (rseq [rlit "</h"; RChar (COneOf [49; 50; 51]%N); rlit ">"]); rlit "</p>"].

(** [/<p>(<ul>)/g] *)
Definition re_par_list : regex :=
  rseq [rlit "<p>"; RGroup 1 (rlit "<ul>")].

(** [/(<\/ul>)<\/p>/g] *)
Definition re_list_par : regex :=
  rseq [RGroup 1 (rlit "</ul>"); rlit "</p>"].

Definition wrap (tag : string) (inner : tpart) : list tpart :=
  [TLit (open_tag tag []); inner; TLit (close_tag tag)].

(** The rewrites applied to the escaped text, in the order of the source. *)
Definition markdown_rewrites (html : jsstring) : jsstring :=
  (* Headers *)
  let html := replace_all (re_header "###") (wrap "h3" (TGroup 1)) html in
  let html := replace_all (re_header "##") (wrap "h2" (TGroup 1)) html in
  let html := replace_all (re_header "#") (wrap "h1" (TGroup 1)) html in
  (* Bold *)
  let html := replace_all re_bold (wrap "strong" (TGroup 1)) html in
  (* Inline code *)
  let html := replace_all re_code (wrap "code" (TGroup 1)) html in
  (* Lists *)
  let html := replace_all re_bullet (wrap "li" (TGroup 1)) html in
  let html := replace_all re_numbered (wrap "li" (TGroup 2)) html in
  (* Wrap consecutive <li> in <ul> *)
  let html := replace_all re_items (wrap "ul" TWhole) html in
  (* Paragraphs *)
  let html := replace_all re_blank_line [TLit (lit "</p><p>")] html in
  let html := lit "<p>" ++ html ++ lit "</p>" in
  (* Cleanup *)
  let html := replace_all re_empty_par [] html in
  let html := replace_all re_par_header [TGroup 1] html in
  let html := replace_all re_header_par [TGroup 1] html in
  let html := replace_all re_par_list [TGroup 1] html in
  let html := replace_all re_list_par [TGroup 1] html in
  html.

Definition formatMarkdown (text : JsVal) : jsstring :=
  if negb (truthy text) then []
  else markdown_rewrites (escapeHtml text).

(** ** The markup of formatMarkdown

    The tags that the rewrites of [formatMarkdown] insert. *)
Definition markdown_tags : list jsstring :=
  [lit "<h1>"; lit "</h1>"; lit "<h2>"; lit "</h2>"; lit "<h3>"; lit "</h3>";
   lit "<strong>"; lit "</strong>"; lit "<code>"; lit "</code>";
   lit "<li>"; lit "</li>"; lit "<ul>"; lit "</ul>"; lit "<p>"; lit "</p>"].


(** A character that occurs in none of the tags. *)
Definition is_plain (c : N) : bool :=
  negb (N_in c (concat markdown_tags)).

(** After such a character no tag is open; before such a character no
    tag is open either. *)
Definition closes (c : N) : bool := is_plain c || (c =? 62)%N.
Definition opens (c : N) : bool := is_plain c || (c =? 60)%N.



(** A position at the start of the input or after a line terminator. *)
Definition starts_line (prev : option N) : bool :=
  match prev with
  | None => true
  | Some c => is_line_terminator c
  end.

(** The matches of a pattern, as a relation between the position where a
    match starts and the position where it ends. *)
Inductive Matches : regex -> MState -> MState -> Prop :=
| M_empty (s : MState) : Matches REmpty s s
| M_char (cl : charclass) (c : N) (rest : jsstring) (s : MState) :
    ms_rest s = c :: rest -> class_matches cl c = true ->
    Matches (RChar cl) s
      {| ms_prev := Some c; ms_rest := rest; ms_caps := ms_caps s |}
| M_seq (a b : regex) (s s1 s2 : MState) :
    Matches a s s1 -> Matches b s1 s2 -> Matches (RSeq a b) s s2
| M_group (n : nat) (a : regex) (s s' : MState) :
    Matches a s s' ->
    Matches (RGroup n a) s (set_cap n (consumed s s') s')
| M_bol (s : MState) : at_line_start s = true -> Matches RBol s s
| M_eol (s : MState) : at_line_end s = true -> Matches REol s s
| M_repeat_done (greedy : bool) (a : regex) (s : MState) :
    Matches (RRepeat false greedy a) s s
| M_repeat_more (one greedy : bool) (a : regex) (s s1 s2 : MState) :
    Matches a s s1 -> Matches (RRepeat false greedy a) s1 s2 ->
    Matches (RRepeat one greedy a) s s2.

(** Inside a tag nothing closes before the last character and nothing
    opens after the first. *)
Definition tag_inside_ok (t : jsstring) : bool :=
  forallb (fun c => negb (closes c)) (removelast t) &&
  forallb (fun c => negb (opens c)) (tail t) &&
  negb (Nat.eqb (length t) 0).


(** ** Replies of the AI endpoints (sections 3 and 6 of the specification)

    A reply is a decoded JSON object; a field that the object does not
    have is [JUndefined] (or [None] for an array).  The fields that the
    code inserts through string conversion or tests for truthiness are
    kept as values. *)

Record AgentStep : Type := {
  step : JsVal;
  thought : JsVal;
  action : JsVal;
  observation : JsVal;
  is_final : JsVal
}.

Record Recommendation : Type := {
  rec_flag : JsVal;
  rec_reason : JsVal;
  rec_priority : JsVal
}.

Record FoundIssue : Type := {
  found_type : jsstring;
  found_severity : JsVal
}.

Record Reply : Type := {
  available : JsVal;
  error : JsVal;
  analysis : JsVal;
  answer : JsVal;
  model : JsVal;
  steps : option (list AgentStep);
  total_steps : JsVal;
  final_answer : JsVal;
  recommendations : option (list Recommendation);
  issues_found : option (list FoundIssue)
}.

(** The glyphs of the templates, with the code units that the source
    file has for them. *)
Definition glyph_hourglass : jsstring := [8218; 232; 8805]%N.
Definition glyph_cross : jsstring := [8218; 249; 229]%N.
Definition glyph_sparkles : jsstring := [8218; 250; 174]%N.
Definition glyph_robot : jsstring := [63743; 252; 167; 241]%N.
Definition glyph_dot : jsstring := [8218; 243; 232]%N.
Definition glyph_microscope : jsstring := [63743; 252; 238; 168]%N.
Definition glyph_done : jsstring := [8218; 250; 214]%N.
Definition glyph_target : jsstring := [63743; 252; 233; 216]%N.
Definition glyph_red : jsstring := [63743; 252; 238; 165]%N.
Definition glyph_yellow : jsstring := [63743; 252; 252; 176]%N.
Definition glyph_warning : jsstring := [8218; 246; 8224; 212; 8719; 232]%N.

(** [v === 'text'] *)
Definition is_string (v : JsVal) (text : jsstring) : bool :=
  match v with
  | JStr s => bool_decide (s = text)
  | _ => false
  end.

(** ** displayAgenticResult (app.js, lines 952-1048) *)

(** The action element of a step: present when [step.action] is truthy. *)
Definition step_action_html (st : AgentStep) : jsstring :=
  if truthy (action st)
  then el "div" (cls "agentic-step-action") (escapeHtml (action st))
  else [].

Definition step_observation_html (st : AgentStep) : jsstring :=
  if truthy (observation st)
  then el "div" (cls "agentic-step-body")
         (el "div" (cls "agentic-observation") (escapeHtml (observation st)))
  else [].

Definition step_html (st : AgentStep) : jsstring :=
  let isExpanded := if truthy (is_final st) then lit "expanded" else [] in
  let isFinal := if truthy (is_final st) then lit "final" else [] in
  el "div" [("class"%string, lit "agentic-step " ++ isExpanded ++ lit " " ++ isFinal);
            ("onclick"%string, lit "this.classList.toggle('expanded')")]
    (el "div" (cls "agentic-step-header")
       (el "div" (cls "agentic-step-number") (ToString (step st)) ++
        el "div" (cls "agentic-step-thought")
          (escapeHtml (js_or (thought st) (JStr (lit "Thinking...")))) ++
        step_action_html st) ++
     step_observation_html st).

Definition trace_html (result : Reply) : jsstring :=
  match steps result with
  | Some ((_ :: _) as sts) =>
      el "div" (cls "agentic-trace")
        (el "h3" [("style"%string, lit "color: var(--accent-cyan); margin-bottom: 1rem;")]
           (glyph_microscope ++ lit " Investigation Trace (" ++
            ToString (total_steps result) ++ lit " steps)") ++
         concat (map step_html sts))
  | _ => []
  end.

Definition final_answer_html (result : Reply) : jsstring :=
  if truthy (final_answer result) then
    el "div" (cls "agentic-final-answer")
      (el "div" (cls "agentic-final-header")
         (el "span" [] glyph_done ++ lit " Analysis Complete") ++
       el "div" (cls "ai-result") (formatMarkdown (final_answer result)))
  else [].

Definition recommendation_html (rec : Recommendation) : jsstring :=
  let priorityIcon :=
    if is_string (rec_priority rec) (lit "high") then glyph_red else glyph_yellow in
  el "div" (cls "agentic-rec-item")
    (el "div" (cls "agentic-rec-priority") priorityIcon ++
     el "div" (cls "agentic-rec-content")
       (el "div" (cls "agentic-rec-flag") (escapeHtml (rec_flag rec)) ++
        el "div" (cls "agentic-rec-reason") (escapeHtml (rec_reason rec)))).

Definition recommendations_html (result : Reply) : jsstring :=
  match recommendations result with
  | Some ((_ :: _) as recs) =>
      el "div" (cls "agentic-recommendations")
        (el "div" (cls "agentic-rec-title")
           (glyph_target ++ lit " Tuning Recommendations") ++
         concat (map recommendation_html recs))
  | _ => []
  end.

Definition found_issue_html (issue : FoundIssue) : jsstring :=
  let severityColor :=
    if is_string (found_severity issue) (lit "critical")
    then lit "var(--severity-critical)" else lit "var(--severity-warning)" in
  el "div" [("class"%string, lit "agentic-rec-item");
            ("style"%string, lit "border-left: 3px solid " ++ severityColor ++ lit ";")]
    (el "div" (cls "agentic-rec-content")
       (el "div" [("style"%string,
                   lit "color: " ++ severityColor ++
                   lit "; font-weight: 500; text-transform: capitalize;")]
          (escapeHtml (JStr (underscores_to_spaces (found_type issue)))))).

Definition issues_found_html (result : Reply) : jsstring :=
  match issues_found result with
  | Some ((_ :: _) as found) =>
      el "div" [("style"%string, lit "margin-top: 1.5rem;")]
        (el "div" (cls "agentic-rec-title")
           (glyph_warning ++ lit " Issues Discovered During Investigation") ++
         concat (map found_issue_html found))
  | _ => []
  end.

(** The value assigned to the [innerHTML] of the analysis container. *)
Definition displayAgenticResult (result : Reply) : jsstring :=
  el "div" (cls "agentic-result")
    (trace_html result ++ final_answer_html result ++
     recommendations_html result ++ issues_found_html result).

(** ** Requests and the network *)

Inductive Method : Type := GET | POST.

Inductive Body : Type :=
| NoBody
| JsonAnalysis (data : option AnalysisData)
    (* [JSON.stringify(analysisData)] *)
| JsonChat (question : jsstring) (context : option AnalysisData).
    (* [JSON.stringify({question: question, context: analysisData})] *)

Record Request : Type := {
  url : jsstring;
  method : Method;
  timeout_ms : option Z;       (* [signal: AbortSignal.timeout(ms)] *)
  body : Body
}.

(** What [response.json()] gives: a rejection with a message, the JSON
    value [null], or an object. *)
Inductive Parsed : Type :=
| Unreadable (message : jsstring)
| ParsedNull
| ParsedObject (o : Reply).

(** What [fetch] gives: a rejection (network failure, or the abort of
    the timeout signal) or a response. *)
Inductive FetchOutcome : Type :=
| Rejected (message : jsstring)
| Fulfilled (ok : bool) (json : Parsed).

(** ** The page *)

Record Button : Type := {
  disabled : bool;
  btn_html : jsstring
}.

(** A message element of the chat: class, [id] and [innerHTML]. *)
Record ChatMessage : Type := {
  msg_class : jsstring;
  msg_id : option jsstring;
  msg_html : jsstring
}.

Record Page : Type := {
  requests : list Request;          (* the [fetch] calls, oldest first *)
  ai_analysis : jsstring;           (* [#ai-analysis].innerHTML *)
  ai_model_badge : jsstring;        (* [#ai-model-badge].textContent *)
  ai_tab : option jsstring;         (* [.tab.ai-tab].innerHTML, if it exists *)
  quick_btn : Button;               (* [#ai-analyze-btn] *)
  agentic_btn : Button;             (* [#agentic-analyze-btn] *)
  chat_messages : list ChatMessage; (* children of [#ai-chat-messages] *)
  chat_input_value : jsstring;      (* [#ai-chat-input].value *)
  chat_input_disabled : bool
}.

Definition log_request (r : Request) (p : Page) : Page :=
  {| requests := requests p ++ [r]; ai_analysis := ai_analysis p;
     ai_model_badge := ai_model_badge p; ai_tab := ai_tab p;
     quick_btn := quick_btn p; agentic_btn := agentic_btn p;
     chat_messages := chat_messages p; chat_input_value := chat_input_value p;
     chat_input_disabled := chat_input_disabled p |}.

Definition with_ai_analysis (html : jsstring) (p : Page) : Page :=
  {| requests := requests p; ai_analysis := html;
     ai_model_badge := ai_model_badge p; ai_tab := ai_tab p;
     quick_btn := quick_btn p; agentic_btn := agentic_btn p;
     chat_messages := chat_messages p; chat_input_value := chat_input_value p;
     chat_input_disabled := chat_input_disabled p |}.

Definition with_model_badge (text : jsstring) (p : Page) : Page :=
  {| requests := requests p; ai_analysis := ai_analysis p;
     ai_model_badge := text; ai_tab := ai_tab p;
     quick_btn := quick_btn p; agentic_btn := agentic_btn p;
     chat_messages := chat_messages p; chat_input_value := chat_input_value p;
     chat_input_disabled := chat_input_disabled p |}.

(** [if (aiTab) aiTab.innerHTML = html] *)
Definition with_ai_tab (html : jsstring) (p : Page) : Page :=
  {| requests := requests p; ai_analysis := ai_analysis p;
     ai_model_badge := ai_model_badge p;
     ai_tab := match ai_tab p with Some _ => Some html | None => None end;
     quick_btn := quick_btn p; agentic_btn := agentic_btn p;
     chat_messages := chat_messages p; chat_input_value := chat_input_value p;
     chat_input_disabled := chat_input_disabled p |}.

Definition with_buttons (quick agentic : Button) (p : Page) : Page :=
  {| requests := requests p; ai_analysis := ai_analysis p;
     ai_model_badge := ai_model_badge p; ai_tab := ai_tab p;
     quick_btn := quick; agentic_btn := agentic;
     chat_messages := chat_messages p; chat_input_value := chat_input_value p;
     chat_input_disabled := chat_input_disabled p |}.

Definition with_chat (msgs : list ChatMessage) (value : jsstring) (dis : bool)
    (p : Page) : Page :=
  {| requests := requests p; ai_analysis := ai_analysis p;
     ai_model_badge := ai_model_badge p; ai_tab := ai_tab p;
     quick_btn := quick_btn p; agentic_btn := agentic_btn p;
     chat_messages := msgs; chat_input_value := value;
     chat_input_disabled := dis |}.

(** ** Asynchronous functions

    An [async] function of the front end is a computation over the page
    that ends normally or with a thrown error, of which only the message
    is used. *)

Inductive Outcome (A : Type) : Type :=
| Done (a : A)
| Thrown (message : jsstring).
Arguments Done {A} a.
Arguments Thrown {A} message.

Definition Js (A : Type) : Type := Page -> Outcome A * Page.

Definition ret {A : Type} (a : A) : Js A := fun p => (Done a, p).

Definition throw {A : Type} (message : jsstring) : Js A :=
  fun p => (Thrown message, p).

Definition bind {A B : Type} (m : Js A) (k : A -> Js B) : Js B :=
  fun p =>
    match m p with
    | (Done a, p') => k a p'
    | (Thrown e, p') => (Thrown e, p')
    end.

Definition update (f : Page -> Page) : Js unit := fun p => (Done tt, f p).

(** [try { m } catch (error) { handler(error.message) }] *)
Definition try_catch {A : Type} (m : Js A) (handler : jsstring -> Js A) : Js A :=
  fun p =>
    match m p with
    | (Done a, p') => (Done a, p')
    | (Thrown e, p') => handler e p'
    end.

(** [try { m } finally { fin }], for a [fin] that does not throw *)
Definition try_finally {A : Type} (m : Js A) (fin : Page -> Page) : Js A :=
  fun p => let (r, p') := m p in (r, fin p').

Declare Scope js_scope.
Delimit Scope js_scope with js.
Notation "x <- m ;; k" := (bind m (fun x => k))
  (at level 100, m at next level, right associativity) : js_scope.
Notation "m ;;; k" := (bind m (fun _ => k))
  (at level 100, right associativity) : js_scope.

Section AiPanel.

Context `{host : Host}.

(** The network and the servers behind it: what each request meets. *)
Variable net : Request -> FetchOutcome.

Local Open Scope js_scope.

(** A response that [fetch] resolved with. *)
Record Response : Type := {
  resp_ok : bool;
  resp_json : Parsed
}.

(** [await fetch(url, options)]: the request is issued, then the promise
    settles. *)
Definition fetch (r : Request) : Js Response :=
  fun p =>
    match net r with
    | Rejected message => (Thrown message, log_request r p)
    | Fulfilled ok json =>
        (Done {| resp_ok := ok; resp_json := json |}, log_request r p)
    end.

(** [await response.json()]; [None] is the value [null]. *)
Definition json (r : Response) : Js (option Reply) :=
  match resp_json r with
  | Unreadable message => throw message
  | ParsedNull => ret None
  | ParsedObject o => ret (Some o)
  end.

(** A property read [result.f]: a [TypeError] on [null]. *)
Definition prop {A : Type} (result : option Reply) (f : Reply -> A) : Js A :=
  match result with
  | Some o => ret (f o)
  | None => throw typeErrorMessage
  end.

Definition health_request : Request :=
  {| url := lit "/ai-health"; method := GET;
     timeout_ms := Some 3000; body := NoBody |}.

Definition agentic_request (analysisData : option AnalysisData) : Request :=
  {| url := lit "/agentic-analyze"; method := POST;
     timeout_ms := None; body := JsonAnalysis analysisData |}.

Definition quick_request (analysisData : option AnalysisData) : Request :=
  {| url := lit "/ai-analyze"; method := POST;
     timeout_ms := None; body := JsonAnalysis analysisData |}.

Definition chat_request (question : jsstring)
    (analysisData : option AnalysisData) : Request :=
  {| url := lit "/ai-chat"; method := POST;
     timeout_ms := None; body := JsonChat question analysisData |}.

Definition ai_error (text : jsstring) : jsstring :=
  el "div" (cls "ai-error") (glyph_cross ++ lit " " ++ text).

Definition ai_loading (text : jsstring) : jsstring :=
  el "div" (cls "ai-loading")
    (el "div" (cls "spinner") [] ++ el "div" (cls "ai-loading-text") text).

(** [if (result.model) badge.textContent = result.model] *)
Definition show_model (m : JsVal) : Js unit :=
  if truthy m then update (with_model_badge (ToString m)) else ret tt.

(** ** runAIAnalysis (app.js, lines 789-829) *)

Definition runAIAnalysis (analysisData : option AnalysisData) : Js unit :=
  update (fun p =>
    with_buttons
      {| disabled := true;
         btn_html := el "span" (cls "btn-icon") glyph_hourglass ++ lit " Analyzing..." |}
      {| disabled := true; btn_html := btn_html (agentic_btn p) |} p) ;;;
  update (with_ai_analysis
    (ai_loading (lit "AI is analyzing your GC logs... This may take a minute."))) ;;;
  try_finally
    (try_catch
       (response <- fetch (quick_request analysisData) ;;
        result <- json response ;;
        err <- prop result error ;;
        if truthy err then
          update (with_ai_analysis (ai_error (escapeHtml err)))
        else
          text <- prop result analysis ;;
          update (with_ai_analysis (el "div" (cls "ai-result") (formatMarkdown text))) ;;;
          m <- prop result model ;;
          show_model m)
       (fun message =>
          update (with_ai_analysis
            (ai_error (lit "Failed to get AI analysis: " ++ escapeHtml (JStr message))))))
    (fun p =>
       with_buttons
         {| disabled := false;
            btn_html := el "span" (cls "btn-icon") glyph_sparkles ++ lit " Quick Analysis" |}
         {| disabled := false; btn_html := btn_html (agentic_btn p) |} p).

(** ** runAgenticAnalysis (app.js, lines 910-950) *)

Definition runAgenticAnalysis (analysisData : option AnalysisData) : Js unit :=
  update (fun p =>
    with_buttons
      {| disabled := true; btn_html := btn_html (quick_btn p) |}
      {| disabled := true;
         btn_html := el "span" (cls "btn-icon") glyph_hourglass ++ lit " Investigating..." |} p) ;;;
  update (with_ai_analysis
    (ai_loading
       (lit "Agent is autonomously investigating your GC issues...<br>" ++
        lit "This uses multiple analysis steps and may take a few minutes."))) ;;;
  try_finally
    (try_catch
       (response <- fetch (agentic_request analysisData) ;;
        result <- json response ;;
        err <- prop result error ;;
        if truthy err then
          update (with_ai_analysis (ai_error (escapeHtml err)))
        else
          html <- prop result displayAgenticResult ;;
          update (with_ai_analysis html) ;;;
          m <- prop result model ;;
          show_model m)
       (fun message =>
          update (with_ai_analysis
            (ai_error (lit "Failed to run agentic analysis: " ++
                       escapeHtml (JStr message))))))
    (fun p =>
       with_buttons
         {| disabled := false; btn_html := btn_html (quick_btn p) |}
         {| disabled := false;
            btn_html := el "span" (cls "btn-icon") glyph_microscope ++
                        lit " Agentic Triage" |} p).

(** ** autoStartAgenticAnalysis (app.js, lines 831-907)

    The messages written to the console are not part of the page. *)

Definition ai_tab_label (mark : jsstring) : jsstring :=
  glyph_robot ++ lit " AI Analysis" ++ mark.

Definition autoStartAgenticAnalysis (analysisData : option AnalysisData) : Js unit :=
  try_catch
    (healthCheck <- fetch health_request ;;
     if negb (resp_ok healthCheck) then ret tt
     else
       health <- json healthCheck ;;
       avail <- prop health available ;;
       if negb (truthy avail) then ret tt
       else
         update (with_ai_tab
           (ai_tab_label (lit " " ++ el "span" (cls "auto-analyzing") glyph_dot))) ;;;
         update (with_ai_analysis
           (el "div" (cls "ai-auto-start")
              (ai_loading
                 (glyph_microscope ++
                  lit " Agent is automatically investigating your GC logs...<br>" ++
                  el "small" [("style"%string, lit "color: var(--text-muted);")]
                    (lit "You can explore the charts while this runs"))))) ;;;
         response <- fetch (agentic_request analysisData) ;;
         result <- json response ;;
         update (with_ai_tab
           (ai_tab_label (lit " " ++ el "span" (cls "analysis-ready") glyph_check))) ;;;
         err <- prop result error ;;
         if truthy err then
           update (with_ai_analysis (ai_error (escapeHtml err)))
         else
           html <- prop result displayAgenticResult ;;
           update (with_ai_analysis html) ;;;
           m <- prop result model ;;
           show_model m)
    (fun _ => update (with_ai_tab (ai_tab_label []))).

(** ** sendChatMessage (app.js, lines 1050-1093) *)

(** [s.trim()] *)
Fixpoint trim_start (s : jsstring) : jsstring :=
  match s with
  | c :: rest => if is_js_whitespace c then trim_start rest else s
  | [] => []
  end.

Definition trim (s : jsstring) : jsstring :=
  rev (trim_start (rev (trim_start s))).

(** [loadingEl.className = c; loadingEl.innerHTML = html] on the first
    element with the given [id]; [None] when [getElementById] is [null]. *)
Fixpoint set_by_id (id : jsstring) (c : option jsstring) (html : jsstring)
    (msgs : list ChatMessage) : option (list ChatMessage) :=
  match msgs with
  | [] => None
  | m :: rest =>
      if bool_decide (msg_id m = Some id) then
        Some ({| msg_class := default (msg_class m) c;
                 msg_id := msg_id m; msg_html := html |} :: rest)
      else
        match set_by_id id c html rest with
        | Some rest' => Some (m :: rest')
        | None => None
        end
  end.

Definition set_loading (id : jsstring) (c : option jsstring) (html : jsstring)
  : Js unit :=
  fun p =>
    match set_by_id id c html (chat_messages p) with
    | Some msgs =>
        (Done tt, with_chat msgs (chat_input_value p) (chat_input_disabled p) p)
    | None => (Thrown typeErrorMessage, p)
    end.

(** [now] is the value of [Date.now()]. *)
Definition sendChatMessage (analysisData : option AnalysisData) (now : Z)
  : Js unit :=
  fun p0 =>
    let question := trim (chat_input_value p0) in
    if Nat.eqb (length question) 0 then (Done tt, p0)
    else
      let loadingId := lit "loading-" ++ string_of_Z now in
      (update (fun p =>
         with_chat
           (chat_messages p ++
            [{| msg_class := lit "ai-chat-message user"; msg_id := None;
                msg_html := escapeHtml (JStr question) |}] ++
            [{| msg_class := lit "ai-chat-message assistant";
                msg_id := Some loadingId; msg_html := lit "Thinking..." |}])
           [] true p) ;;;
       try_finally
         (try_catch
            (response <- fetch (chat_request question analysisData) ;;
             result <- json response ;;
             err <- prop result error ;;
             if truthy err then
               set_loading loadingId (Some (lit "ai-chat-message error")) (escapeHtml err)
             else
               text <- prop result answer ;;
               set_loading loadingId None (formatMarkdown text))
            (fun message =>
               set_loading loadingId (Some (lit "ai-chat-message error"))
                 (lit "Failed to get response: " ++ escapeHtml (JStr message))))
         (fun p => with_chat (chat_messages p) (chat_input_value p) false p)) p0.

(** ** displayResults (app.js, lines 106-134)

    The summary cards and the heap and timeline charts are not part of
    the model.  The pause chart reads [analysisData.events] without a
    default, so an analyze result without events ends the function with a
    [TypeError] before anything else is displayed.  The automatic
    analysis is started last. *)

Record Dashboard : Type := {
  dash_pause : ChartPage;
  dash_distribution : jsstring;
  dash_issues : jsstring;
  dash_events : jsstring
}.

Definition displayResults (clientWidth : Z) (data : AnalysisData) (z : Zoom)
  : Js Dashboard :=
  match events data with
  | None => throw typeErrorMessage
  | Some evs =>
      let dash :=
        {| dash_pause := displayResults_chart clientWidth evs z;
           dash_distribution := displayDistributionChart data;
           dash_issues := displayIssues data;
           dash_events := displayEventsTable data |} in
      autoStartAgenticAnalysis (Some data) ;;;
      ret dash
  end.

(** The requests that a run of [m] from the page [p] issues.  The log
    only grows, so these are the entries after those of [p]. *)
Definition issued {A : Type} (m : Js A) (p : Page) : list Request :=
  drop (length (requests p)) (requests (snd (m p))).

(** What the analysis container shows once the request of the quick
    analysis has settled: the reported error when the reply has a truthy
    [error], the analysis otherwise, and a failure message when the
    request or the reading of its reply failed. *)
Definition quick_outcome_html (o : FetchOutcome) : jsstring :=
  match o with
  | Fulfilled _ (ParsedObject reply) =>
      if truthy (error reply) then ai_error (escapeHtml (error reply))
      else el "div" (cls "ai-result") (formatMarkdown (analysis reply))
  | Fulfilled _ ParsedNull =>
      ai_error (lit "Failed to get AI analysis: " ++
                escapeHtml (JStr typeErrorMessage))
  | Fulfilled _ (Unreadable message) | Rejected message =>
      ai_error (lit "Failed to get AI analysis: " ++ escapeHtml (JStr message))
  end.

(** The same for the agentic analysis started by its button. *)
Definition agentic_outcome_html (o : FetchOutcome) : jsstring :=
  match o with
  | Fulfilled _ (ParsedObject reply) =>
      if truthy (error reply) then ai_error (escapeHtml (error reply))
      else displayAgenticResult reply
  | Fulfilled _ ParsedNull =>
      ai_error (lit "Failed to run agentic analysis: " ++
                escapeHtml (JStr typeErrorMessage))
  | Fulfilled _ (Unreadable message) | Rejected message =>
      ai_error (lit "Failed to run agentic analysis: " ++
                escapeHtml (JStr message))
  end.

(** What the element of the pending chat answer shows once the request
    has settled. *)
Definition chat_outcome_html (o : FetchOutcome) : jsstring :=
  match o with
  | Fulfilled _ (ParsedObject reply) =>
      if truthy (error reply) then escapeHtml (error reply)
      else formatMarkdown (answer reply)
  | Fulfilled _ ParsedNull =>
      lit "Failed to get response: " ++ escapeHtml (JStr typeErrorMessage)
  | Fulfilled _ (Unreadable message) | Rejected message =>
      lit "Failed to get response: " ++ escapeHtml (JStr message)
  end.

(** The health check was answered with a success status and a body that
    reports the backend as available. *)
Definition health_available : bool :=
  match net health_request with
  | Fulfilled true (ParsedObject r) => truthy (available r)
  | _ => false
  end.

End AiPanel.

(** ** The aggregator: pause distribution *)

Section Aggregator.

(** Whether a pause equal to a bucket boundary belongs to the bucket
    below it; the specification leaves the convention open. *)
Variable boundaryBelow : bool.








End Aggregator.


(** ** The agent controller (section 4.4 of the specification) *)

Module Controller.

(** Modelled from the spec: the states of the controller, which is not
    part of the front end. *)
Inductive Phase : Type := THINKING | ACTING | OBSERVING | DONE.

Record Action : Type := {
  tool_name : jsstring;
  arguments : JsVal
}.

(** Modelled from the spec: an [AgentStep] as section 3 gives it. *)
Record Step : Type := {
  step : nat;
  thought : jsstring;
  action : option Action;
  observation : option jsstring;
  is_final : bool
}.

(** What the model answers in one cycle: a final answer, the choice of a
    tool, or nothing because the backend failed or timed out. *)
Inductive LlmReply : Type :=
| FinalAnswer (thought answer : jsstring)
| UseTool (thought : jsstring) (a : Action)
| LlmFailed.

Record Machine : Type := {
  phase : Phase;
  trace : list Step;
  context : list jsstring;
  pending_thought : jsstring;
  pending_action : option Action;
  pending_observation : option jsstring;
  final_answer : option jsstring
}.

Section Run.

(** The model, as any function of the context it is shown. *)
Variable llm : list jsstring -> LlmReply.

(** The tool registry; an unknown tool or invalid arguments give the
    text of the dispatch error as observation. *)
Variable dispatch : Action -> jsstring.

(** The conclusion synthesized from the observations when no final
    answer was given. *)
Variable best_effort : list jsstring -> jsstring.

(** The step cap. *)
Variable N_max : nat.

Definition initial (input : jsstring) : Machine :=
  {| phase := THINKING; trace := []; context := [input];
     pending_thought := []; pending_action := None;
     pending_observation := None; final_answer := None |}.

Definition finish (m : Machine) (last : Step) (answer : jsstring) : Machine :=
  {| phase := DONE; trace := trace m ++ [last]; context := context m;
     pending_thought := []; pending_action := None;
     pending_observation := None; final_answer := Some answer |}.

(** Modelled from the spec: the controller of the agentic loop is not
    part of the front end.  One transition of the state machine
    [THINKING -> ACTING -> OBSERVING -> (THINKING | DONE)]: a final
    answer ends the run with a final step; a failed model call ends it
    with a best-effort conclusion; a tool call is dispatched and its
    observation recorded; the step that reaches [N_max] is recorded as
    final with a synthesized conclusion. *)
Definition transition (m : Machine) : Machine :=
  match phase m with
  | DONE => m
  | THINKING =>
      if Nat.leb N_max (length (trace m)) then
        {| phase := DONE; trace := trace m; context := context m;
           pending_thought := []; pending_action := None;
           pending_observation := None;
           final_answer := Some (best_effort (context m)) |}
      else
        match llm (context m) with
        | FinalAnswer th ans =>
            finish m {| step := S (length (trace m)); thought := th;
                        action := None; observation := None;
                        is_final := true |} ans
        | LlmFailed =>
            finish m {| step := S (length (trace m));
                        thought := best_effort (context m);
                        action := None; observation := None;
                        is_final := true |} (best_effort (context m))
        | UseTool th a =>
            {| phase := ACTING; trace := trace m; context := context m;
               pending_thought := th; pending_action := Some a;
               pending_observation := None; final_answer := None |}
        end
  | ACTING =>
      {| phase := OBSERVING; trace := trace m; context := context m;
         pending_thought := pending_thought m;
         pending_action := pending_action m;
         pending_observation :=
           match pending_action m with
           | Some a => Some (dispatch a)
           | None => None
           end;
         final_answer := None |}
  | OBSERVING =>
      let n := S (length (trace m)) in
      let ctx :=
        context m ++
        match pending_observation m with Some o => [o] | None => [] end in
      let last := Nat.leb N_max n in
      {| phase := if last then DONE else THINKING;
         trace := trace m ++
                  [{| step := n; thought := pending_thought m;
                      action := pending_action m;
                      observation := pending_observation m;
                      is_final := last |}];
         context := ctx;
         pending_thought := []; pending_action := None;
         pending_observation := None;
         final_answer := if last then Some (best_effort ctx) else None |}
  end.

Fixpoint run (fuel : nat) (m : Machine) : Machine :=
  match fuel with
  | O => m
  | S fuel' => run fuel' (transition m)
  end.

(** Modelled from the spec: an investigation is the run of the machine
    from its initial state; three transitions per step of the cap and
    one more are enough for it to end. *)
Definition investigate (input : jsstring) : Machine :=
  run (S (3 * N_max)) (initial input).

End Run.

(** A trace is well formed for the cap [N_max]: while the machine runs,
    it has fewer than [N_max] steps and none of them is final; when the
    machine is done, it has between 1 and [N_max] steps, the last one
    final and no other, and there is a conclusion. *)
Definition good (N_max : nat) (m : Machine) : Prop :=
  match phase m with
  | DONE =>
      exists (front : list Step) (last : Step),
        trace m = front ++ [last] /\
        (length (trace m) <= N_max)%nat /\
        is_final last = true /\
        Forall (fun s => is_final s = false) front /\
        exists answer : jsstring, final_answer m = Some answer
  | _ =>
      (length (trace m) < N_max)%nat /\
      Forall (fun s => is_final s = false) (trace m)
  end.

(** The number of transitions that the machine can still make. *)
Definition rank (N_max : nat) (m : Machine) : nat :=
  match phase m with
  | THINKING => 3 * (N_max - length (trace m))
  | ACTING => 3 * (N_max - length (trace m)) - 1
  | OBSERVING => 3 * (N_max - length (trace m)) - 2
  | DONE => 0
  end.

(** The run ended at the cap with a synthesized conclusion. *)
Definition capped (best_effort : list jsstring -> jsstring) (N_max : nat)
    (m : Machine) : Prop :=
  phase m = DONE ->
  length (trace m) = N_max /\
  final_answer m = Some (best_effort (context m)).

End Controller.

(** ** Text inside text *)

(** [part] occurs in [whole] as a contiguous run. *)
Definition occurs_in (part whole : jsstring) : Prop :=
  exists before after : jsstring, whole = before ++ part ++ after.

(** ** Sample data for the examples *)

(** A host that prints the integer part of a number; this is exact for
    the integers of the examples. *)
Definition sample_host : Host :=
  {| toFixed := fun q _ => string_of_Z (Qfloor q);
     numberToString := fun q => string_of_Z (Qfloor q);
     toLocaleString := fun n => string_of_Z (Z.of_N n);
     dateToLocaleTimeString := ToString;
     typeErrorMessage := lit "Cannot read properties of null" |}.

(** The reply [{}]. *)
Definition empty_reply : Reply :=
  {| available := JUndefined; error := JUndefined; analysis := JUndefined;
     answer := JUndefined; model := JUndefined; steps := None;
     total_steps := JUndefined; final_answer := JUndefined;
     recommendations := None; issues_found := None |}.

Definition blank_page : Page :=
  {| requests := []; ai_analysis := []; ai_model_badge := [];
     ai_tab := Some (ai_tab_label []);
     quick_btn := {| disabled := false; btn_html := [] |};
     agentic_btn := {| disabled := false; btn_html := [] |};
     chat_messages := []; chat_input_value := [];
     chat_input_disabled := false |}.

Definition reply_with_error (e : JsVal) : Reply :=
  {| available := JUndefined; error := e; analysis := JUndefined;
     answer := JUndefined; model := JUndefined; steps := None;
     total_steps := JUndefined; final_answer := JUndefined;
     recommendations := None; issues_found := None |}.

Definition reply_with_answer (a : JsVal) : Reply :=
  {| available := JUndefined; error := JUndefined; analysis := a;
     answer := a; model := JStr (lit "qwen2.5:14b"); steps := None;
     total_steps := JUndefined; final_answer := JUndefined;
     recommendations := None; issues_found := None |}.

Definition reply_with_steps (sts : list AgentStep) : Reply :=
  {| available := JUndefined; error := JUndefined; analysis := JUndefined;
     answer := JUndefined; model := JUndefined; steps := Some sts;
     total_steps := JNum (Z.of_nat (length sts)); final_answer := JUndefined;
     recommendations := None; issues_found := None |}.

Definition reply_available (b : bool) : Reply :=
  {| available := JBool b; error := JUndefined; analysis := JUndefined;
     answer := JUndefined; model := JUndefined; steps := None;
     total_steps := JUndefined; final_answer := JUndefined;
     recommendations := None; issues_found := None |}.

(** The action of a step as section 3 of the specification gives it. *)
Definition structured_action : JsVal :=
  JObj [(lit "tool_name", JStr (lit "get_long_pauses"));
        (lit "arguments", JObj [(lit "threshold_ms", JNum 100)])].

Definition step_with_action (a : JsVal) : AgentStep :=
  {| step := JNum 1; thought := JStr (lit "Check the long pauses");
     action := a; observation := JUndefined; is_final := JBool false |}.

(** A text with markup in it. *)
Definition markup_payload : jsstring := lit "<img src=x onerror=alert(1)>".

(** An event with the given pause and cause and nothing else. *)
Definition sample_event (pause : Q) (why : JsVal) : GcEvent :=
  {| gc_id := JUndefined; timestamp := JUndefined; uptime_seconds := None;
     pause_type := JStr (lit "Young"); gc_type := JUndefined; cause := why;
     pause_ms := Some pause; heap_before_mb := None; heap_after_mb := None;
     heap_total_mb := None; heap_reclaimed_mb := None; is_full_gc := false |}.

Definition sample_statistics : Statistics :=
  {| total_gc_events := None; full_gc_count := None; max_pause_ms := None;
     avg_pause_ms := None; throughput_percent := None; max_heap_mb := None;
     pause_distribution := None |}.

Definition sample_data (evs : list GcEvent) (found : list Issue) : AnalysisData :=
  {| collector_type := JStr (lit "G1"); events := Some evs;
     statistics := sample_statistics; summary_severity := lit "healthy";
     issues := Some found |}.

(** Eight pauses, two of them long. *)
Definition eight_pauses : list GcEvent :=
  map (fun p => sample_event (inject_Z p) JUndefined) [12; 650; 30; 8; 120; 45; 90; 700].

(** ** Further functions of [app.js] and notions for their properties *)

(** The window that [displayPauseChart] shows for the state [z]: the
    window of [z], or the full range when that window is empty. *)
Definition shown_window (allEvents : list GcEvent) (z : Zoom) : Z * Z :=
  let n := Z.of_nat (length allEvents) in
  let e := default n (endIndex z) in
  if startIndex z <? e then (startIndex z, e) else (0, n).

(** The character before the position after [pre] of a text, for a
    walk over the text that started after [prev]. *)
Definition before (prev : option N) (pre : jsstring) : option N :=
  match last pre with
  | Some c => Some c
  | None => prev
  end.

(** A line of text that [formatMarkdown] has nothing to rewrite in: it has
    no asterisk, no backquote and no line terminator, it does not begin
    with [#], [-] or a digit, and it is not blank. *)
Definition plain_line (s : jsstring) : Prop :=
  Forall (fun c => N_in c [42; 96; 10; 13; 8232; 8233]%N = false) s /\
  (forall c, head s = Some c ->
             N_in c [35; 45]%N = false /\ class_matches CDigit c = false) /\
  Exists (fun c => is_js_whitespace c = false) s.

(** The [mousemove] handler of [setupPauseChartInteraction] (app.js, lines
    328-340): the [x] and [width] attributes that it gives the selection
    rectangle; [None] when no drag is in progress and nothing is set. *)
Definition on_mousemove (h : Interaction) (x : Q) (z : Zoom) : option (Q * Q) :=
  if negb (isDragging z) then None
  else
    let lo := inject_Z padding_left in
    let hi := inject_Z (padding_left + cap_chartWidth h) in
    let x := Qmax lo (Qmin x hi) in
    let startX := default 0%Q (dragStartX z) in
    let left := Qmin x startX in
    let width := Qabs (x - startX) in
    Some (left, width).

(** The order of the badge classes, from the shortest pauses to the
    longest. *)
Definition badge_rank (c : jsstring) : nat :=
  if decide (c = lit "fast") then 0
  else if decide (c = lit "normal") then 1
  else if decide (c = lit "slow") then 2
  else 3.

(** ** The bars of the pause chart (app.js, lines 206-212, 268-289) *)

Definition padding_top : Z := 20.
Definition pause_chartHeight : Z := 300 - 20 - 60.

(** [Math.max(...xs)] for numbers; [None] is the [-Infinity] of an empty
    argument list. *)
Definition math_max (xs : list Q) : option Q :=
  match xs with
  | [] => None
  | x :: rest => Some (foldl Qmax x rest)
  end.

(** [event.pause_ms] in the arithmetic of the chart.  The events of the
    chart passed the filter [e.pause_ms > 0], so the measurement is
    there. *)
Definition pause_of (e : GcEvent) : Q := default 0%Q (pause_ms e).

Definition pause_color (event : GcEvent) : jsstring :=
  let color :=
    if num_gt (pause_ms event) 500 then lit "#f85149"
    else if num_gt (pause_ms event) 200 then lit "#d29922"
    else if num_gt (pause_ms event) 50 then lit "#58a6ff"
    else lit "#3fb950" in
  if is_full_gc event then lit "#f85149" else color.

(** The attributes of one [rect] of the chart. *)
Record PauseBar : Type := {
  pb_x : Q;
  pb_y : Q;
  pb_width : Q;
  pb_height : Q;
  pb_fill : jsstring;
  pb_index : Z              (* [data-index] *)
}.

(** The bars that [displayPauseChart] draws for the visible [events].
    The result is [None] when a quotient has a zero divisor (no events,
    or a largest pause of 0): it is then not a number of the model. *)
Definition pause_bars (clientWidth startIdx : Z) (events : list GcEvent)
  : option (list PauseBar) :=
  let chartWidth := inject_Z (clientWidth - padding_left - padding_right) in
  let chartHeight := inject_Z pause_chartHeight in
  let len := inject_Z (Z.of_nat (length events)) in
  match math_max (map pause_of events) with
  | None => None
  | Some maxPause =>
      if Qeq_bool maxPause 0 then None
      else
        let barWidth := Qmax 2 (Qmin 12 (chartWidth / len - 1)) in
        Some (imap (fun i event =>
                let x := (inject_Z padding_left +
                          (chartWidth / len) * inject_Z (Z.of_nat i) +
                          (chartWidth / len - barWidth) / 2)%Q in
                let barHeight := ((pause_of event / maxPause) * chartHeight)%Q in
                let y := (inject_Z padding_top + chartHeight - barHeight)%Q in
                {| pb_x := x; pb_y := y; pb_width := barWidth;
                   pb_height := barHeight; pb_fill := pause_color event;
                   pb_index := startIdx + Z.of_nat i |})
              events)
  end.

(** ** The lines of the heap chart (app.js, lines 413-462) *)

(** [analysisData.events.filter(e => e.heap_total_mb > 0)] *)
Definition heap_events (evs : list GcEvent) : list GcEvent :=
  filter (fun e => num_gt (heap_total_mb e) 0 = true) evs.

Definition heap_chartHeight : Z := 250 - 20 - 40.

(** [event.heap_total_mb] in the arithmetic of the chart; the events of
    the chart passed the filter [e.heap_total_mb > 0]. *)
Definition heap_total_of (e : GcEvent) : Q := default 0%Q (heap_total_mb e).

(** One point of the three paths: its [x] and the [y] of the heap before
    and after the collection and of the total heap.  The [y] of a
    measurement that the event does not have is [None]: it is then the
    base line for [null] and no number for [undefined]. *)
Record HeapPoint : Type := {
  hp_x : Q;
  hp_yBefore : option Q;
  hp_yAfter : option Q;
  hp_yTotal : option Q
}.

(** The content of the heap chart container. *)
Inductive HeapView : Type :=
| NoHeapData
| HeapChart (points : list HeapPoint).

(** [displayHeapChart()] for the container width [clientWidth]; [None]
    when the largest total heap is 0, which divides by zero. *)
Definition displayHeapChart (clientWidth : Z) (evs : list GcEvent)
  : option HeapView :=
  let events := heap_events evs in
  if Nat.eqb (length events) 0 then Some NoHeapData
  else
    let chartWidth := inject_Z (clientWidth - padding_left - padding_right) in
    let chartHeight := inject_Z heap_chartHeight in
    match math_max (map heap_total_of events) with
    | None => None
    | Some maxHeap =>
        if Qeq_bool maxHeap 0 then None
        else
          let divisor :=
            if Z.of_nat (length events) - 1 =? 0 then 1
            else Z.of_nat (length events) - 1 in
          let y (m : option Q) : option Q :=
            match m with
            | Some v => Some (inject_Z padding_top + chartHeight -
                              (v / maxHeap) * chartHeight)%Q
            | None => None
            end in
          Some (HeapChart
                  (imap (fun i event =>
                           {| hp_x := (inject_Z padding_left +
                                       (chartWidth / inject_Z divisor) *
                                       inject_Z (Z.of_nat i))%Q;
                              hp_yBefore := y (heap_before_mb event);
                              hp_yAfter := y (heap_after_mb event);
                              hp_yTotal := y (heap_total_mb event) |})
                        events))
    end.

(** Three collections with heap measurements; the heap grows from 512
    to 1024 MB. *)
Definition heap_sample (pause before after total : Z) : GcEvent :=
  {| gc_id := JUndefined; timestamp := JUndefined; uptime_seconds := None;
     pause_type := JStr (lit "Young"); gc_type := JUndefined;
     cause := JUndefined;
     pause_ms := Some (inject_Z pause);
     heap_before_mb := Some (inject_Z before);
     heap_after_mb := Some (inject_Z after);
     heap_total_mb := Some (inject_Z total);
     heap_reclaimed_mb := Some (inject_Z (before - after));
     is_full_gc := false |}.

Definition three_heaps : list GcEvent :=
  [heap_sample 12 400 150 512; heap_sample 30 500 210 512;
   heap_sample 650 900 300 1024].

(** ** The marks of the timeline (app.js, lines 484-521, 560-577) *)

Definition timeline_left : Z := 80.
Definition timeline_right : Z := 30.
Definition timeline_top : Z := 30.
Definition timeline_chartHeight : Z := 380 - 30 - 80.

(** [Math.min(...xs)] for numbers; [None] is the [Infinity] of an empty
    argument list. *)
Definition math_min (xs : list Q) : option Q :=
  match xs with
  | [] => None
  | x :: rest => Some (foldl Qmin x rest)
  end.

(** All members of a list of optional values, if none is missing. *)
Fixpoint all_some {A : Type} (xs : list (option A)) : option (list A) :=
  match xs with
  | [] => Some []
  | Some x :: rest =>
      match all_some rest with
      | Some l => Some (x :: l)
      | None => None
      end
  | None :: _ => None
  end.

(** One mark of the timeline: the foot of its stem is at [tm_x] on the
    base line, its circle at ([tm_x], [tm_y]). *)
Record TimelineMark : Type := {
  tm_x : Q;
  tm_y : Q;
  tm_radius : Z;
  tm_fill : jsstring
}.

(** The content of the timeline container. *)
Inductive TimelineView : Type :=
| NoTimelineEvents
| TimelineChart (label : jsstring) (marks : list TimelineMark).

Section Timeline.

(** [new Date(v).getTime()]; [None] when the date is invalid. *)
Variable getTime : JsVal -> option Q.

(** The time values of the events: the timestamps when an event has
    one, else the uptimes when an event has one, else the indices.
    [None] when a timestamp gives no number. *)
Definition timeValues (events : list GcEvent) : option (list Q) :=
  let hasTimestamps := existsb (fun e => truthy (timestamp e)) events in
  let hasUptime :=
    existsb (fun e => match uptime_seconds e with Some _ => true | None => false end)
            events in
  if hasTimestamps then all_some (map (fun e => getTime (timestamp e)) events)
  else if hasUptime then
    Some (map (fun e => default 0%Q (uptime_seconds e)) events)
  else Some (imap (fun i _ => inject_Z (Z.of_nat i)) events).

(** The label of the time axis. *)
Definition timeLabel (events : list GcEvent) : jsstring :=
  if existsb (fun e => truthy (timestamp e)) events then lit "Time"
  else if existsb (fun e => match uptime_seconds e with
                            | Some _ => true
                            | None => false
                            end) events
       then lit "Uptime"
       else lit "Event #".

(** [displayTimelineChart()] for the container width [clientWidth]: the
    marks of the events with a pause and the label of the time axis.
    The result is [None] when a time is no number or the largest pause
    is 0. *)
Definition displayTimelineChart (clientWidth : Z) (evs : list GcEvent)
  : option TimelineView :=
  let events := pause_events evs in
  if Nat.eqb (length events) 0 then Some NoTimelineEvents
  else
    let chartWidth :=
      inject_Z (clientWidth - timeline_left - timeline_right) in
    let chartHeight := inject_Z timeline_chartHeight in
    match timeValues events with
    | None => None
    | Some times =>
        match math_min times, math_max times, math_max (map pause_of events) with
        | Some minTime, Some maxTime, Some maxPause =>
            if Qeq_bool maxPause 0 then None
            else
              let timeRange :=
                if Qeq_bool (maxTime - minTime) 0 then 1%Q
                else (maxTime - minTime)%Q in
              Some (TimelineChart (timeLabel events)
                      (map (fun te =>
                         let x := (inject_Z timeline_left +
                                   ((fst te - minTime) / timeRange) * chartWidth)%Q in
                         let barHeight :=
                           ((pause_of (snd te) / maxPause) * chartHeight)%Q in
                         let y := (inject_Z timeline_top + chartHeight -
                                   barHeight)%Q in
                         {| tm_x := x; tm_y := y;
                            tm_radius := if is_full_gc (snd te) then 6 else 4;
                            tm_fill := pause_color (snd te) |})
                       (zip times events)))
        | _, _, _ => None
        end
    end.

End Timeline.

Section FrontEndMore.

Context `{host : Host}.

(** ** formatUptime (app.js, lines 405-411) *)

(** [a % b]: the remainder of the division that truncates its quotient,
    so its sign is that of [a]. *)
Definition js_rem (a b : Q) : Q :=
  let q := (a / b)%Q in
  let t := if Qle_bool 0 q then Qfloor q else Qceiling q in
  (a - b * inject_Z t)%Q.

Definition formatUptime (seconds : Q) : jsstring :=
  if negb (Qle_bool 60 seconds) then toFixed seconds 1 ++ lit "s"
  else if negb (Qle_bool 3600 seconds) then
    numberToString (inject_Z (Qfloor (seconds / 60))) ++ lit "m " ++
    numberToString (inject_Z (Qfloor (js_rem seconds 60))) ++ lit "s"
  else
    let hours := Qfloor (seconds / 3600) in
    let mins := Qfloor (js_rem seconds 3600 / 60) in
    numberToString (inject_Z hours) ++ lit "h " ++
    numberToString (inject_Z mins) ++ lit "m".

(** ** filterEvents (app.js, lines 762-787) *)



(** [parseFloat]; [None] when the text does not start with a number. *)
Variable parseFloat : jsstring -> option Q.


End FrontEndMore.

(** ** Uploading (app.js, lines 79-104 and 1095-1109) *)

(** What [fetch('/analyze')] and [response.json()] give.  The JSON of an
    answer is an analyze result or the value [null]. *)
Inductive AnalyzeParsed : Type :=
| AnalyzeUnreadable (message : jsstring)
| AnalyzeNull
| AnalyzeResult (data : AnalysisData).

Inductive AnalyzeOutcome : Type :=
| AnalyzeRejected (message : jsstring)
| AnalyzeFulfilled (ok : bool) (json : AnalyzeParsed).

(** The page with the upload section and the globals of the script.
    A file is kept as its text. *)
Record App : Type := {
  app_page : Page;
  app_data : option AnalysisData;    (* [analysisData] *)
  app_zoom : Zoom;                   (* [pauseChartZoom] *)
  app_upload_display : jsstring;     (* [#upload-section].style.display *)
  app_loading : bool;                (* [#loading] has the class [active] *)
  app_results : bool;                (* [#results] has the class [active] *)
  app_file_input : jsstring;         (* [#file-input].value *)
  app_alerts : list jsstring;        (* the calls of [alert], oldest first *)
  app_uploads : list (list jsstring);(* the bodies posted to [/analyze] *)
  app_dashboard : option Dashboard   (* what [displayResults] displayed *)
}.

Definition resetAnalysis (a : App) : App :=
  {| app_page := app_page a; app_data := None; app_zoom := zoom_initial;
     app_upload_display := lit "block"; app_loading := app_loading a;
     app_results := false; app_file_input := [];
     app_alerts := app_alerts a; app_uploads := app_uploads a;
     app_dashboard := app_dashboard a |}.

Section Upload.

Context `{host : Host}.
Variable net : Request -> FetchOutcome.
Variable analyze : list jsstring -> AnalyzeOutcome.

(** The [catch] block of [handleFiles]. *)
Definition upload_failed (message : jsstring) (a : App) : App :=
  resetAnalysis
    {| app_page := app_page a; app_data := app_data a; app_zoom := app_zoom a;
       app_upload_display := app_upload_display a; app_loading := app_loading a;
       app_results := app_results a; app_file_input := app_file_input a;
       app_alerts := app_alerts a ++ [lit "Error analyzing GC logs: " ++ message];
       app_uploads := app_uploads a; app_dashboard := app_dashboard a |}.

(** [handleFiles(files)], with the container width of the pause chart. *)
Definition handleFiles (clientWidth : Z) (files : list jsstring) (a : App) : App :=
  if Nat.eqb (length files) 0 then a
  else
    let a1 :=
      {| app_page := app_page a; app_data := app_data a; app_zoom := app_zoom a;
         app_upload_display := lit "none"; app_loading := true;
         app_results := app_results a; app_file_input := app_file_input a;
         app_alerts := app_alerts a; app_uploads := app_uploads a ++ [files];
         app_dashboard := app_dashboard a |} in
    match analyze files with
    | AnalyzeRejected message => upload_failed message a1
    | AnalyzeFulfilled false _ => upload_failed (lit "Analysis failed") a1
    | AnalyzeFulfilled true (AnalyzeUnreadable message) => upload_failed message a1
    | AnalyzeFulfilled true json =>
        let data := match json with AnalyzeResult d => Some d | _ => None end in
        (* displayResults *)
        let a2 :=
          {| app_page := app_page a1; app_data := data; app_zoom := app_zoom a1;
             app_upload_display := app_upload_display a1; app_loading := false;
             app_results := true; app_file_input := app_file_input a1;
             app_alerts := app_alerts a1; app_uploads := app_uploads a1;
             app_dashboard := app_dashboard a1 |} in
        match data with
        | None => upload_failed typeErrorMessage a2
        | Some d =>
            match displayResults net clientWidth d (app_zoom a2) (app_page a2) with
            | (Done dash, p) =>
                {| app_page := p; app_data := data;
                   app_zoom := pg_zoom (dash_pause dash);
                   app_upload_display := app_upload_display a2;
                   app_loading := false; app_results := true;
                   app_file_input := app_file_input a2;
                   app_alerts := app_alerts a2; app_uploads := app_uploads a2;
                   app_dashboard := Some dash |}
            | (Thrown message, p) =>
                upload_failed message
                  {| app_page := p; app_data := data;
                     app_zoom := {| startIndex := 0; endIndex := None;
                                    isDragging := isDragging (app_zoom a2);
                                    dragStartX := dragStartX (app_zoom a2) |};
                     app_upload_display := app_upload_display a2;
                     app_loading := false; app_results := true;
                     app_file_input := app_file_input a2;
                     app_alerts := app_alerts a2; app_uploads := app_uploads a2;
                     app_dashboard := app_dashboard a2 |}
            end
        end
    end.

End Upload.


(* ===================================================================== *)
(** * Part II. Properties                                                 *)
(* ===================================================================== *)

(** ** Lists and slices *)

Lemma js_slice_prefix {A : Type} (l : list A) (k : nat) :
  js_slice l 0 (Z.of_nat k) = take k l.
Proof.
  unfold js_slice. simpl (0 <? 0).
  replace (Z.of_nat k <? 0) with false by (symmetry; apply Z.ltb_ge; lia).
  replace (Z.min 0 (Z.of_nat (length l))) with 0 by lia.
  rewrite Z.sub_0_r. simpl (Z.to_nat 0). rewrite drop_0.
  destruct (Nat.le_ge_cases k (length l)) as [Hk|Hk].
  - rewrite Z.min_l by lia. now rewrite Nat2Z.id.
  - rewrite Z.min_r by lia. rewrite Nat2Z.id.
    rewrite !take_ge by lia. reflexivity.
Qed.

Lemma js_slice_range {A : Type} (l : list A) (a b : Z) :
  0 <= a -> a <= b -> b <= Z.of_nat (length l) ->
  js_slice l a b = take (Z.to_nat (b - a)) (drop (Z.to_nat a) l).
Proof.
  intros Ha Hab Hb. unfold js_slice.
  replace (a <? 0) with false by (symmetry; apply Z.ltb_ge; lia).
  replace (b <? 0) with false by (symmetry; apply Z.ltb_ge; lia).
  rewrite !Z.min_l by lia. reflexivity.
Qed.

Lemma js_slice_range_length {A : Type} (l : list A) (a b : Z) :
  0 <= a -> a <= b -> b <= Z.of_nat (length l) ->
  Z.of_nat (length (js_slice l a b)) = b - a.
Proof.
  intros Ha Hab Hb. rewrite js_slice_range by assumption.
  rewrite length_take, length_drop. lia.
Qed.

Lemma displayEvents_take (evs : list GcEvent) :
  displayEvents evs = take 500 evs.
Proof. unfold displayEvents. apply (js_slice_prefix evs 500). Qed.

(** ** The events table *)


(** ** The pause distribution *)







(** ** The pause chart *)

Lemma displayPauseChart_eq (w : Z) (allEvents : list GcEvent) (z : Zoom) :
  displayPauseChart w allEvents z =
    if Nat.eqb (length allEvents) 0 then (z, NoPauseData)
    else
      let z1 := init_endIndex allEvents z in
      if Nat.eqb (length (visible_events allEvents z1)) 0 then
        displayPauseChart w allEvents
          (set_range z1 0 (Z.of_nat (length allEvents)))
      else
        (z1, PauseChart (visible_startIdx z1) (visible_endIdx allEvents z1)
               (visible_events allEvents z1)
               ((0 <? visible_startIdx z1) ||
                (visible_endIdx allEvents z1 <? Z.of_nat (length allEvents)))
               (setupPauseChartInteraction allEvents
                  (w - padding_left - padding_right) z1)).
Proof.
  funelim (displayPauseChart w allEvents z).
  - now rewrite e.
  - now rewrite Hlen, Hvis.
  - now rewrite Hlen, e.
Qed.

Lemma visible_full (allEvents : list GcEvent) (z : Zoom) :
  visible_events allEvents (set_range z 0 (Z.of_nat (length allEvents))) = allEvents.
Proof.
  unfold visible_events, visible_startIdx, visible_endIdx. simpl.
  rewrite Z.max_id, Z.min_id.
  rewrite (js_slice_prefix allEvents (length allEvents)).
  apply firstn_all.
Qed.

(** The chart of a non-empty data set whose visible slice is empty. *)
Lemma displayPauseChart_empty_slice (w : Z) (allEvents : list GcEvent) (z : Zoom) :
  allEvents <> [] ->
  visible_events allEvents (init_endIndex allEvents z) = [] ->
  let n := Z.of_nat (length allEvents) in
  let full := set_range (init_endIndex allEvents z) 0 n in
  displayPauseChart w allEvents z =
    (full, PauseChart 0 n allEvents false
             (setupPauseChartInteraction allEvents
                (w - padding_left - padding_right) full)).
Proof.
  intros Hne Hvis n full.
  assert (Hlen : Nat.eqb (length allEvents) 0 = false).
  { destruct allEvents; [contradiction|reflexivity]. }
  rewrite displayPauseChart_eq, Hlen. cbv zeta. rewrite Hvis. simpl (Nat.eqb _ _).
  cbv iota. fold n. fold full.
  rewrite displayPauseChart_eq, Hlen. cbv zeta.
  assert (Hinit : init_endIndex allEvents full = full) by reflexivity.
  assert (Hvf : visible_events allEvents full = allEvents) by apply visible_full.
  rewrite Hinit, !Hvf, Hlen.
  unfold visible_startIdx, visible_endIdx. simpl.
  rewrite Z.max_id, Z.min_id. fold n. rewrite Z.ltb_irrefl. reflexivity.
Qed.

Section ZoomInvariant.

Variable w : Z.
Variable allEvents : list GcEvent.

Let n : Z := Z.of_nat (length allEvents).
Let cw : Z := w - padding_left - padding_right.

Lemma drag_ok_range (z : Zoom) (s e : Z) :
  drag_ok w z -> drag_ok w (set_range z s e).
Proof. intros H. exact H. Qed.

Lemma init_endIndex_ok (z : Zoom) :
  zoom_ok n z -> zoom_ok n (init_endIndex allEvents z).
Proof.
  unfold zoom_ok, init_endIndex. destruct (endIndex z) eqn:E; simpl.
  - rewrite E. tauto.
  - intros ->. subst n. lia.
Qed.

Lemma init_endIndex_some (z : Zoom) :
  exists e, endIndex (init_endIndex allEvents z) = Some e.
Proof.
  unfold init_endIndex. destruct (endIndex z) eqn:E; simpl; eauto.
Qed.

Lemma display_page_ok (z : Zoom) :
  zoom_ok n z -> drag_ok w z ->
  page_ok w allEvents (page_of (displayPauseChart w allEvents z)).
Proof.
  intros Hz Hd.
  destruct (Nat.eqb (length allEvents) 0) eqn:Hlen.
  - rewrite displayPauseChart_eq, Hlen. repeat split; assumption.
  - destruct (Nat.eqb (length (visible_events allEvents (init_endIndex allEvents z))) 0)
      eqn:Hvis.
    + apply Nat.eqb_eq, nil_length_inv in Hvis.
      rewrite displayPauseChart_empty_slice;
        [|intros ->; discriminate|exact Hvis].
      split; [|split].
      * unfold zoom_ok. simpl. lia.
      * simpl. unfold init_endIndex. destruct (endIndex z); exact Hd.
      * simpl. split; [eauto|reflexivity].
    + rewrite displayPauseChart_eq, Hlen. cbv zeta. rewrite Hvis.
      split; [|split].
      * apply init_endIndex_ok, Hz.
      * unfold init_endIndex. destruct (endIndex z); exact Hd.
      * simpl. split; [apply init_endIndex_some|reflexivity].
Qed.

Lemma zoomPauseChart_ok (action : jsstring) (z : Zoom) :
  zoom_ok n z -> drag_ok w z ->
  page_ok w allEvents (page_of (zoomPauseChart w allEvents action z)).
Proof.
  intros Hz Hd. unfold zoomPauseChart. apply display_page_ok.
  - fold n. unfold zoom_ok in *.
    set (ce := match endIndex z with
               | Some e => if e =? 0 then n else e
               | None => n
               end).
    assert (Hce : 0 <= startIndex z /\ startIndex z <= ce /\ ce <= n).
    { subst ce. destruct (endIndex z) as [e|].
      - destruct (Z.eqb_spec e 0); subst n; lia.
      - subst n; lia. }
    pose proof (Nat2Z.is_nonneg (length allEvents)) as Hn. fold n in Hn.
    repeat case_decide; simpl.
    + pose proof (Z.div_pos (ce - startIndex z) 4 ltac:(lia) ltac:(lia)).
      pose proof (Z.mul_div_le (ce - startIndex z) 4 ltac:(lia)). lia.
    + pose proof (Z.div_pos (ce - startIndex z) 2 ltac:(lia) ltac:(lia)). lia.
    + lia.
    + exact Hz.
  - repeat case_decide; exact Hd.
Qed.

Lemma selection_indices (m : Z) (x0 endX : Q) :
  0 < cw -> 0 <= m ->
  (inject_Z padding_left <= x0)%Q -> (x0 <= inject_Z (padding_left + cw))%Q ->
  (inject_Z padding_left <= endX)%Q -> (endX <= inject_Z (padding_left + cw))%Q ->
  let leftX := (Qmin x0 endX - inject_Z padding_left)%Q in
  let rightX := (Qmax x0 endX - inject_Z padding_left)%Q in
  let leftIdx := Qfloor ((leftX / inject_Z cw) * inject_Z m) in
  let rightIdx := Qceiling ((rightX / inject_Z cw) * inject_Z m) in
  0 <= leftIdx /\ leftIdx <= m /\ leftIdx <= rightIdx.
Proof.
  intros Hcw Hm H1 H2 H3 H4 leftX rightX leftIdx rightIdx.
  rewrite inject_Z_plus in H2, H4.
  assert (Hcw' : (inject_Z 0 < inject_Z cw)%Q) by (rewrite <- Zlt_Qlt; exact Hcw).
  assert (Hm' : (inject_Z 0 <= inject_Z m)%Q) by (rewrite <- Zle_Qle; exact Hm).
  change (inject_Z 0) with 0%Q in Hcw', Hm'.
  assert (Hl0 : (0 <= leftX)%Q).
  { subst leftX. apply (Qplus_le_r _ _ (inject_Z padding_left)).
    ring_simplify. apply Q.min_glb; assumption. }
  assert (Hlr : (leftX <= rightX)%Q).
  { subst leftX rightX. apply Qplus_le_l.
    eapply Qle_trans; [apply Q.le_min_l | apply Q.le_max_l]. }
  assert (Hrc : (rightX <= inject_Z cw)%Q).
  { subst rightX. apply (Qplus_le_r _ _ (inject_Z padding_left)).
    ring_simplify. apply Q.max_lub; assumption. }
  assert (Ha0 : (0 <= leftX / inject_Z cw * inject_Z m)%Q).
  { apply Qmult_le_0_compat; [|exact Hm'].
    apply Qle_shift_div_l; [exact Hcw'|]. now rewrite Qmult_0_l. }
  assert (Ham : (leftX / inject_Z cw * inject_Z m <= inject_Z m)%Q).
  { rewrite <- (Qmult_1_l (inject_Z m)) at 2.
    apply Qmult_le_compat_r; [|exact Hm'].
    apply Qle_shift_div_r; [exact Hcw'|]. rewrite Qmult_1_l.
    eapply Qle_trans; eassumption. }
  assert (Hab : (leftX / inject_Z cw * inject_Z m <=
                 rightX / inject_Z cw * inject_Z m)%Q).
  { apply Qmult_le_compat_r; [|exact Hm'].
    unfold Qdiv. apply Qmult_le_compat_r; [exact Hlr|].
    apply Qinv_le_0_compat. now apply Qlt_le_weak. }
  split; [|split].
  - subst leftIdx. change 0 with (Qfloor 0). now apply Qfloor_resp_le.
  - subst leftIdx. rewrite <- (Qfloor_Z m) at 2. now apply Qfloor_resp_le.
  - subst leftIdx rightIdx. rewrite Zle_Qle.
    eapply Qle_trans; [apply Qfloor_le|].
    eapply Qle_trans; [exact Hab|apply Qle_ceiling].
Qed.

Lemma on_mouseup_ok (h : Interaction) (x : Q) (pg : ChartPage) :
  page_ok w allEvents pg ->
  h = setupPauseChartInteraction allEvents cw (pg_zoom pg) ->
  (exists e, endIndex (pg_zoom pg) = Some e) ->
  exists pg', on_mouseup w allEvents h x pg = Some pg' /\ page_ok w allEvents pg'.
Proof.
  intros (Hz & Hd & Hv) Hh [e He]. unfold on_mouseup.
  destruct (isDragging (pg_zoom pg)) eqn:Hdrag; cbn [negb].
  2:{ exists pg. split; [reflexivity|]. repeat split; assumption. }
  destruct (Hd Hdrag) as (x0 & Hx0 & Hlo & Hhi). fold cw in Hhi.
  assert (Hstop : page_ok w allEvents
            {| pg_zoom := stop_dragging (pg_zoom pg); pg_view := pg_view pg |}).
  { split; [exact Hz|]. split; [intros Hcontra; discriminate|exact Hv]. }
  assert (Hcap : cap_chartWidth h = cw) by (subst h; reflexivity).
  rewrite Hcap, Hx0. change (default 0%Q (Some x0)) with x0.
  set (lo := inject_Z padding_left) in *.
  set (hi := inject_Z (padding_left + cw)) in *.
  set (endX := Qmax lo (Qmin x hi)) in *.
  destruct (Qle_bool 10 (Qabs (endX - x0))) eqn:Hsel; cbn [negb].
  2:{ eexists. split; [reflexivity|exact Hstop]. }
  assert (Hlohi : (lo <= hi)%Q) by (eapply Qle_trans; eassumption).
  assert (HeL : (lo <= endX)%Q) by apply Q.le_max_l.
  assert (HeH : (endX <= hi)%Q).
  { apply Q.max_lub; [exact Hlohi|apply Q.le_min_r]. }
  apply Qle_bool_iff in Hsel.
  assert (Hhi' : (hi == lo + inject_Z cw)%Q).
  { unfold hi, lo. rewrite inject_Z_plus. reflexivity. }
  assert (Hwide : (10 <= inject_Z cw)%Q).
  { eapply Qle_trans; [exact Hsel|].
    apply Qabs_Qle_condition.
    revert Hlo Hhi HeL HeH Hhi'. generalize lo, hi, endX, (inject_Z cw).
    intros; lra. }
  assert (Hcwpos : 0 < cw).
  { rewrite Zlt_Qlt. eapply Qlt_le_trans; [|exact Hwide]. reflexivity. }
  replace (cw =? 0) with false by (symmetry; apply Z.eqb_neq; lia).
  unfold zoom_ok in Hz. rewrite He in Hz. destruct Hz as (Hs0 & Hse & Hen).
  assert (Hvislen : Z.of_nat (length (cap_visibleEvents h)) = e - startIndex (pg_zoom pg)).
  { subst h. unfold setupPauseChartInteraction. simpl. rewrite He. simpl.
    apply js_slice_range_length; subst n; lia. }
  assert (Hstart : cap_startIdx h = startIndex (pg_zoom pg)) by (subst h; reflexivity).
  pose proof (selection_indices (Z.of_nat (length (cap_visibleEvents h))) x0 endX
                Hcwpos ltac:(lia) Hlo Hhi HeL HeH) as Hidx.
  cbv zeta in Hidx. fold lo in Hidx. destruct Hidx as (Hi0 & Him & Hir).
  eexists. split; [reflexivity|].
  apply display_page_ok.
  - unfold zoom_ok, set_range. cbn [endIndex startIndex].
    rewrite Hstart. unfold n. lia.
  - intros Hcontra. discriminate.
Qed.

(** C9.  (1) Every event on the pause chart (a zoom button with any
    action, the mouse events of a drag selection, showing the tab again)
    takes a page that satisfies the invariant to a page that satisfies
    it: [0 <= startIndex <= endIndex <= n] once [endIndex] is set, where
    [n] is the number of events with a positive pause.  (2) After
    "reset" the range is the full range [0, n].  (3) When the data set is
    not empty and the visible slice is empty, displaying the chart sets
    the full range and shows all events.  (4) The page that
    [displayResults] builds for new data satisfies the invariant. *)
Theorem zoom_range_invariant :
  (forall (pg : ChartPage) (ev : ChartEvent),
     page_ok w allEvents pg ->
     exists pg', chart_step w allEvents pg ev = Some pg' /\
                 page_ok w allEvents pg') /\
  (forall z : Zoom,
     let z' := fst (zoomPauseChart w allEvents (lit "reset") z) in
     startIndex z' = 0 /\ endIndex z' = Some (Z.of_nat (length allEvents))) /\
  (forall z : Zoom,
     allEvents <> [] ->
     visible_events allEvents (init_endIndex allEvents z) = [] ->
     exists h,
       displayPauseChart w allEvents z =
         (set_range (init_endIndex allEvents z) 0 (Z.of_nat (length allEvents)),
          PauseChart 0 (Z.of_nat (length allEvents)) allEvents false h)) /\
  (forall (evs : list GcEvent) (z : Zoom),
     allEvents = pause_events evs ->
     drag_ok w z ->
     page_ok w allEvents (displayResults_chart w evs z)).
Proof.
  split; [|split; [|split]].
  - intros pg ev Hok. pose proof Hok as (Hz & Hd & Hv).
    destruct ev as [action|x|x|x| |]; simpl.
    + eexists. split; [reflexivity|]. now apply zoomPauseChart_ok.
    + destruct (pg_view pg) as [|a b c d h] eqn:Hview.
      * eexists. split; [reflexivity|exact Hok].
      * eexists. split; [reflexivity|].
        unfold page_ok. cbn [pg_zoom pg_view].
        destruct Hv as [Hsome Hh].
        unfold on_mousedown.
        destruct (Qle_bool (inject_Z padding_left) x &&
                  Qle_bool x (inject_Z (padding_left + cap_chartWidth h))) eqn:Hin.
        -- split; [exact Hz|]. split; [|split; [exact Hsome|exact Hh]].
           intros _. exists x. apply andb_prop in Hin as [Hl Hr].
           apply Qle_bool_iff in Hl, Hr. subst h. simpl in Hr.
           split; [reflexivity|]. split; assumption.
        -- split; [exact Hz|]. split; [exact Hd|]. split; assumption.
    + eexists. split; [reflexivity|exact Hok].
    + destruct (pg_view pg) as [|a b c d h] eqn:Hview.
      * eexists. split; [reflexivity|exact Hok].
      * destruct Hv as [Hsome Hh].
        apply on_mouseup_ok; [exact Hok|exact Hh|exact Hsome].
    + destruct (pg_view pg) as [|a b c d h] eqn:Hview.
      * eexists. split; [reflexivity|exact Hok].
      * eexists. split; [reflexivity|].
        split; [exact Hz|]. split; [intros Hcontra; discriminate|].
        exact Hv.
    + eexists. split; [reflexivity|]. now apply display_page_ok.
  - intros z z'. subst z'. unfold zoomPauseChart.
    rewrite decide_False by (vm_compute; discriminate).
    rewrite decide_False by (vm_compute; discriminate).
    rewrite decide_True by reflexivity.
    rewrite displayPauseChart_eq.
    destruct (Nat.eqb (length allEvents) 0) eqn:Hlen; [split; reflexivity|].
    cbv zeta.
    assert (Hinit : forall z0 a b, init_endIndex allEvents (set_range z0 a b) =
                                   set_range z0 a b) by reflexivity.
    rewrite Hinit, visible_full, Hlen. split; reflexivity.
  - intros z Hne Hvis. eexists. now apply displayPauseChart_empty_slice.
  - intros evs z Heq Hd. unfold displayResults_chart. rewrite <- Heq.
    apply display_page_ok; [reflexivity|exact Hd].
Qed.

End ZoomInvariant.

(** ** The AI panel *)

Ltac js_run :=
  repeat
    (progress
       (unfold bind, ret, throw, update, try_catch, try_finally, fetch, json,
          prop, show_model;
        cbn [resp_ok resp_json fst snd log_request with_ai_analysis with_ai_tab
             with_model_badge with_buttons with_chat requests ai_analysis
             ai_model_badge ai_tab quick_btn agentic_btn chat_messages
             chat_input_value chat_input_disabled negb])).

Ltac js_case :=
  match goal with
  | |- context [match ?n ?r with Rejected _ => _ | Fulfilled _ _ => _ end] =>
      destruct (n r) as [?msg|?ok ?js] eqn:?
  | |- context [match ?j with Unreadable _ => _ | ParsedNull => _
                            | ParsedObject _ => _ end] =>
      is_var j; destruct j
  | |- context [if ?b then _ else _] => destruct b eqn:?
  end.

Ltac js_cases := js_run; repeat (js_case; js_run).

Section AiPanelFacts.

Context `{host : Host}.
Variable net : Request -> FetchOutcome.

Lemma issued_app {A : Type} (m : Js A) (p : Page) (rs : list Request) :
  requests (snd (m p)) = requests p ++ rs -> issued m p = rs.
Proof. intros H. unfold issued. rewrite H. apply drop_app_length. Qed.

Lemma autoStart_requests (data : option AnalysisData) (p : Page) :
  requests (snd (autoStartAgenticAnalysis net data p)) =
  requests p ++
  health_request ::
  (if health_available net then [agentic_request data] else []).
Proof.
  unfold health_available, autoStartAgenticAnalysis.
  js_run.
  destruct (net health_request) as [msg|ok js]; js_run; [reflexivity|].
  destruct ok; js_run; [|reflexivity].
  destruct js as [msg| |r]; js_run; try reflexivity.
  destruct (truthy (available r)); js_run; [|reflexivity].
  js_cases; now rewrite <- app_assoc.
Qed.

Lemma autoStart_done (data : option AnalysisData) (p : Page) :
  fst (autoStartAgenticAnalysis net data p) = Done tt.
Proof.
  unfold autoStartAgenticAnalysis. js_cases; reflexivity.
Qed.

Lemma runAIAnalysis_requests (data : option AnalysisData) (p : Page) :
  requests (snd (runAIAnalysis net data p)) = requests p ++ [quick_request data].
Proof. unfold runAIAnalysis. js_cases; reflexivity. Qed.

Lemma runAgenticAnalysis_requests (data : option AnalysisData) (p : Page) :
  requests (snd (runAgenticAnalysis net data p)) =
  requests p ++ [agentic_request data].
Proof. unfold runAgenticAnalysis. js_cases; reflexivity. Qed.

Lemma set_by_id_last (id : jsstring) (c : option jsstring) (html : jsstring)
    (pre : list ChatMessage) (m : ChatMessage) :
  msg_id m = Some id ->
  exists l' m',
    set_by_id id c html (pre ++ [m]) = Some l' /\
    m' ∈ l' /\ msg_id m' = Some id /\ msg_html m' = html.
Proof.
  intros Hm. induction pre as [|x pre IH]; simpl.
  - rewrite bool_decide_eq_true_2 by exact Hm.
    eexists _, _. split; [reflexivity|].
    split; [apply list_elem_of_here|]. split; [exact Hm|reflexivity].
  - case_bool_decide as Hx.
    + eexists _, _. split; [reflexivity|].
      split; [apply list_elem_of_here|]. split; [exact Hx|reflexivity].
    + destruct IH as (l' & m' & -> & Hin & Hid & Hhtml).
      eexists _, m'. split; [reflexivity|].
      split; [now apply list_elem_of_further|]. split; assumption.
Qed.

Lemma sendChat_empty (data : option AnalysisData) (now : Z) (p : Page) :
  trim (chat_input_value p) = [] ->
  sendChatMessage net data now p = (Done tt, p).
Proof. intros H. unfold sendChatMessage. now rewrite H. Qed.

Lemma sendChat_sent (data : option AnalysisData) (now : Z) (p : Page) :
  trim (chat_input_value p) <> [] ->
  let question := trim (chat_input_value p) in
  let r := sendChatMessage net data now p in
  fst r = Done tt /\
  requests (snd r) = requests p ++ [chat_request question data] /\
  chat_input_disabled (snd r) = false /\
  exists m,
    m ∈ chat_messages (snd r) /\
    msg_id m = Some (lit "loading-" ++ string_of_Z now) /\
    msg_html m = chat_outcome_html (net (chat_request question data)).
Proof.
  intros Hq question r. subst r. unfold sendChatMessage. fold question.
  destruct (Nat.eqb (length question) 0) eqn:Hlen.
  { apply Nat.eqb_eq, nil_length_inv in Hlen. contradiction. }
  set (loading := {| msg_class := lit "ai-chat-message assistant";
                     msg_id := Some (lit "loading-" ++ string_of_Z now);
                     msg_html := lit "Thinking..." |}).
  set (user := {| msg_class := lit "ai-chat-message user"; msg_id := None;
                  msg_html := escapeHtml (JStr question) |}).
  assert (Hfound : forall c html,
    exists l' m',
      set_by_id (lit "loading-" ++ string_of_Z now) c html
        (chat_messages p ++ [user] ++ [loading]) = Some l' /\
      m' ∈ l' /\ msg_id m' = Some (lit "loading-" ++ string_of_Z now) /\
      msg_html m' = html).
  { intros c html. rewrite app_assoc.
    destruct (set_by_id_last (lit "loading-" ++ string_of_Z now) c html
                (chat_messages p ++ [user]) loading eq_refl)
      as (l' & m' & H1 & H2 & H3 & H4).
    eauto 10. }
  unfold chat_outcome_html, set_loading. js_run.
  destruct (net (chat_request question data)) as [msg|ok js]; js_run.
  - destruct (Hfound (Some (lit "ai-chat-message error"))
                (lit "Failed to get response: " ++ escapeHtml (JStr msg)))
      as (l' & m' & -> & ? & ? & ?).
    js_run. eauto 10.
  - destruct js as [msg| |reply]; js_run.
    + destruct (Hfound (Some (lit "ai-chat-message error"))
                  (lit "Failed to get response: " ++ escapeHtml (JStr msg)))
        as (l' & m' & -> & ? & ? & ?).
      js_run. eauto 10.
    + destruct (Hfound (Some (lit "ai-chat-message error"))
                  (lit "Failed to get response: " ++
                   escapeHtml (JStr typeErrorMessage)))
        as (l' & m' & -> & ? & ? & ?).
      js_run. eauto 10.
    + destruct (truthy (error reply)); js_run.
      * destruct (Hfound (Some (lit "ai-chat-message error"))
                    (escapeHtml (error reply)))
          as (l' & m' & -> & ? & ? & ?).
        js_run. eauto 10.
      * destruct (Hfound None (formatMarkdown (answer reply)))
          as (l' & m' & -> & ? & ? & ?).
        js_run. eauto 10.
Qed.

Lemma runAIAnalysis_run (data : option AnalysisData) (p : Page) :
  let r := runAIAnalysis net data p in
  fst r = Done tt /\
  ai_analysis (snd r) = quick_outcome_html (net (quick_request data)) /\
  disabled (quick_btn (snd r)) = false /\
  disabled (agentic_btn (snd r)) = false.
Proof.
  unfold runAIAnalysis, quick_outcome_html. js_cases; repeat split.
Qed.

Lemma runAgenticAnalysis_run (data : option AnalysisData) (p : Page) :
  let r := runAgenticAnalysis net data p in
  fst r = Done tt /\
  ai_analysis (snd r) = agentic_outcome_html (net (agentic_request data)) /\
  disabled (quick_btn (snd r)) = false /\
  disabled (agentic_btn (snd r)) = false.
Proof.
  unfold runAgenticAnalysis, agentic_outcome_html. js_cases; repeat split.
Qed.

Lemma displayResults_requests (w : Z) (d : AnalysisData) (z : Zoom) (p : Page) :
  requests (snd (displayResults net w d z p)) =
  requests p ++
  match events d with
  | Some _ =>
      health_request ::
      (if health_available net then [agentic_request (Some d)] else [])
  | None => []
  end.
Proof.
  unfold displayResults. destruct (events d) as [evs|].
  - unfold bind at 1.
    pose proof (autoStart_requests (Some d) p) as Hreq.
    pose proof (autoStart_done (Some d) p) as Hdone.
    destruct (autoStartAgenticAnalysis net (Some d) p) as [o p'].
    simpl in Hreq, Hdone. subst o. exact Hreq.
  - unfold throw. simpl. now rewrite app_nil_r.
Qed.

End AiPanelFacts.

(** C2.  The requests that the automatic start issues are the health
    check, followed by the agentic analysis exactly when the health check
    was answered with a success status and a readable body whose
    [available] is truthy; the same holds for [displayResults], which
    starts it after the results are displayed.  For a health body that
    reports a boolean, that condition is [ok] and [available == true].
    When the health check is rejected (network failure or the abort of
    the timeout), answered with an error status or an unreadable body, or
    reports [available == false], only the health check is issued. *)
Theorem auto_start_requires_available_health `{host : Host}
    (net : Request -> FetchOutcome) (data : option AnalysisData) (p : Page) :
  issued (autoStartAgenticAnalysis net data) p =
    health_request ::
    (if health_available net then [agentic_request data] else []) /\
  (forall (w : Z) (d : AnalysisData) (z : Zoom),
     issued (displayResults net w d z) p =
       match events d with
       | Some _ =>
           health_request ::
           (if health_available net then [agentic_request (Some d)] else [])
       | None => []
       end) /\
  (forall (ok b : bool) (r : Reply),
     net health_request = Fulfilled ok (ParsedObject r) ->
     available r = JBool b ->
     health_available net = ok && b) /\
  (forall msg : jsstring,
     net health_request = Rejected msg -> health_available net = false) /\
  (forall js : Parsed,
     net health_request = Fulfilled false js -> health_available net = false) /\
  (forall (ok : bool) (msg : jsstring),
     net health_request = Fulfilled ok (Unreadable msg) ->
     health_available net = false) /\
  (forall ok : bool,
     net health_request = Fulfilled ok ParsedNull ->
     health_available net = false).
Proof.
  split; [|split].
  - apply issued_app, autoStart_requests.
  - intros w d z. apply issued_app, displayResults_requests.
  - unfold health_available.
    repeat split; intros.
    + rewrite H, H0. now destruct ok.
    + now rewrite H.
    + now rewrite H.
    + rewrite H. now destruct ok.
    + rewrite H. now destruct ok.
Qed.

(** C4.  The health check carries a timeout of 3000 ms, and every request
    to the health endpoint that an operation of the front end issues is
    that request.  When it is rejected (a network failure, or the abort
    when the timeout expires), or answered with an error status or an
    unreadable body, the automatic start ends normally without issuing
    the agentic request and without touching the analysis container. *)
Theorem health_check_bounded_timeout `{host : Host}
    (net : Request -> FetchOutcome) (data : option AnalysisData) (p : Page) :
  timeout_ms health_request = Some 3000 /\
  (forall (w : Z) (d : AnalysisData) (z : Zoom) (now : Z) (r : Request),
     r ∈ issued (autoStartAgenticAnalysis net data) p ++
         issued (displayResults net w d z) p ++
         issued (runAIAnalysis net data) p ++
         issued (runAgenticAnalysis net data) p ++
         issued (sendChatMessage net data now) p ->
     url r = lit "/ai-health" ->
     r = health_request /\ timeout_ms r = Some 3000) /\
  (health_available net = false ->
     let r := autoStartAgenticAnalysis net data p in
     fst r = Done tt /\
     issued (autoStartAgenticAnalysis net data) p = [health_request] /\
     ai_analysis (snd r) = ai_analysis p /\
     ai_model_badge (snd r) = ai_model_badge p) /\
  (forall msg : jsstring,
     net health_request = Rejected msg ->
     autoStartAgenticAnalysis net data p =
       (Done tt, with_ai_tab (ai_tab_label []) (log_request health_request p))).
Proof.
  split; [reflexivity|]. split; [|split].
  - intros w d z now r Hin Hurl.
    assert (Hother : forall q, url q <> lit "/ai-health" -> r = q -> False).
    { intros q Hq ->. contradiction. }
    rewrite (issued_app _ _ _ (autoStart_requests net data p)) in Hin.
    rewrite (issued_app _ _ _ (displayResults_requests net w d z p)) in Hin.
    rewrite (issued_app _ _ _ (runAIAnalysis_requests net data p)) in Hin.
    rewrite (issued_app _ _ _ (runAgenticAnalysis_requests net data p)) in Hin.
    assert (Hchat : issued (sendChatMessage net data now) p = [] \/
                    exists q, issued (sendChatMessage net data now) p =
                              [chat_request q data]).
    { destruct (trim (chat_input_value p)) as [|c q] eqn:Hq.
      - left. unfold issued. rewrite sendChat_empty by exact Hq.
        simpl. apply drop_all.
      - right. exists (c :: q). apply issued_app.
        pose proof (sendChat_sent net data now p) as Hs. rewrite Hq in Hs.
        now apply Hs. }
    assert (Hin' : r = health_request \/ r = agentic_request data \/
                   r = agentic_request (Some d) \/ r = quick_request data \/
                   exists q, r = chat_request q data).
    { destruct Hchat as [Hc|[q Hc]]; rewrite Hc in Hin; clear Hc;
        destruct (health_available net); destruct (events d);
        set_unfold in Hin; naive_solver. }
    destruct Hin' as [->|[->|[->|[->|[q ->]]]]];
      [split; reflexivity|exfalso; revert Hurl; vm_compute; discriminate..].
  - intros Hun r. subst r.
    split; [apply autoStart_done|]. split.
    + rewrite (issued_app _ _ _ (autoStart_requests net data p)).
      now rewrite Hun.
    + revert Hun. unfold health_available, autoStartAgenticAnalysis.
      js_run. destruct (net health_request) as [msg|ok js]; js_run.
      * intros _. split; reflexivity.
      * destruct ok; js_run; [|intros _; split; reflexivity].
        destruct js as [msg| |r]; js_run; try (intros _; split; reflexivity).
        destruct (truthy (available r)); js_run; [discriminate|].
        intros _; split; reflexivity.
  - intros msg Hrej. unfold autoStartAgenticAnalysis. js_run.
    rewrite Hrej. js_run. reflexivity.
Qed.

(** ** Occurrences *)

Lemma occurs_refl (x : jsstring) : occurs_in x x.
Proof. exists [], []. now rewrite app_nil_r. Qed.

Lemma occurs_app_l (x a b : jsstring) : occurs_in x a -> occurs_in x (a ++ b).
Proof.
  intros (u & v & ->). exists u, (v ++ b). now rewrite <- !app_assoc.
Qed.

Lemma occurs_app_r (x a b : jsstring) : occurs_in x b -> occurs_in x (a ++ b).
Proof.
  intros (u & v & ->). exists (a ++ u), v. now rewrite <- !app_assoc.
Qed.

Lemma occurs_trans (x y z : jsstring) :
  occurs_in x y -> occurs_in y z -> occurs_in x z.
Proof.
  intros (u & v & ->) (u' & v' & ->).
  exists (u' ++ u), (v ++ v'). now rewrite <- !app_assoc.
Qed.

Lemma occurs_el (x : jsstring) (name : string)
    (attrs : list (string * jsstring)) (inner : jsstring) :
  occurs_in x inner -> occurs_in x (el name attrs inner).
Proof.
  intros H. unfold el. apply occurs_app_r, occurs_app_l, H.
Qed.

Lemma occurs_concat (x y : jsstring) (l : list jsstring) :
  y ∈ l -> occurs_in x y -> occurs_in x (concat l).
Proof.
  intros Hin Hx. apply list_elem_of_split in Hin as (l1 & l2 & ->).
  rewrite concat_app. simpl. now apply occurs_app_r, occurs_app_l.
Qed.

Lemma starts_with_spec (p s : jsstring) :
  starts_with p s = true <-> exists c, s = p ++ c.
Proof.
  revert s. induction p as [|a p IH]; intros s; simpl.
  - split; eauto.
  - destruct s as [|b s].
    + split; [discriminate|intros [c Hc]; discriminate].
    + rewrite andb_true_iff, N.eqb_eq, IH. split.
      * intros [-> [c ->]]. eauto.
      * intros [c Hc]. injection Hc as -> ->. eauto.
Qed.

Lemma includes_spec (s p : jsstring) :
  includes s p = true <-> occurs_in p s.
Proof.
  induction s as [|b s IH]; simpl.
  - rewrite orb_false_r, starts_with_spec. split.
    + intros [c Hc]. exists [], c. exact Hc.
    + intros (u & v & H). symmetry in H.
      apply app_eq_nil in H as [-> H]. apply app_eq_nil in H as [-> ->].
      exists []. reflexivity.
  - rewrite orb_true_iff, starts_with_spec, IH. split.
    + intros [[c Hc]|(u & v & ->)].
      * exists [], c. exact Hc.
      * exists (b :: u), v. reflexivity.
    + intros (u & v & H). destruct u as [|b' u].
      * left. exists v. exact H.
      * right. injection H as -> ->. exists u, v. reflexivity.
Qed.

(** ** Errors and results of the analyses *)

(** C5, the counterexample.  The reply [{error: ""}] has an error field,
    yet the quick analysis shows an (empty) result and no error message. *)
Lemma empty_error_field_shows_no_error :
  let net := fun _ : Request =>
               Fulfilled false (ParsedObject (reply_with_error (JStr []))) in
  let shown := ai_analysis
                 (snd (runAIAnalysis (host := sample_host) net None blank_page)) in
  error (reply_with_error (JStr [])) = JStr [] /\
  shown = el "div" (cls "ai-result") [] /\
  includes shown (lit "ai-error") = false.
Proof. vm_compute. repeat split. Qed.

(** C5, as amended.  Both analyses end normally, whatever the request
    meets, and re-enable their buttons.  The analysis container then
    shows: the error message with the escaped error, and nothing of a
    result, when the reply has a truthy (for a string: non-empty) error
    field; the rendered result when the error field is absent or falsy;
    a failure message with the escaped cause when the request failed or
    its reply could not be read. *)
Theorem analysis_error_or_result `{host : Host}
    (net : Request -> FetchOutcome) (data : option AnalysisData) (p : Page) :
  let q := runAIAnalysis net data p in
  let a := runAgenticAnalysis net data p in
  fst q = Done tt /\ fst a = Done tt /\
  ai_analysis (snd q) = quick_outcome_html (net (quick_request data)) /\
  ai_analysis (snd a) = agentic_outcome_html (net (agentic_request data)) /\
  disabled (quick_btn (snd q)) = false /\
  disabled (agentic_btn (snd q)) = false /\
  disabled (quick_btn (snd a)) = false /\
  disabled (agentic_btn (snd a)) = false /\
  (forall (ok : bool) (reply : Reply),
     truthy (error reply) = true ->
     quick_outcome_html (Fulfilled ok (ParsedObject reply)) =
       ai_error (escapeHtml (error reply)) /\
     agentic_outcome_html (Fulfilled ok (ParsedObject reply)) =
       ai_error (escapeHtml (error reply))) /\
  (forall (ok : bool) (reply : Reply),
     truthy (error reply) = false ->
     quick_outcome_html (Fulfilled ok (ParsedObject reply)) =
       el "div" (cls "ai-result") (formatMarkdown (analysis reply)) /\
     agentic_outcome_html (Fulfilled ok (ParsedObject reply)) =
       displayAgenticResult reply) /\
  (forall message : jsstring,
     quick_outcome_html (Rejected message) =
       ai_error (lit "Failed to get AI analysis: " ++ escapeHtml (JStr message)) /\
     agentic_outcome_html (Rejected message) =
       ai_error (lit "Failed to run agentic analysis: " ++
                 escapeHtml (JStr message))).
Proof.
  intros q a.
  destruct (runAIAnalysis_run net data p) as (Hq1 & Hq2 & Hq3 & Hq4).
  destruct (runAgenticAnalysis_run net data p) as (Ha1 & Ha2 & Ha3 & Ha4).
  repeat (split; [assumption|]).
  split; [|split].
  - intros ok reply Ht. simpl. rewrite Ht. split; reflexivity.
  - intros ok reply Ht. simpl. rewrite Ht. split; reflexivity.
  - intros message. split; reflexivity.
Qed.

Lemma analysis_error_or_result_witness :
  let net := fun _ : Request =>
               Fulfilled false
                 (ParsedObject (reply_with_error (JStr (lit "Ollama <down>")))) in
  ai_analysis (snd (runAIAnalysis (host := sample_host) net None blank_page)) =
    ai_error (lit "Ollama &lt;down&gt;").
Proof.
  intros net.
  destruct (analysis_error_or_result (host := sample_host) net None blank_page)
    as (_ & _ & Hq & _ & _ & _ & _ & _ & Herr & _).
  rewrite Hq.
  destruct (Herr false (reply_with_error (JStr (lit "Ollama <down>"))) eq_refl)
    as [Hquick _].
  unfold net. rewrite Hquick. reflexivity.
Defined.

(** ** The chat *)

(** C6.  A question that is empty after trimming sends nothing and leaves
    the page as it is.  Otherwise exactly one request is issued, a POST
    to the chat endpoint whose body is the trimmed question with the
    analyze result as context; the function ends normally, and the
    element of the pending answer shows the markdown rendering of the
    returned answer when the reply has no truthy error, the escaped
    error when it has one (for a reply that has only an error, also an
    empty one, this is the escaped error), and a failure message when
    the request failed. *)
Theorem chat_sends_question_and_context `{host : Host}
    (net : Request -> FetchOutcome) (data : option AnalysisData) (now : Z)
    (p : Page) :
  let question := trim (chat_input_value p) in
  let r := sendChatMessage net data now p in
  (question = [] -> r = (Done tt, p) /\ issued (sendChatMessage net data now) p = []) /\
  (question <> [] ->
     fst r = Done tt /\
     issued (sendChatMessage net data now) p = [chat_request question data] /\
     url (chat_request question data) = lit "/ai-chat" /\
     method (chat_request question data) = POST /\
     body (chat_request question data) = JsonChat question data /\
     exists m : ChatMessage,
       m ∈ chat_messages (snd r) /\
       msg_html m = chat_outcome_html (net (chat_request question data))) /\
  (forall (ok : bool) (reply : Reply),
     error reply = JUndefined ->
     chat_outcome_html (Fulfilled ok (ParsedObject reply)) =
       formatMarkdown (answer reply)) /\
  (forall (ok : bool) (reply : Reply) (e : jsstring),
     error reply = JStr e -> answer reply = JUndefined ->
     chat_outcome_html (Fulfilled ok (ParsedObject reply)) =
       escapeHtml (JStr e)).
Proof.
  intros question r. split; [|split; [|split]].
  - intros Hq. subst r. split.
    + now apply sendChat_empty.
    + unfold issued. rewrite (sendChat_empty net data now p Hq).
      simpl. apply drop_all.
  - intros Hq. destruct (sendChat_sent net data now p Hq) as (H1 & H2 & _ & m & Hm1 & _ & Hm3).
    split; [exact H1|]. split; [now apply issued_app|].
    repeat (split; [reflexivity|]). exists m. split; assumption.
  - intros ok reply He. simpl. now rewrite He.
  - intros ok reply e He Ha. simpl. rewrite He, Ha.
    destruct e; reflexivity.
Qed.

Lemma chat_sends_question_and_context_witness :
  let net := fun _ : Request =>
               Fulfilled true (ParsedObject (reply_with_answer (JStr (lit "**Fine**")))) in
  let p := with_chat [] (lit "  Is it fine? ") false blank_page in
  issued (sendChatMessage (host := sample_host) net None 1700000000000) p =
    [chat_request (lit "Is it fine?") None] /\
  exists m : ChatMessage,
    m ∈ chat_messages (snd (sendChatMessage (host := sample_host) net None 1700000000000 p)) /\
    msg_html m = lit "<p><strong>Fine</strong></p>".
Proof.
  intros net p.
  destruct (chat_sends_question_and_context (host := sample_host) net None
              1700000000000 p) as (_ & Hsent & _).
  destruct Hsent as (_ & Hreq & _ & _ & _ & m & Hin & Hhtml).
  { vm_compute. discriminate. }
  split; [exact Hreq|]. exists m. split; [exact Hin|]. rewrite Hhtml.
  vm_compute. reflexivity.
Defined.

Lemma auto_start_requires_available_health_witness :
  let net := fun r : Request =>
               match method r with
               | GET => Fulfilled true (ParsedObject (reply_available true))
               | POST => Fulfilled true (ParsedObject empty_reply)
               end in
  let down := fun _ : Request => Rejected (lit "The operation timed out.") in
  issued (autoStartAgenticAnalysis (host := sample_host) net None) blank_page =
    [health_request; agentic_request None] /\
  issued (autoStartAgenticAnalysis (host := sample_host) down None) blank_page =
    [health_request].
Proof.
  intros net down. split.
  - destruct (auto_start_requires_available_health (host := sample_host) net None
                blank_page) as (Hreq & _ & Hbool & _).
    rewrite Hreq.
    rewrite (Hbool true true (reply_available true) eq_refl eq_refl).
    reflexivity.
  - destruct (auto_start_requires_available_health (host := sample_host) down None
                blank_page) as (Hreq & _ & _ & Hrej & _).
    rewrite Hreq.
    rewrite (Hrej (lit "The operation timed out.") eq_refl).
    reflexivity.
Defined.

Lemma health_check_bounded_timeout_witness :
  let down := fun _ : Request => Rejected (lit "The operation timed out.") in
  autoStartAgenticAnalysis (host := sample_host) down None blank_page =
    (Done tt, log_request health_request blank_page) /\
  timeout_ms health_request = Some 3000.
Proof.
  intros down.
  destruct (health_check_bounded_timeout (host := sample_host) down None
              blank_page) as (Ht & _ & _ & Hrej).
  split; [|exact Ht].
  rewrite (Hrej (lit "The operation timed out.") eq_refl). reflexivity.
Defined.

(** ** The trace of an agentic result *)

(** C7, the counterexample.  For a step whose action is the structured
    value [{tool_name, arguments}], the action element shows the text
    [[object Object]]; neither the tool name nor the argument occurs in
    what is displayed. *)
Lemma structured_action_shown_as_object_text :
  let st := step_with_action structured_action in
  let shown := displayAgenticResult (reply_with_steps [st]) in
  step_action_html st =
    el "div" (cls "agentic-step-action") (lit "[object Object]") /\
  includes shown (lit "[object Object]") = true /\
  includes shown (lit "get_long_pauses") = false /\
  includes shown (lit "threshold_ms") = false.
Proof. vm_compute. repeat split. Qed.

Lemma step_html_in_result (result : Reply) (sts : list AgentStep) (st : AgentStep) :
  steps result = Some sts -> st ∈ sts ->
  occurs_in (step_html st) (displayAgenticResult result).
Proof.
  intros Hsts Hin. unfold displayAgenticResult.
  apply occurs_el, occurs_app_l. unfold trace_html. rewrite Hsts.
  destruct sts as [|s0 sts]; [now apply elem_of_nil in Hin|].
  apply occurs_el, occurs_app_r.
  apply (occurs_concat _ (step_html st)); [|apply occurs_refl].
  apply list_elem_of_In, in_map, list_elem_of_In, Hin.
Qed.

Lemma action_html_in_step (st : AgentStep) :
  occurs_in (step_action_html st) (step_html st).
Proof.
  unfold step_html. apply occurs_el, occurs_app_l, occurs_el.
  apply occurs_app_r, occurs_app_r, occurs_refl.
Qed.

(** C7, as amended.  The renderer treats the action of a step as text.
    Every step of the reply is displayed.  Its action element is present
    exactly when the action is truthy and then shows the HTML-escaped
    string conversion of the action: for an action that is a non-empty
    string, the escaped string occurs in the displayed trace; an absent,
    null or empty action has no element; an object is shown as the text
    [[object Object]]. *)
Theorem step_action_displayed_as_text (result : Reply) (sts : list AgentStep)
    (st : AgentStep) :
  steps result = Some sts -> st ∈ sts ->
  occurs_in (step_html st) (displayAgenticResult result) /\
  occurs_in (step_action_html st) (step_html st) /\
  step_action_html st =
    (if truthy (action st)
     then el "div" (cls "agentic-step-action")
            (serialize_text (ToString (action st)))
     else []) /\
  (forall s : jsstring,
     action st = JStr s -> s <> [] ->
     occurs_in (el "div" (cls "agentic-step-action") (serialize_text s))
       (displayAgenticResult result)) /\
  (action st = JUndefined \/ action st = JNull \/ action st = JStr [] ->
     step_action_html st = []) /\
  (forall fields : list (jsstring * JsVal),
     action st = JObj fields ->
     step_action_html st =
       el "div" (cls "agentic-step-action") (lit "[object Object]")).
Proof.
  intros Hsts Hin.
  pose proof (step_html_in_result result sts st Hsts Hin) as Hstep.
  pose proof (action_html_in_step st) as Hact.
  split; [exact Hstep|]. split; [exact Hact|]. split; [|split; [|split]].
  - unfold step_action_html, escapeHtml. now destruct (truthy (action st)).
  - intros s Hs Hne.
    eapply occurs_trans; [|exact Hstep].
    eapply occurs_trans; [|exact Hact].
    unfold step_action_html, escapeHtml. rewrite Hs.
    destruct s; [contradiction|]. apply occurs_refl.
  - unfold step_action_html. intros [H|[H|H]]; now rewrite H.
  - intros fields H. unfold step_action_html, escapeHtml. now rewrite H.
Qed.

Lemma step_action_displayed_as_text_witness :
  let st := step_with_action (JStr (lit "get_long_pauses(threshold_ms=100)")) in
  occurs_in
    (el "div" (cls "agentic-step-action")
       (lit "get_long_pauses(threshold_ms=100)"))
    (displayAgenticResult (reply_with_steps [st])).
Proof.
  intros st.
  destruct (step_action_displayed_as_text (reply_with_steps [st]) [st] st
              eq_refl (list_elem_of_here _ _)) as (_ & _ & _ & Hstr & _).
  apply (Hstr (lit "get_long_pauses(threshold_ms=100)") eq_refl).
  vm_compute. discriminate.
Defined.

(** ** The agent controller *)

Module ControllerFacts.
Import Controller.

Section Run.

Variable llm : list jsstring -> LlmReply.
Variable dispatch : Action -> jsstring.
Variable best_effort : list jsstring -> jsstring.
Variable N_max : nat.

Lemma good_initial (input : jsstring) :
  (1 <= N_max)%nat -> good N_max (initial input).
Proof. intros H. split; [exact H|constructor]. Qed.

Lemma last_snoc_step (l : list Step) (s : Step) : last (l ++ [s]) = Some s.
Proof. apply last_snoc. Qed.

Lemma good_transition (m : Machine) :
  good N_max m -> good N_max (transition llm dispatch best_effort N_max m).
Proof.
  unfold good, transition. destruct (phase m) eqn:Hph.
  - intros [Hlen Hall].
    replace (Nat.leb N_max (length (trace m))) with false
      by (symmetry; apply Nat.leb_gt; lia).
    destruct (llm (context m)) as [th ans|th a|]; cbn [phase trace finish].
    + exists (trace m), {| step := S (length (trace m)); thought := th;
                           action := None; observation := None;
                           is_final := true |}.
      rewrite length_app. simpl. repeat split; try lia; try assumption.
      eauto.
    + split; assumption.
    + eexists (trace m), _.
      rewrite length_app. simpl. repeat split; try lia; try assumption.
      eauto.
  - intros H. cbn [phase trace]. exact H.
  - intros [Hlen Hall]. cbn [phase trace].
    destruct (Nat.leb N_max (S (length (trace m)))) eqn:Hcap.
    + eexists (trace m), _. rewrite length_app. simpl.
      apply Nat.leb_le in Hcap.
      repeat split; try lia; try assumption. eauto.
    + apply Nat.leb_gt in Hcap. rewrite length_app. simpl. split; [lia|].
      apply Forall_app. split; [exact Hall|]. repeat constructor.
  - rewrite Hph. tauto.
Qed.

Lemma rank_transition (m : Machine) :
  good N_max m -> phase m <> DONE ->
  (rank N_max (transition llm dispatch best_effort N_max m) < rank N_max m)%nat.
Proof.
  unfold good, transition, rank. destruct (phase m) eqn:Hph; try congruence.
  - intros [Hlen Hall] _.
    replace (Nat.leb N_max (length (trace m))) with false
      by (symmetry; apply Nat.leb_gt; lia).
    destruct (llm (context m)); cbn [phase trace finish]; lia.
  - intros [Hlen Hall] _. cbn [phase trace]. lia.
  - intros [Hlen Hall] _. cbn [phase trace].
    destruct (Nat.leb N_max (S (length (trace m)))) eqn:Hcap; [lia|].
    apply Nat.leb_gt in Hcap. rewrite length_app. simpl. lia.
Qed.

Lemma rank_zero_done (m : Machine) :
  good N_max m -> rank N_max m = 0%nat -> phase m = DONE.
Proof.
  unfold good, rank. destruct (phase m); try reflexivity; intros [? ?]; lia.
Qed.

Lemma run_reaches_done (fuel : nat) (m : Machine) :
  good N_max m -> (rank N_max m <= fuel)%nat ->
  let m' := run llm dispatch best_effort N_max fuel m in
  phase m' = DONE /\ good N_max m'.
Proof.
  revert m. induction fuel as [|fuel IH]; intros m Hgood Hrank; simpl.
  - split; [apply rank_zero_done; [exact Hgood|lia]|exact Hgood].
  - apply IH; [now apply good_transition|].
    destruct (phase m) eqn:Hph;
      try (pose proof (rank_transition m Hgood ltac:(congruence)); lia).
    unfold transition. rewrite Hph. unfold rank. rewrite Hph. lia.
Qed.

Lemma capped_transition (m : Machine) :
  (forall ctx, exists th a, llm ctx = UseTool th a) ->
  good N_max m -> capped best_effort N_max m ->
  capped best_effort N_max (transition llm dispatch best_effort N_max m).
Proof.
  intros Hnever Hgood Hcap. unfold capped, transition in *.
  unfold good in Hgood. destruct (phase m) eqn:Hph.
  - destruct Hgood as [Hlen _].
    replace (Nat.leb N_max (length (trace m))) with false
      by (symmetry; apply Nat.leb_gt; lia).
    destruct (Hnever (context m)) as (th & a & ->). cbn [phase]. discriminate.
  - cbn [phase]. discriminate.
  - destruct Hgood as [Hlen _]. cbn [phase trace context final_answer].
    destruct (Nat.leb N_max (S (length (trace m)))) eqn:Hle; [|discriminate].
    apply Nat.leb_le in Hle. intros _. rewrite length_app. simpl.
    split; [lia|reflexivity].
  - rewrite Hph. exact Hcap.
Qed.

Lemma run_capped (fuel : nat) (m : Machine) :
  (forall ctx, exists th a, llm ctx = UseTool th a) ->
  good N_max m -> capped best_effort N_max m ->
  capped best_effort N_max (run llm dispatch best_effort N_max fuel m).
Proof.
  intros Hnever. revert m. induction fuel as [|fuel IH]; intros m Hg Hc; simpl.
  - exact Hc.
  - apply IH; [now apply good_transition|now apply capped_transition].
Qed.

End Run.

End ControllerFacts.

(** C1.  For every input, every model (any function from the context to a
    reply, a failed call included), every tool registry and every cap
    [N_max >= 1], the investigation ends: the machine is in [DONE], the
    trace has at least one and at most [N_max] steps, its last step has
    [is_final = true], and there is a conclusion.  When the model never
    gives a final answer, the trace has exactly [N_max] steps and the
    conclusion is the one synthesized from the observations. *)
Theorem agent_terminates_with_final_step
    (llm : list jsstring -> Controller.LlmReply)
    (dispatch : Controller.Action -> jsstring)
    (best_effort : list jsstring -> jsstring)
    (N_max : nat) (input : jsstring) :
  (1 <= N_max)%nat ->
  let m := Controller.investigate llm dispatch best_effort N_max input in
  Controller.phase m = Controller.DONE /\
  (1 <= length (Controller.trace m) <= N_max)%nat /\
  (exists s : Controller.Step,
     last (Controller.trace m) = Some s /\ Controller.is_final s = true) /\
  (exists answer : jsstring, Controller.final_answer m = Some answer) /\
  ((forall ctx, exists th a, llm ctx = Controller.UseTool th a) ->
   length (Controller.trace m) = N_max /\
   Controller.final_answer m = Some (best_effort (Controller.context m))).
Proof.
  intros Hn m.
  pose proof (ControllerFacts.good_initial N_max input Hn) as Hinit.
  destruct (ControllerFacts.run_reaches_done llm dispatch best_effort N_max
              (S (3 * N_max)) (Controller.initial input) Hinit) as [Hdone Hgood].
  { unfold Controller.rank. simpl. lia. }
  fold (Controller.investigate llm dispatch best_effort N_max input) in Hdone, Hgood.
  fold m in Hdone, Hgood.
  split; [exact Hdone|].
  unfold Controller.good in Hgood. rewrite Hdone in Hgood.
  destruct Hgood as (front & final & Htrace & Hlen & Hfinal & _ & Hanswer).
  split; [|split; [|split]].
  - rewrite Htrace in *. rewrite length_app in *. simpl in *. lia.
  - exists final. rewrite Htrace. split; [apply last_snoc|exact Hfinal].
  - exact Hanswer.
  - intros Hnever.
    apply (ControllerFacts.run_capped llm dispatch best_effort N_max
             (S (3 * N_max)) (Controller.initial input) Hnever Hinit);
      [discriminate|exact Hdone].
Qed.

Lemma agent_terminates_with_final_step_witness :
  let llm := fun _ : list jsstring =>
               Controller.UseTool (lit "look again")
                 {| Controller.tool_name := lit "get_summary";
                    Controller.arguments := JObj [] |} in
  let m := Controller.investigate llm (fun _ => lit "ok")
             (fun _ => lit "best effort") 3 (lit "G1") in
  Controller.phase m = Controller.DONE /\
  length (Controller.trace m) = 3%nat /\
  exists s : Controller.Step,
    last (Controller.trace m) = Some s /\ Controller.is_final s = true.
Proof.
  intros llm m.
  destruct (agent_terminates_with_final_step llm (fun _ => lit "ok")
              (fun _ => lit "best effort") 3 (lit "G1") ltac:(lia))
    as (Hdone & _ & Hlast & _ & Hcap).
  split; [exact Hdone|]. split; [|exact Hlast].
  apply Hcap. intros ctx. eexists _, _. reflexivity.
Defined.

(** ** Escaping *)

Lemma escape_unit_no_angle (c : N) :
  Forall (fun x => x <> 60%N /\ x <> 62%N) (escape_unit c).
Proof.
  unfold escape_unit.
  destruct (N.eqb_spec c 38); [repeat constructor; discriminate|].
  destruct (N.eqb_spec c 160); [repeat constructor; discriminate|].
  destruct (N.eqb_spec c 60); [repeat constructor; discriminate|].
  destruct (N.eqb_spec c 62); [repeat constructor; discriminate|].
  repeat constructor; assumption.
Qed.

(** The text that [escapeHtml] returns has no angle bracket in it,
    whatever the value it is given. *)
Lemma escapeHtml_no_angle (v : JsVal) :
  Forall (fun x => x <> 60%N /\ x <> 62%N) (escapeHtml v).
Proof.
  unfold escapeHtml. destruct (negb (truthy v)); [constructor|].
  unfold serialize_text. induction (ToString v) as [|c s IH]; simpl.
  - constructor.
  - apply Forall_app. split; [apply escape_unit_no_angle|exact IH].
Qed.

(** [formatMarkdown] rewrites the escaped text, never the text itself. *)
Lemma formatMarkdown_escapes_first (v : JsVal) :
  formatMarkdown v =
    if truthy v then markdown_rewrites (serialize_text (ToString v)) else [].
Proof.
  unfold formatMarkdown, escapeHtml. now destruct (truthy v).
Qed.

(** ** Known markup *)




Lemma tags_inside_ok :
  forallb tag_inside_ok markdown_tags = true.
Proof. vm_compute. reflexivity. Qed.

Lemma tag_not_nil (t : jsstring) : t ∈ markdown_tags -> t <> [].
Proof.
  intros Ht ->. pose proof tags_inside_ok as H.
  rewrite forallb_forall in H. apply list_elem_of_In, H in Ht. discriminate.
Qed.





(** ** The matcher finds matches *)

Lemma orelse_some {A : Type} (a b : option A) (x : A) :
  orelse a b = Some x -> a = Some x \/ b = Some x.
Proof. destruct a; simpl; auto. Qed.

Lemma rmatch_sound (r : regex) :
  forall (k : MState -> option MState) (s res : MState),
    rmatch r k s = Some res ->
    exists s', Matches r s s' /\ k s' = Some res.
Proof.
  induction r as [|cl|a IHa b IHb|one greedy a IHa|n a IHa| |];
    intros k s res H; cbn [rmatch] in H.
  - exists s. split; [constructor|exact H].
  - destruct (ms_rest s) as [|c rest] eqn:Hrest; [discriminate|].
    destruct (class_matches cl c) eqn:Hc; [|discriminate].
    eexists. split; [econstructor; eassumption|exact H].
  - apply IHa in H as (s1 & H1 & H). apply IHb in H as (s2 & H2 & H).
    exists s2. split; [econstructor; eassumption|exact H].
  - match type of H with context [fix more (fuel : nat) (s : MState) {struct fuel} := _] =>
      set (more := fix more (fuel : nat) (s : MState) {struct fuel} : option MState :=
             match fuel with
             | O => k s
             | S fuel' =>
                 let again :=
                   rmatch a
                     (fun s' =>
                        if Nat.ltb (length (ms_rest s')) (length (ms_rest s))
                        then more fuel' s' else None) s in
                 if greedy then orelse again (k s) else orelse (k s) again
             end) in H
    end.
    assert (Hmore : forall fuel s res,
               more fuel s = Some res ->
               exists s', Matches (RRepeat false greedy a) s s' /\ k s' = Some res).
    { induction fuel as [|fuel IHf]; intros s0 res0 H0; simpl in H0.
      - exists s0. split; [constructor|exact H0].
      - assert (Hcases : k s0 = Some res0 \/
                  rmatch a
                    (fun s' =>
                       if Nat.ltb (length (ms_rest s')) (length (ms_rest s0))
                       then more fuel s' else None) s0 = Some res0).
        { destruct greedy; apply orelse_some in H0; tauto. }
        destruct Hcases as [Hk|Hagain].
        + exists s0. split; [constructor|exact Hk].
        + apply IHa in Hagain as (s1 & H1 & Hagain).
          destruct (Nat.ltb (length (ms_rest s1)) (length (ms_rest s0)));
            [|discriminate].
          apply IHf in Hagain as (s2 & H2 & Hk).
          exists s2. split; [econstructor; eassumption|exact Hk]. }
    destruct one.
    + apply IHa in H as (s1 & H1 & H). apply Hmore in H as (s2 & H2 & H).
      exists s2. split; [econstructor; eassumption|exact H].
    + apply Hmore in H. exact H.
  - apply IHa in H as (s1 & H1 & H).
    eexists. split; [econstructor; eassumption|exact H].
  - destruct (at_line_start s) eqn:Hb; [|discriminate].
    exists s. split; [now constructor|exact H].
  - destruct (at_line_end s) eqn:He; [|discriminate].
    exists s. split; [now constructor|exact H].
Qed.

Lemma Matches_rest (r : regex) (s s' : MState) :
  Matches r s s' -> exists w, ms_rest s = w ++ ms_rest s'.
Proof.
  induction 1 as [s|cl c rest s Hr Hc|a b s s1 s2 _ [w1 H1] _ [w2 H2]
                 |n a s s' _ [w H]|s Hb|s He|g a s
                 |one g a s s1 s2 _ [w1 H1] _ [w2 H2]].
  - now exists [].
  - exists [c]. simpl. exact Hr.
  - exists (w1 ++ w2). rewrite H1, H2. now rewrite app_assoc.
  - exists w. exact H.
  - now exists [].
  - now exists [].
  - now exists [].
  - exists (w1 ++ w2). rewrite H1, H2. now rewrite app_assoc.
Qed.

Lemma consumed_app (s s' : MState) (w : jsstring) :
  ms_rest s = w ++ ms_rest s' -> consumed s s' = w.
Proof.
  intros H. unfold consumed. rewrite H, length_app.
  replace (length w + length (ms_rest s') - length (ms_rest s'))%nat
    with (length w) by lia.
  now rewrite take_app_length.
Qed.

Lemma exec_at_matches (r : regex) (prev : option N) (input whole : jsstring)
    (caps : list (nat * jsstring)) :
  exec_at r prev input = Some (whole, caps) ->
  exists s0 s',
    Matches r s0 s' /\
    ms_prev s0 = prev /\ ms_rest s0 = input /\
    input = whole ++ ms_rest s' /\ caps = ms_caps s'.
Proof.
  unfold exec_at. intros H.
  destruct (rmatch r Some _) as [s'|] eqn:Hm; [|discriminate].
  injection H as <- <-.
  apply rmatch_sound in Hm as (s1 & Hm & Hs). injection Hs as ->.
  eexists _, s'. split; [exact Hm|].
  destruct (Matches_rest _ _ _ Hm) as [w Hw]. simpl in Hw.
  rewrite (consumed_app _ _ w) by exact Hw. repeat split. exact Hw.
Qed.

(** Taking a match apart. *)

Lemma seq_inv (a b : regex) (s s2 : MState) :
  Matches (RSeq a b) s s2 ->
  exists s1, Matches a s s1 /\ Matches b s1 s2.
Proof. inversion 1; subst. eauto. Qed.

Lemma char_inv (cl : charclass) (s s' : MState) :
  Matches (RChar cl) s s' ->
  exists c, ms_rest s = c :: ms_rest s' /\ class_matches cl c = true /\
            ms_caps s' = ms_caps s.
Proof. inversion 1; subst. simpl. eauto. Qed.

Lemma lit_inv (c : N) (s s' : MState) :
  Matches (RChar (CLit c)) s s' ->
  ms_rest s = c :: ms_rest s' /\ ms_caps s' = ms_caps s.
Proof.
  intros H. apply char_inv in H as (x & Hr & Hc & Hcaps).
  simpl in Hc. apply N.eqb_eq in Hc as ->. split; assumption.
Qed.

Lemma group_inv (n : nat) (a : regex) (s s' : MState) :
  Matches (RGroup n a) s s' ->
  exists s1 w,
    Matches a s s1 /\ ms_rest s = w ++ ms_rest s' /\
    ms_rest s1 = ms_rest s' /\ ms_caps s' = (n, w) :: ms_caps s1.
Proof.
  inversion 1; subst.
  match goal with Hm : Matches a s ?s1 |- _ =>
    destruct (Matches_rest _ _ _ Hm) as [w Hw];
    exists s1, w; split; [exact Hm|]; split; [exact Hw|];
    simpl; rewrite (consumed_app _ _ w) by exact Hw; split; reflexivity
  end.
Qed.

Lemma bol_inv (s s' : MState) :
  Matches RBol s s' -> s' = s /\ starts_line (ms_prev s) = true.
Proof. inversion 1; subst. split; [reflexivity|assumption]. Qed.

Lemma eol_inv (s s' : MState) :
  Matches REol s s' ->
  s' = s /\
  (ms_rest s = [] \/
   exists c r, ms_rest s = c :: r /\ is_line_terminator c = true).
Proof.
  inversion 1; subst. split; [reflexivity|].
  unfold at_line_end in *. destruct (ms_rest s') as [|c r]; eauto.
Qed.
(** ** Replacing preserves known markup *)



(** ** The rewrites of formatMarkdown *)











Lemma repeat_inv (greedy : bool) (a : regex) (s s2 : MState) :
  Matches (RRepeat true greedy a) s s2 ->
  exists s1, Matches a s s1 /\ Matches (RRepeat false greedy a) s1 s2.
Proof. inversion 1; subst. eauto. Qed.

Ltac split_match :=
  repeat match goal with
  | H : Matches (RSeq _ _) _ _ |- _ =>
      let s := fresh "s" in
      apply seq_inv in H as (s & ? & ?)
  | H : Matches (RChar (CLit _)) _ _ |- _ =>
      apply lit_inv in H as (? & ?)
  | H : Matches (RChar (COneOf _)) _ _ |- _ =>
      let c := fresh "c" in
      apply char_inv in H as (c & ? & ? & ?)
  | H : Matches (RGroup _ _) _ _ |- _ =>
      let s := fresh "s" in let g := fresh "g" in
      apply group_inv in H as (s & g & ? & ? & ? & ?)
  | H : Matches RBol _ _ |- _ => apply bol_inv in H as (-> & ?)
  | H : Matches REol _ _ |- _ => apply eol_inv in H as (-> & ?)
  end.

Ltac chain_rest :=
  repeat match goal with
  | H1 : ms_rest ?a = ?X, H2 : ms_rest ?b = _ |- _ =>
      lazymatch X with context [ms_rest b] => rewrite H2 in H1 end
  end.

Ltac chain_caps :=
  repeat match goal with
  | H1 : ms_caps ?a = ?X, H2 : ms_caps ?b = _ |- _ =>
      lazymatch X with context [ms_caps b] => rewrite H2 in H1 end
  end.

(** The start of the proof for one rewrite: the match is taken apart
    into equations between the positions it passes, and these are
    combined into the shape of the input. *)
Ltac open_match r Hm :=
  let r' := eval vm_compute in r in
  change r with r' in Hm; split_match; chain_rest; chain_caps.



















(** The text of a group whose pattern is a fixed sequence. *)
Ltac group_shape g body :=
  match goal with
  | Hg : ms_rest ?a = g ++ ?tl, H : ms_rest ?a = ?X |- _ =>
      lazymatch X with
      | g ++ _ => fail
      | _ => idtac
      end;
      let Heq := fresh "Heq" in
      assert (Heq : g = body)
        by (apply (app_inv_tail tl); rewrite <- Hg, H; reflexivity);
      subst g
  end.






(** One list item of [re_items] starts with [<] and ends with [>]. *)
Lemma item_shape (s s' : MState) :
  Matches (RGroup 1 (rseq [rlit "<li>"; star (RChar CDot); rlit "</li>"])) s s' ->
  exists x, ms_rest s = (60%N :: x) ++ 62%N :: ms_rest s'.
Proof.
  intros Hm.
  open_match (RGroup 1 (rseq [rlit "<li>"; star (RChar CDot); rlit "</li>"])) Hm.
  match goal with
  | H : Matches (RRepeat false _ _) _ _ |- _ =>
      apply Matches_rest in H as (w & H)
  end.
  chain_rest.
  exists ([108; 105; 62]%N ++ w ++ [60; 47; 108; 105]%N).
  match goal with
  | Hg : ms_rest s = g ++ ms_rest s', H : ms_rest s = 60%N :: _ |- _ =>
      rewrite H
  end.
  repeat (simpl; rewrite <- ?app_assoc). reflexivity.
Qed.




(** Two texts and what [formatMarkdown] makes of them. *)
Example formatMarkdown_header_bold :
  formatMarkdown (JStr (lit "# Hi **<b>**")) =
    lit "<h1>Hi <strong>&lt;b&gt;</strong></h1>".
Proof. vm_compute. reflexivity. Qed.

Example formatMarkdown_list :
  formatMarkdown (JStr (lit "- a" ++ [10%N] ++ lit "- b `x`")) =
    lit "<ul><li>a</li></ul>" ++ [10%N] ++
    lit "<ul><li>b <code>x</code></li></ul>".
Proof. vm_compute. reflexivity. Qed.

(** C8, the failing input.  An event whose cause carries markup is put
    into the events table as it is, and so is the type of an issue in the
    issue cards, while the description of the same issue is escaped and
    the list of issues of the agentic result escapes the type. *)
Theorem event_cause_inserted_unescaped `{host : Host} :
  let e := sample_event 12 (JStr markup_payload) in
  let i := {| issue_type := markup_payload;
              issue_severity := JStr (lit "warning");
              issue_description := JStr markup_payload |} in
  let f := {| found_type := markup_payload;
              found_severity := JStr (lit "warning") |} in
  occurs_in (el "td" [] markup_payload) (displayEventsTable (sample_data [e] [])) /\
  occurs_in (el "span" (cls "issue-type") markup_payload)
    (displayIssues (sample_data [] [i])) /\
  occurs_in (el "div" (cls "issue-description")
               (lit "&lt;img src=x onerror=alert(1)&gt;"))
    (displayIssues (sample_data [] [i])) /\
  escapeHtml (JStr markup_payload) = lit "&lt;img src=x onerror=alert(1)&gt;" /\
  occurs_in (lit "&lt;img src=x onerror=alert(1)&gt;") (found_issue_html f) /\
  includes (found_issue_html f) (lit "<img") = false.
Proof.
  intros e i f. split; [|split; [|split; [|split; [|split]]]].
  - unfold displayEventsTable. cbn [sample_data events default length Nat.eqb].
    rewrite displayEvents_take. cbn [take map concat].
    apply occurs_app_r, occurs_app_r, occurs_app_l, occurs_app_l.
    unfold event_row. apply occurs_el.
    do 3 apply occurs_app_r. apply occurs_app_l. apply occurs_refl.
  - apply includes_spec. vm_compute. reflexivity.
  - apply includes_spec. vm_compute. reflexivity.
  - vm_compute. reflexivity.
  - apply includes_spec. vm_compute. reflexivity.
  - vm_compute. reflexivity.
Qed.

(** ** Examples of the zoom *)

Lemma zoom_range_invariant_witness :
  let allEvents := pause_events eight_pauses in
  let pg := displayResults_chart 890 eight_pauses zoom_initial in
  exists pg' : ChartPage,
    chart_step 890 allEvents pg (ZoomButton (lit "in")) = Some pg' /\
    page_ok 890 allEvents pg'.
Proof.
  intros allEvents pg.
  destruct (zoom_range_invariant 890 allEvents) as (Hstep & _ & _ & Hinit).
  apply Hstep. apply Hinit; [reflexivity|].
  intros Hdrag. vm_compute in Hdrag. discriminate.
Defined.

Example zoom_in_then_drag :
  let allEvents := pause_events eight_pauses in
  let pg := displayResults_chart 890 eight_pauses zoom_initial in
  match chart_step 890 allEvents pg (ZoomButton (lit "in")) with
  | Some pg1 =>
      (startIndex (pg_zoom pg1), endIndex (pg_zoom pg1)) = (2, Some 6) /\
      match chart_step 890 allEvents pg1 (MouseDown 270) with
      | Some pg2 =>
          match chart_step 890 allEvents pg2 (MouseUp 470) with
          | Some pg3 =>
              (startIndex (pg_zoom pg3), endIndex (pg_zoom pg3)) = (3, Some 4)
          | None => False
          end
      | None => False
      end
  | None => False
  end.
Proof. vm_compute. split; reflexivity. Qed.

(** ** The window of the pause chart *)

Section ZoomWindow.

Variable w : Z.
Variable allEvents : list GcEvent.

Let n : Z := Z.of_nat (length allEvents).

Lemma init_endIndex_set (z : Zoom) (e : Z) :
  endIndex z = Some e -> init_endIndex allEvents z = z.
Proof. intros H. unfold init_endIndex. now rewrite H. Qed.

Lemma visible_window (z : Zoom) (s e : Z) :
  startIndex z = s -> endIndex z = Some e -> 0 <= s -> s <= e -> e <= n ->
  visible_startIdx z = s /\ visible_endIdx allEvents z = e /\
  visible_events allEvents z = take (Z.to_nat (e - s)) (drop (Z.to_nat s) allEvents) /\
  Z.of_nat (length (visible_events allEvents z)) = e - s.
Proof.
  intros Hs He H0 Hse Hen.
  assert (H1 : visible_startIdx z = s) by (unfold visible_startIdx; lia).
  assert (H2 : visible_endIdx allEvents z = e).
  { unfold visible_endIdx. rewrite He. simpl. fold n. lia. }
  unfold visible_events. rewrite H1, H2.
  repeat split.
  - apply js_slice_range; assumption.
  - apply js_slice_range_length; assumption.
Qed.

(** The chart of a window that is not empty. *)
Lemma displayPauseChart_window (z : Zoom) (s e : Z) :
  startIndex z = s -> endIndex z = Some e -> 0 <= s -> s < e -> e <= n ->
  displayPauseChart w allEvents z =
    (z, PauseChart s e (take (Z.to_nat (e - s)) (drop (Z.to_nat s) allEvents))
          ((0 <? s) || (e <? n))
          (setupPauseChartInteraction allEvents (w - padding_left - padding_right) z)).
Proof.
  intros Hs He H0 Hse Hen.
  destruct (visible_window z s e Hs He H0 ltac:(lia) Hen) as (H1 & H2 & H3 & H4).
  rewrite displayPauseChart_eq.
  assert (Hlen : Nat.eqb (length allEvents) 0 = false).
  { apply Nat.eqb_neq. subst n. lia. }
  rewrite Hlen. cbv zeta. rewrite (init_endIndex_set z e He).
  assert (Hvis : Nat.eqb (length (visible_events allEvents z)) 0 = false).
  { apply Nat.eqb_neq. lia. }
  rewrite Hvis, H1, H2, H3. reflexivity.
Qed.

Lemma set_range_same (z : Zoom) (s e : Z) :
  startIndex z = s -> endIndex z = Some e -> set_range z s e = z.
Proof. destruct z; simpl; intros -> ->; reflexivity. Qed.

Lemma shown_window_ok (z : Zoom) :
  zoom_ok n z -> allEvents <> [] ->
  0 <= fst (shown_window allEvents z) /\ fst (shown_window allEvents z) < snd (shown_window allEvents z) /\
  snd (shown_window allEvents z) <= n.
Proof.
  intros Hz Hne.
  assert (Hn : 0 < n).
  { subst n. destruct allEvents; [contradiction|simpl; lia]. }
  unfold shown_window, zoom_ok in *. fold n.
  destruct (endIndex z) as [e|]; simpl.
  - destruct (Z.ltb_spec (startIndex z) e); simpl; lia.
  - rewrite Hz. destruct (Z.ltb_spec 0 n); simpl; lia.
Qed.

Lemma displayPauseChart_shown (z : Zoom) :
  zoom_ok n z -> allEvents <> [] ->
  let s := fst (shown_window allEvents z) in
  let e := snd (shown_window allEvents z) in
  displayPauseChart w allEvents z =
    (set_range z s e,
     PauseChart s e (take (Z.to_nat (e - s)) (drop (Z.to_nat s) allEvents))
       ((0 <? s) || (e <? n))
       (setupPauseChartInteraction allEvents (w - padding_left - padding_right)
          (set_range z s e))).
Proof.
  intros Hz Hne s e.
  destruct (shown_window_ok z Hz Hne) as (H0 & Hse & Hen). fold s e in H0, Hse, Hen.
  assert (Hn : 0 < n) by lia.
  pose proof (init_endIndex_ok w allEvents z Hz) as Hz1. fold n in Hz1.
  destruct (init_endIndex_some allEvents z) as [e1 He1].
  unfold zoom_ok in Hz1. rewrite He1 in Hz1. destruct Hz1 as (Hs0 & Hs1 & He1n).
  assert (Hstart : startIndex (init_endIndex allEvents z) = startIndex z).
  { unfold init_endIndex. now destruct (endIndex z). }
  assert (He1' : e1 = default n (endIndex z)).
  { unfold init_endIndex in He1. destruct (endIndex z) eqn:E; simpl in *.
    - rewrite E in He1. congruence.
    - fold n in He1. congruence. }
  assert (Hrange : forall a b, set_range (init_endIndex allEvents z) a b = set_range z a b).
  { intros a b. unfold init_endIndex. now destruct (endIndex z). }
  destruct (Z.ltb_spec (startIndex z) e1) as [Hlt|Hge].
  - assert (Hs : s = startIndex z).
    { subst s. unfold shown_window. fold n. rewrite <- He1'.
      now replace (startIndex z <? e1) with true by (symmetry; apply Z.ltb_lt; lia). }
    assert (He : e = e1).
    { subst e. unfold shown_window. fold n. rewrite <- He1'.
      now replace (startIndex z <? e1) with true by (symmetry; apply Z.ltb_lt; lia). }
    rewrite <- (Hrange s e).
    rewrite (set_range_same (init_endIndex allEvents z) s e) by congruence.
    rewrite displayPauseChart_eq.
    replace (Nat.eqb (length allEvents) 0) with false
      by (symmetry; apply Nat.eqb_neq; subst n; lia).
    cbv zeta.
    destruct (visible_window (init_endIndex allEvents z) s e) as (H1 & H2 & H3 & H4);
      try congruence; try lia.
    replace (Nat.eqb (length (visible_events allEvents (init_endIndex allEvents z))) 0)
      with false by (symmetry; apply Nat.eqb_neq; lia).
    rewrite H1, H2, H3. reflexivity.
  - assert (Hs : s = 0).
    { subst s. unfold shown_window. fold n. rewrite <- He1'.
      now replace (startIndex z <? e1) with false by (symmetry; apply Z.ltb_ge; lia). }
    assert (He : e = n).
    { subst e. unfold shown_window. fold n. rewrite <- He1'.
      now replace (startIndex z <? e1) with false by (symmetry; apply Z.ltb_ge; lia). }
    rewrite Hs, He.
    rewrite (displayPauseChart_empty_slice w allEvents z Hne).
    + cbv zeta. fold n. rewrite Hrange.
      rewrite Z.sub_0_r. simpl (Z.to_nat 0). rewrite drop_0.
      subst n. rewrite Nat2Z.id, firstn_all. rewrite !Z.ltb_irrefl. reflexivity.
    + destruct (visible_window (init_endIndex allEvents z) (startIndex z) e1)
        as (_ & _ & _ & H4); try congruence; try lia.
      apply nil_length_inv. lia.
Qed.

Lemma zoomPauseChart_in (z : Zoom) (s e : Z) :
  zoom_ok n z -> startIndex z = s -> endIndex z = Some e -> s < e ->
  let a := (e - s) / 4 in
  fst (zoomPauseChart w allEvents (lit "in") z) = set_range z (s + a) (e - a) /\
  0 <= a /\ s + a < e - a /\ e - s <= 2 * (e - a - (s + a)).
Proof.
  intros Hz Hs He Hse a.
  unfold zoom_ok in Hz. rewrite He, Hs in Hz. destruct Hz as (H0 & _ & Hen).
  assert (Ha : 0 <= a) by (apply Z.div_pos; lia).
  assert (Ha4 : 4 * a <= e - s) by (apply Z.mul_div_le; lia).
  assert (Ha4' : e - s < 4 * a + 4).
  { pose proof (Z.mul_succ_div_gt (e - s) 4 ltac:(lia)). fold a in H. lia. }
  split; [|lia].
  unfold zoomPauseChart. rewrite decide_True by reflexivity.
  rewrite He, Hs.
  replace (e =? 0) with false by (symmetry; apply Z.eqb_neq; lia).
  cbv zeta. fold a.
  rewrite (displayPauseChart_window (set_range z (s + a) (e - a)) (s + a) (e - a));
    try reflexivity; lia.
Qed.

Lemma zoomPauseChart_out (z : Zoom) (s e : Z) :
  zoom_ok n z -> startIndex z = s -> endIndex z = Some e -> s < e ->
  let b := (e - s) / 2 in
  fst (zoomPauseChart w allEvents (lit "out") z) =
    set_range z (Z.max 0 (s - b)) (Z.min n (e + b)) /\
  0 <= b /\ 2 * b <= e - s /\ e - s < 2 * b + 2.
Proof.
  intros Hz Hs He Hse b.
  unfold zoom_ok in Hz. rewrite He, Hs in Hz. destruct Hz as (H0 & _ & Hen).
  assert (Hb : 0 <= b) by (apply Z.div_pos; lia).
  assert (Hb2 : 2 * b <= e - s) by (apply Z.mul_div_le; lia).
  assert (Hb2' : e - s < 2 * b + 2).
  { pose proof (Z.mul_succ_div_gt (e - s) 2 ltac:(lia)). fold b in H. lia. }
  split; [|lia].
  unfold zoomPauseChart.
  rewrite decide_False by (vm_compute; discriminate).
  rewrite decide_True by reflexivity.
  rewrite He, Hs.
  replace (e =? 0) with false by (symmetry; apply Z.eqb_neq; lia).
  cbv zeta. fold b. fold n.
  rewrite (displayPauseChart_window
             (set_range z (Z.max 0 (s - b)) (Z.min n (e + b)))
             (Z.max 0 (s - b)) (Z.min n (e + b)));
    try reflexivity; lia.
Qed.

(** X2.  The chart shows the window of the zoom state.  For a state that
    satisfies the invariant, the displayed chart carries the indices of
    the state, these bound a window of the events that is not empty, the
    bars are the events of that window in order (so the bar [i] is the
    event at index [startIdx + i] of the full list), the zoom buttons
    are marked as zoomed exactly when something is left out, and the
    mouse handlers have captured the same events. *)
Theorem pause_chart_shows_window (z : Zoom) :
  zoom_ok n z ->
  match displayPauseChart w allEvents z with
  | (z', NoPauseData) => allEvents = [] /\ z' = z
  | (z', PauseChart s e shown zoomed h) =>
      startIndex z' = s /\ endIndex z' = Some e /\
      0 <= s /\ s < e /\ e <= n /\
      shown = take (Z.to_nat (e - s)) (drop (Z.to_nat s) allEvents) /\
      Z.of_nat (length shown) = e - s /\
      (forall (i : nat) (ev : GcEvent),
         shown !! i = Some ev -> allEvents !! (Z.to_nat s + i)%nat = Some ev) /\
      (zoomed = false <-> shown = allEvents) /\
      cap_startIdx h = s /\ cap_visibleEvents h = shown
  end.
Proof.
  intros Hz.
  destruct (decide (allEvents = [])) as [Hnil|Hne].
  - rewrite displayPauseChart_eq, Hnil. simpl. split; reflexivity.
  - rewrite (displayPauseChart_shown z Hz Hne). cbv zeta.
    destruct (shown_window_ok z Hz Hne) as (H0 & Hse & Hen).
    set (s := fst (shown_window allEvents z)) in *.
    set (e := snd (shown_window allEvents z)) in *.
    assert (Hlen : Z.of_nat (length (take (Z.to_nat (e - s))
                                       (drop (Z.to_nat s) allEvents))) = e - s).
    { rewrite length_take, length_drop. subst n. lia. }
    split; [reflexivity|]. split; [reflexivity|].
    split; [exact H0|]. split; [exact Hse|]. split; [exact Hen|].
    split; [reflexivity|]. split; [exact Hlen|]. split; [|split; [|split]].
    + intros i ev Hi. apply lookup_take_Some in Hi as [Hi _].
      now rewrite lookup_drop in Hi.
    + rewrite orb_false_iff, Z.ltb_ge, Z.ltb_ge. split.
      * intros [Hs He]. assert (s = 0) as -> by lia. assert (e = n) as -> by lia.
        rewrite Z.sub_0_r. simpl (Z.to_nat 0). rewrite drop_0.
        subst n. rewrite Nat2Z.id. apply firstn_all.
      * intros Heq. rewrite Heq in Hlen. fold n in Hlen. lia.
    + reflexivity.
    + simpl. apply js_slice_range; lia.
Qed.

(** X3.  Displaying the chart again changes nothing: the state that
    [displayPauseChart] leaves is a fixed point of it, so showing the
    overview tab again gives the same chart, whatever the state was. *)
Theorem displayPauseChart_idempotent (z : Zoom) :
  displayPauseChart w allEvents (fst (displayPauseChart w allEvents z)) =
  displayPauseChart w allEvents z.
Proof.
  destruct (Nat.eqb (length allEvents) 0) eqn:Hlen.
  { rewrite (displayPauseChart_eq w allEvents z), Hlen. cbn [fst].
    now rewrite displayPauseChart_eq, Hlen. }
  assert (Hne : allEvents <> []) by (intros E; rewrite E in Hlen; discriminate).
  destruct (Nat.eqb (length (visible_events allEvents (init_endIndex allEvents z))) 0)
    eqn:Hvis.
  - apply Nat.eqb_eq, nil_length_inv in Hvis.
    rewrite (displayPauseChart_empty_slice w allEvents z Hne Hvis).
    cbv zeta. cbn [fst].
    rewrite displayPauseChart_eq, Hlen. cbv zeta.
    rewrite (init_endIndex_set _ n) by reflexivity.
    rewrite visible_full, Hlen.
    unfold visible_startIdx, visible_endIdx. cbn [set_range startIndex endIndex default].
    rewrite Z.max_id, Z.min_id, !Z.ltb_irrefl. reflexivity.
  - rewrite (displayPauseChart_eq w allEvents z), Hlen. cbv zeta. rewrite Hvis.
    cbn [fst].
    destruct (init_endIndex_some allEvents z) as [e He].
    rewrite displayPauseChart_eq, Hlen. cbv zeta.
    rewrite (init_endIndex_set _ e He), Hvis. reflexivity.
Qed.

(** X4.  Zooming in keeps the middle of the window: a quarter of the visible
    events (rounded down) is cut off at each end, so the new window lies
    inside the old one, is not empty and keeps at least half of it.
    Zooming out adds half of the visible count (rounded down) at each
    end, up to the ends of the data, so the old window lies inside the
    new one; with a single visible event it changes nothing, and with
    two or more it shows more unless everything is shown already. *)
Theorem zoom_in_narrows_zoom_out_widens (z : Zoom) (s e : Z) :
  zoom_ok n z -> startIndex z = s -> endIndex z = Some e -> s < e ->
  let zin := fst (zoomPauseChart w allEvents (lit "in") z) in
  let zout := fst (zoomPauseChart w allEvents (lit "out") z) in
  (exists s1 e1,
     startIndex zin = s1 /\ endIndex zin = Some e1 /\
     s1 = s + (e - s) / 4 /\ e1 = e - (e - s) / 4 /\
     s <= s1 /\ s1 < e1 /\ e1 <= e /\ e - s <= 2 * (e1 - s1)) /\
  (exists s2 e2,
     startIndex zout = s2 /\ endIndex zout = Some e2 /\
     s2 = Z.max 0 (s - (e - s) / 2) /\ e2 = Z.min n (e + (e - s) / 2) /\
     s2 <= s /\ e <= e2 /\ e2 <= n /\
     (e - s = 1 -> s2 = s /\ e2 = e) /\
     (2 <= e - s -> 0 < s \/ e < n -> e - s < e2 - s2)).
Proof.
  intros Hz Hs He Hse zin zout.
  pose proof Hz as Hz'. unfold zoom_ok in Hz'. rewrite He, Hs in Hz'.
  destruct Hz' as (H0 & _ & Hen).
  destruct (zoomPauseChart_in z s e Hz Hs He Hse) as (Hin & Ha & Hlt & Hhalf).
  destruct (zoomPauseChart_out z s e Hz Hs He Hse) as (Hout & Hb & Hb2 & Hb2').
  split.
  - exists (s + (e - s) / 4), (e - (e - s) / 4).
    subst zin. rewrite Hin. cbn [set_range startIndex endIndex].
    repeat split; lia.
  - exists (Z.max 0 (s - (e - s) / 2)), (Z.min n (e + (e - s) / 2)).
    subst zout. rewrite Hout. cbn [set_range startIndex endIndex].
    repeat split; lia.
Qed.

(** X5.  Zooming in and then out shows again everything that was shown
    before: the window after the two steps contains the window before
    them. *)
Theorem zoom_in_then_out_covers (z : Zoom) (s e : Z) :
  zoom_ok n z -> startIndex z = s -> endIndex z = Some e -> s < e ->
  let z1 := fst (zoomPauseChart w allEvents (lit "in") z) in
  let z2 := fst (zoomPauseChart w allEvents (lit "out") z1) in
  exists s2 e2,
    startIndex z2 = s2 /\ endIndex z2 = Some e2 /\
    0 <= s2 /\ s2 <= s /\ e <= e2 /\ e2 <= n.
Proof.
  intros Hz Hs He Hse z1 z2.
  pose proof Hz as Hz'. unfold zoom_ok in Hz'. rewrite He, Hs in Hz'.
  destruct Hz' as (H0 & _ & Hen).
  destruct (zoomPauseChart_in z s e Hz Hs He Hse) as (Hin & Ha & Hlt & Hhalf).
  set (a := (e - s) / 4) in *.
  assert (Hz1 : zoom_ok n z1).
  { subst z1. rewrite Hin. unfold zoom_ok. cbn [set_range startIndex endIndex]. lia. }
  assert (Hs1 : startIndex z1 = s + a) by (subst z1; now rewrite Hin).
  assert (He1 : endIndex z1 = Some (e - a)) by (subst z1; now rewrite Hin).
  destruct (zoomPauseChart_out z1 (s + a) (e - a) Hz1 Hs1 He1 Hlt)
    as (Hout & Hb & Hb2 & Hb2').
  set (b := (e - a - (s + a)) / 2) in *.
  exists (Z.max 0 (s + a - b)), (Z.min n (e - a + b)).
  subst z2. rewrite Hout. cbn [set_range startIndex endIndex].
  repeat split; lia.
Qed.

Let cw : Z := w - padding_left - padding_right.



End ZoomWindow.

Lemma displayResults_chart_full (w : Z) (evs : list GcEvent) (z : Zoom) :
  let allEvents := pause_events evs in
  let n := Z.of_nat (length allEvents) in
  let pg := displayResults_chart w evs z in
  match allEvents with
  | [] => pg_view pg = NoPauseData
  | _ :: _ =>
      startIndex (pg_zoom pg) = 0 /\ endIndex (pg_zoom pg) = Some n /\
      exists h, pg_view pg = PauseChart 0 n allEvents false h
  end.
Proof.
  intros allEvents n pg. subst pg. unfold displayResults_chart. fold allEvents.
  set (z0 := {| startIndex := 0; endIndex := None;
                isDragging := isDragging z; dragStartX := dragStartX z |}).
  clearbody allEvents.
  destruct (decide (allEvents = [])) as [->|Hne].
  - rewrite displayPauseChart_eq. reflexivity.
  - assert (Hz0 : zoom_ok (Z.of_nat (length allEvents)) z0) by reflexivity.
    rewrite (displayPauseChart_shown w allEvents z0 Hz0 Hne). cbv zeta.
    assert (Hwin : shown_window allEvents z0 = (0, n)).
    { unfold shown_window. cbn [z0 startIndex endIndex]. simpl default. fold n.
      now destruct (0 <? n). }
    rewrite Hwin. cbn [fst snd page_of pg_zoom pg_view set_range startIndex endIndex].
    rewrite Z.sub_0_r. simpl (Z.to_nat 0). rewrite drop_0.
    subst n. rewrite Nat2Z.id, firstn_all, !Z.ltb_irrefl.
    destruct allEvents; [contradiction|]. simpl orb. eauto.
Qed.

(** X7.  New data is shown in full.  [displayResults] resets the window, so
    the chart of a new analysis shows every event with a pause and is
    not zoomed, whatever window the previous data was left in; without
    such events the chart is the empty-state message. *)
Theorem new_data_shows_all_pauses (w : Z) (evs : list GcEvent) (z : Zoom) :
  let allEvents := pause_events evs in
  let n := Z.of_nat (length allEvents) in
  let pg := displayResults_chart w evs z in
  match allEvents with
  | [] => pg_view pg = NoPauseData
  | _ :: _ =>
      startIndex (pg_zoom pg) = 0 /\ endIndex (pg_zoom pg) = Some n /\
      exists h, pg_view pg = PauseChart 0 n allEvents false h
  end.
Proof. exact (displayResults_chart_full w evs z). Qed.

Lemma pause_chart_shows_window_witness :
  let z := set_range zoom_initial 2 6 in
  zoom_ok 8 z /\
  match displayPauseChart 890 eight_pauses z with
  | (z', NoPauseData) => eight_pauses = [] /\ z' = z
  | (z', PauseChart s e shown zoomed h) =>
      startIndex z' = s /\ endIndex z' = Some e /\
      0 <= s /\ s < e /\ e <= 8 /\
      shown = take (Z.to_nat (e - s)) (drop (Z.to_nat s) eight_pauses) /\
      Z.of_nat (length shown) = e - s /\
      (forall (i : nat) (ev : GcEvent),
         shown !! i = Some ev -> eight_pauses !! (Z.to_nat s + i)%nat = Some ev) /\
      (zoomed = false <-> shown = eight_pauses) /\
      cap_startIdx h = s /\ cap_visibleEvents h = shown
  end.
Proof.
  intros z.
  assert (Hz : zoom_ok (Z.of_nat (length eight_pauses)) z)
    by (unfold zoom_ok; simpl; lia).
  split; [exact Hz|].
  exact (pause_chart_shows_window 890 eight_pauses z Hz).
Defined.

Lemma zoom_in_narrows_zoom_out_widens_witness :
  let z := set_range zoom_initial 2 7 in
  let zin := fst (zoomPauseChart 890 eight_pauses (lit "in") z) in
  let zout := fst (zoomPauseChart 890 eight_pauses (lit "out") z) in
  (startIndex zin = 3 /\ endIndex zin = Some 6) /\
  (startIndex zout = 0 /\ endIndex zout = Some 8).
Proof.
  intros z zin zout.
  assert (Hz : zoom_ok (Z.of_nat (length eight_pauses)) z)
    by (unfold zoom_ok; simpl; lia).
  destruct (zoom_in_narrows_zoom_out_widens 890 eight_pauses z 2 7 Hz
              eq_refl eq_refl ltac:(lia))
    as ((s1 & e1 & H1 & H2 & H3 & H4 & _) & (s2 & e2 & H5 & H6 & H7 & H8 & _)).
  subst zin zout. rewrite H1, H2, H5, H6, H3, H4, H7, H8.
  repeat split.
Defined.

Lemma zoom_in_then_out_covers_witness :
  let z := set_range zoom_initial 2 7 in
  let z1 := fst (zoomPauseChart 890 eight_pauses (lit "in") z) in
  let z2 := fst (zoomPauseChart 890 eight_pauses (lit "out") z1) in
  exists s2 e2,
    startIndex z2 = s2 /\ endIndex z2 = Some e2 /\
    0 <= s2 /\ s2 <= 2 /\ 7 <= e2 /\ e2 <= 8.
Proof.
  intros z z1 z2.
  assert (Hz : zoom_ok (Z.of_nat (length eight_pauses)) z)
    by (unfold zoom_ok; simpl; lia).
  exact (zoom_in_then_out_covers 890 eight_pauses z 2 7 Hz eq_refl eq_refl
           ltac:(lia)).
Defined.


(** ** The distribution chart *)

Lemma maxCount_ge (dist : gmap jsstring N) (b : jsstring) (c : N) :
  dist !! b = Some c -> exists m, maxCount dist = Some m /\ (c <= m)%N.
Proof.
  intros Hb. apply elem_of_map_to_list in Hb. unfold maxCount.
  induction (map_to_list dist) as [|kv l IH]; [inversion Hb|].
  simpl. apply elem_of_cons in Hb as [<-|Hin].
  - simpl. destruct (foldr _ None l); eexists; split; try reflexivity; lia.
  - destruct (IH Hin) as (m & -> & Hm).
    eexists; split; [reflexivity|]. lia.
Qed.

Lemma dist_bar_pct (dist : gmap jsstring N) (bucket : jsstring) :
  (0 <= bar_pct (dist_bar dist bucket))%Q /\
  (bar_pct (dist_bar dist bucket) <= 100)%Q.
Proof.
  unfold dist_bar. cbn [bar_pct].
  destruct (dist !! bucket) as [c|] eqn:Hb.
  - destruct (maxCount_ge dist bucket c Hb) as (m & -> & Hm). simpl default.
    destruct (N.ltb_spec 0 m) as [Hpos|_]; [|split; discriminate].
    assert (Hm' : (0 < inject_Z (Z.of_N m))%Q).
    { change 0%Q with (inject_Z 0). rewrite <- Zlt_Qlt. lia. }
    assert (Hc0 : (0 <= inject_Z (Z.of_N c))%Q).
    { change 0%Q with (inject_Z 0). rewrite <- Zle_Qle. lia. }
    assert (Hcm : (inject_Z (Z.of_N c) <= inject_Z (Z.of_N m))%Q).
    { rewrite <- Zle_Qle. lia. }
    assert (Hq0 : (0 <= inject_Z (Z.of_N c) / inject_Z (Z.of_N m))%Q).
    { apply Qle_shift_div_l; [exact Hm'|]. now rewrite Qmult_0_l. }
    assert (Hq1 : (inject_Z (Z.of_N c) / inject_Z (Z.of_N m) <= 1)%Q).
    { apply Qle_shift_div_r; [exact Hm'|]. now rewrite Qmult_1_l. }
    revert Hq0 Hq1. generalize (inject_Z (Z.of_N c) / inject_Z (Z.of_N m))%Q.
    intros q Hq0 Hq1. split; lra.
  - simpl default. destruct (maxCount dist) as [m|]; [|split; discriminate].
    destruct (0 <? m)%N; [|split; discriminate].
    change (inject_Z (Z.of_N 0)) with 0%Q. split.
    + unfold Qdiv. rewrite !Qmult_0_l. discriminate.
    + unfold Qdiv. rewrite !Qmult_0_l. discriminate.
Qed.

(** X8.  The bars of the distribution stay inside their track: the width of
    every bar is between 0% and 100%, whatever the distribution holds
    (also when a key outside the six buckets has the largest count).  A
    bucket that counts 0 has the width 0, and a bar whose count is the
    largest value of the distribution (and not 0) is 100% wide. *)
Theorem distribution_bars_within_track (dist : gmap jsstring N) :
  Forall (fun b =>
            (0 <= bar_pct b)%Q /\ (bar_pct b <= 100)%Q /\
            (bar_count b = 0%N -> (bar_pct b == 0)%Q) /\
            (match maxCount dist with
             | Some m => (0 < m)%N /\ bar_count b = m
             | None => False
             end -> (bar_pct b == 100)%Q))
         (dist_bars dist).
Proof.
  unfold dist_bars. apply Forall_map, Forall_forall. intros bucket _.
  destruct (dist_bar_pct dist bucket) as [H0 H100].
  split; [exact H0|]. split; [exact H100|].
  unfold dist_bar. cbn [bar_pct bar_count]. split.
  - intros ->. destruct (maxCount dist) as [m|]; [|reflexivity].
    destruct (0 <? m)%N; [|reflexivity].
    change (inject_Z (Z.of_N 0)) with 0%Q.
    unfold Qdiv. rewrite !Qmult_0_l. reflexivity.
  - destruct (maxCount dist) as [m|]; [|contradiction].
    intros [Hpos ->].
    replace (0 <? m)%N with true by (symmetry; now apply N.ltb_lt).
    assert (Hm' : ~ (inject_Z (Z.of_N m) == 0)%Q).
    { intros E. unfold Qeq in E. simpl in E. lia. }
    field. exact Hm'.
Qed.

(** ** More on the AI panel *)

Lemma trim_start_nil (s : jsstring) :
  trim_start s = [] <-> Forall (fun c => is_js_whitespace c = true) s.
Proof.
  induction s as [|c s IH]; simpl.
  - split; [constructor|reflexivity].
  - destruct (is_js_whitespace c) eqn:Hc.
    + rewrite IH. split; [now constructor|now inversion 1].
    + split; [discriminate|]. inversion 1; congruence.
Qed.

Lemma trim_start_head (s : jsstring) (c : N) (rest : jsstring) :
  trim_start s = c :: rest -> is_js_whitespace c = false.
Proof.
  induction s as [|d s IH]; simpl; [discriminate|].
  destruct (is_js_whitespace d) eqn:Hd; [exact IH|].
  intros E. injection E as -> _. exact Hd.
Qed.

Lemma trim_nil (s : jsstring) :
  trim s = [] <-> Forall (fun c => is_js_whitespace c = true) s.
Proof.
  rewrite <- trim_start_nil. unfold trim. split.
  - intros H. apply (f_equal (@rev N)) in H. rewrite rev_involutive in H.
    simpl in H. apply trim_start_nil in H. apply Forall_rev in H.
    rewrite rev_involutive in H.
    destruct (trim_start s) as [|c rest] eqn:E; [reflexivity|].
    apply trim_start_head in E. inversion H; congruence.
  - intros ->. reflexivity.
Qed.

Section AiPanelMore.

Context `{host : Host}.
Variable net : Request -> FetchOutcome.


(** X9.  The chat sends a question exactly when the input holds a character
    that is not white space: an input of white space only (or an empty
    one) issues no request and leaves the page as it is, any other input
    issues one request. *)
Theorem chat_sends_unless_blank (data : option AnalysisData) (now : Z) (p : Page) :
  (Forall (fun c => is_js_whitespace c = true) (chat_input_value p) ->
     sendChatMessage net data now p = (Done tt, p)) /\
  (issued (sendChatMessage net data now) p = [] <->
     Forall (fun c => is_js_whitespace c = true) (chat_input_value p)).
Proof.
  split.
  - intros Hws. apply sendChat_empty. now apply trim_nil.
  - rewrite <- trim_nil. split.
    + intros Hnone.
      destruct (trim (chat_input_value p)) as [|c q] eqn:Hq; [reflexivity|].
      assert (Hne : trim (chat_input_value p) <> []) by (rewrite Hq; discriminate).
      destruct (sendChat_sent net data now p Hne) as (_ & Hreq & _).
      apply issued_app in Hreq. rewrite Hreq in Hnone. discriminate.
    + intros Hq. unfold issued. rewrite (sendChat_empty net data now p Hq).
      simpl. apply drop_all.
Qed.


(** X11.  The model badge changes only with a result: when the reply of an
    analysis has no truthy error and names a model, the badge shows that
    model; when the reply reports an error or names no model, or the
    request or the reading of its reply fails, the badge keeps its text.
    The automatic analysis does the same when it runs at all. *)
Theorem model_badge_only_from_result (data : option AnalysisData) (p : Page) :
  let shown (o : FetchOutcome) :=
    match o with
    | Fulfilled _ (ParsedObject reply) =>
        if truthy (error reply) then ai_model_badge p
        else if truthy (model reply) then ToString (model reply)
        else ai_model_badge p
    | _ => ai_model_badge p
    end in
  ai_model_badge (snd (runAIAnalysis net data p)) =
    shown (net (quick_request data)) /\
  ai_model_badge (snd (runAgenticAnalysis net data p)) =
    shown (net (agentic_request data)) /\
  ai_model_badge (snd (autoStartAgenticAnalysis net data p)) =
    if health_available net then shown (net (agentic_request data))
    else ai_model_badge p.
Proof.
  intros shown. subst shown. split; [|split].
  - unfold runAIAnalysis. js_cases; reflexivity.
  - unfold runAgenticAnalysis. js_cases; reflexivity.
  - unfold autoStartAgenticAnalysis, health_available. js_run.
    destruct (net health_request) as [msg|ok js]; js_run; [reflexivity|].
    destruct ok; js_run; [|reflexivity].
    destruct js as [msg| |r]; js_run; try reflexivity.
    destruct (truthy (available r)); js_run; [|reflexivity].
    js_cases; reflexivity.
Qed.

End AiPanelMore.


(** ** Escaping *)

Lemma serialize_text_cons (c : N) (s : jsstring) :
  serialize_text (c :: s) = escape_unit c ++ serialize_text s.
Proof. reflexivity. Qed.

Lemma escape_unit_inj (a b : N) (x y : jsstring) :
  escape_unit a ++ x = escape_unit b ++ y -> a = b /\ x = y.
Proof.
  unfold escape_unit.
  destruct (N.eqb_spec a 38) as [->|Ha1]; [|
  destruct (N.eqb_spec a 160) as [->|Ha2]; [|
  destruct (N.eqb_spec a 60) as [->|Ha3]; [|
  destruct (N.eqb_spec a 62) as [->|Ha4]]]];
  (destruct (N.eqb_spec b 38) as [->|Hb1]; [|
   destruct (N.eqb_spec b 160) as [->|Hb2]; [|
   destruct (N.eqb_spec b 60) as [->|Hb3]; [|
   destruct (N.eqb_spec b 62) as [->|Hb4]]]]);
  intros H; vm_compute in H;
  try (injection H; intros; subst; first [split; reflexivity | congruence]);
  try discriminate H.
Qed.

Lemma serialize_text_length (s : jsstring) :
  (length s <= length (serialize_text s))%nat.
Proof.
  induction s as [|c s IH]; [reflexivity|].
  rewrite serialize_text_cons, length_app. simpl.
  assert (1 <= length (escape_unit c))%nat; [|lia].
  unfold escape_unit. repeat (destruct (_ =? _)%N); simpl; lia.
Qed.

Lemma serialize_text_inj (a b : jsstring) :
  serialize_text a = serialize_text b -> a = b.
Proof.
  revert b. induction a as [|c a IH]; intros [|d b] H.
  - reflexivity.
  - rewrite serialize_text_cons in H. exfalso. revert H. unfold escape_unit.
    repeat (destruct (_ =? _)%N); discriminate.
  - rewrite serialize_text_cons in H. exfalso. revert H. unfold escape_unit.
    repeat (destruct (_ =? _)%N); discriminate.
  - rewrite !serialize_text_cons in H.
    apply escape_unit_inj in H as [-> H]. f_equal. now apply IH.
Qed.

(** X12.  What [escapeHtml] gives for a text has no angle bracket, so it holds
    no tag; it determines the text, so two texts are never shown alike;
    and a text without ampersand, angle bracket and no-break space is
    left as it is. *)
Theorem escapeHtml_keeps_text :
  (forall v : JsVal,
     Forall (fun c => c <> 60%N /\ c <> 62%N) (escapeHtml v)) /\
  (forall a b : jsstring, escapeHtml (JStr a) = escapeHtml (JStr b) <-> a = b) /\
  (forall s : jsstring,
     Forall (fun c => c <> 38%N /\ c <> 160%N /\ c <> 60%N /\ c <> 62%N) s <->
     escapeHtml (JStr s) = s).
Proof.
  assert (Hstr : forall s, escapeHtml (JStr s) = serialize_text s).
  { intros [|c s]; reflexivity. }
  split; [exact escapeHtml_no_angle|]. split.
  - intros a b. rewrite !Hstr. split; [apply serialize_text_inj|now intros ->].
  - intros s. rewrite Hstr. induction s as [|c s IH].
    + split; [reflexivity|constructor].
    + rewrite serialize_text_cons. split.
      * inversion 1 as [|? ? (H1 & H2 & H3 & H4) Hs]; subst.
        unfold escape_unit.
        rewrite (proj2 (N.eqb_neq c 38) H1), (proj2 (N.eqb_neq c 160) H2),
                (proj2 (N.eqb_neq c 60) H3), (proj2 (N.eqb_neq c 62) H4).
        simpl. f_equal. now apply IH.
      * intros H.
        assert (Hlen : (length s <= length (serialize_text s))%nat)
          by apply serialize_text_length.
        apply (f_equal (@length N)) in H as Hl.
        rewrite length_app in Hl. simpl in Hl.
        assert (Hone : (length (escape_unit c) <= 1)%nat) by lia.
        revert H Hone. unfold escape_unit.
        destruct (N.eqb_spec c 38); [simpl; lia|].
        destruct (N.eqb_spec c 160); [simpl; lia|].
        destruct (N.eqb_spec c 60); [simpl; lia|].
        destruct (N.eqb_spec c 62); [simpl; lia|].
        intros H _. injection H as H.
        constructor; [repeat split; assumption|now apply IH].
Qed.

(** ** Severity of a pause *)

(** X13.  The badge of the events table and the colour of the chart agree on
    the longest pauses, and the badge follows the length of the pause: a
    longer pause never gets the badge of a shorter class, an event
    without a pause counts as fast, and a bar is red exactly when the
    event is a full collection or its badge is the critical one. *)
Theorem pause_badge_follows_length :
  (forall q1 q2 : Q,
     (q1 <= q2)%Q ->
     (badge_rank (getPauseBadgeClass (Some q1)) <=
      badge_rank (getPauseBadgeClass (Some q2)))%nat) /\
  getPauseBadgeClass None = lit "fast" /\
  (forall e : GcEvent,
     pause_color e = lit "#f85149" <->
     is_full_gc e = true \/ getPauseBadgeClass (pause_ms e) = lit "critical").
Proof.
  split; [|split].
  - intros q1 q2 Hle. unfold getPauseBadgeClass, num_falsy, num_le.
    assert (R0 : badge_rank (lit "fast") = 0%nat) by reflexivity.
    assert (R1 : badge_rank (lit "normal") = 1%nat) by reflexivity.
    assert (R2 : badge_rank (lit "slow") = 2%nat) by reflexivity.
    assert (R3 : badge_rank (lit "critical") = 3%nat) by reflexivity.
    assert (Hz : forall q, Qle_bool q 10 = false -> Qeq_bool q 0 = false).
    { intros q Hq. apply not_true_iff_false. rewrite Qeq_bool_iff.
      apply not_true_iff_false in Hq. rewrite Qle_bool_iff in Hq.
      intros E. apply Hq. rewrite E. discriminate. }
    assert (Hup : forall k, Qle_bool q1 k = false -> Qle_bool q2 k = false).
    { intros k Hk. apply not_true_iff_false. apply not_true_iff_false in Hk.
      rewrite Qle_bool_iff in *. intros H. apply Hk. lra. }
    destruct (Qle_bool q1 10) eqn:A1.
    { rewrite orb_true_r, R0. lia. }
    rewrite (Hup 10%Q A1), (Hz q1 A1), (Hz q2 (Hup 10%Q A1)). simpl orb. cbv iota.
    destruct (Qle_bool q1 100) eqn:B1.
    { rewrite R1. destruct (Qle_bool q2 100); [|destruct (Qle_bool q2 500)];
        rewrite ?R1, ?R2, ?R3; lia. }
    rewrite (Hup 100%Q B1).
    destruct (Qle_bool q1 500) eqn:C1.
    { rewrite R2. destruct (Qle_bool q2 500); rewrite ?R2, ?R3; lia. }
    rewrite (Hup 500%Q C1). lia.
  - reflexivity.
  - intros e. unfold pause_color, getPauseBadgeClass, num_gt, num_falsy, num_le.
    destruct (is_full_gc e); [split; [now left|reflexivity]|].
    destruct (pause_ms e) as [q|]; simpl.
    2:{ split; [discriminate|intros [H|H]; discriminate]. }
    destruct (Qle_bool q 500) eqn:C; simpl.
    + split.
      * destruct (Qle_bool q 200); simpl; [|discriminate].
        destruct (Qle_bool q 50); discriminate.
      * intros [H|H]; [discriminate|]. revert H.
        destruct (Qeq_bool q 0 || Qle_bool q 10); [discriminate|].
        destruct (Qle_bool q 100); discriminate.
    + split; [|reflexivity]. intros _. right.
      assert (H10 : Qle_bool q 10 = false).
      { apply not_true_iff_false in C. apply not_true_iff_false.
        rewrite Qle_bool_iff in *. intros H. apply C. lra. }
      assert (H100 : Qle_bool q 100 = false).
      { apply not_true_iff_false in C. apply not_true_iff_false.
        rewrite Qle_bool_iff in *. intros H. apply C. lra. }
      assert (H0 : Qeq_bool q 0 = false).
      { apply not_true_iff_false in C. apply not_true_iff_false.
        rewrite Qeq_bool_iff. rewrite Qle_bool_iff in C.
        intros E. apply C. rewrite E. discriminate. }
      now rewrite H0, H10, H100.
Qed.

(** ** Uptime *)

Lemma js_rem_nonneg (a : Q) (d : Z) :
  (0 < d)%Z -> (0 <= a)%Q ->
  js_rem a (inject_Z d) = (a - inject_Z d * inject_Z (Qfloor (a / inject_Z d)))%Q.
Proof.
  intros Hd Ha. unfold js_rem.
  replace (Qle_bool 0 (a / inject_Z d)) with true; [reflexivity|].
  symmetry. apply Qle_bool_iff. apply Qle_shift_div_l.
  - change 0%Q with (inject_Z 0). now rewrite <- Zlt_Qlt.
  - now rewrite Qmult_0_l.
Qed.

Ltac q_consts :=
  unfold Qdiv in *;
  change (inject_Z 3600) with 3600%Q in *;
  change (inject_Z 60) with 60%Q in *;
  change (inject_Z 1) with 1%Q in *;
  change (inject_Z 0) with 0%Q in *;
  change (/ 3600)%Q with (1 # 3600)%Q in *;
  change (/ 60)%Q with (1 # 60)%Q in *.

Section Uptime.

Context `{host : Host}.

(** X14.  An uptime is shown with its largest units.  Below a minute it is
    the seconds with one decimal.  From a minute to an hour it is whole
    minutes [m] and whole seconds [r] with [60 m + r <= seconds <
    60 m + r + 1], [1 <= m <= 59] and [0 <= r <= 59].  From an hour on it
    is whole hours [h] and whole minutes [m] with [3600 h + 60 m <=
    seconds < 3600 h + 60 m + 60] and [0 <= m <= 59]: the seconds are
    dropped. *)
Theorem formatUptime_parts (seconds : Q) :
  ((seconds < 60)%Q -> formatUptime seconds = toFixed seconds 1 ++ lit "s") /\
  ((60 <= seconds)%Q -> (seconds < 3600)%Q ->
   exists m r : Z,
     formatUptime seconds =
       numberToString (inject_Z m) ++ lit "m " ++
       numberToString (inject_Z r) ++ lit "s" /\
     1 <= m <= 59 /\ 0 <= r <= 59 /\
     (inject_Z (60 * m + r) <= seconds)%Q /\
     (seconds < inject_Z (60 * m + r + 1))%Q) /\
  ((3600 <= seconds)%Q ->
   exists h m : Z,
     formatUptime seconds =
       numberToString (inject_Z h) ++ lit "h " ++
       numberToString (inject_Z m) ++ lit "m" /\
     1 <= h /\ 0 <= m <= 59 /\
     (inject_Z (3600 * h + 60 * m) <= seconds)%Q /\
     (seconds < inject_Z (3600 * h + 60 * m + 60))%Q).
Proof.
  assert (Hlt : forall k : Q, (seconds < k)%Q -> Qle_bool k seconds = false).
  { intros k H. apply not_true_iff_false. rewrite Qle_bool_iff. lra. }
  assert (Hge : forall k : Q, (k <= seconds)%Q -> Qle_bool k seconds = true).
  { intros k H. now apply Qle_bool_iff. }
  split; [|split].
  - intros H. unfold formatUptime. now rewrite (Hlt 60%Q H).
  - intros H60 H3600. unfold formatUptime.
    rewrite (Hge 60%Q H60), (Hlt 3600%Q H3600). cbn [negb].
    change 60%Q with (inject_Z 60) at 1 2.
    rewrite (js_rem_nonneg seconds 60) by (try lia; lra).
    set (m := Qfloor (seconds / inject_Z 60)).
    set (r := Qfloor (seconds - inject_Z 60 * inject_Z m)).
    exists m, r. split; [reflexivity|].
    pose proof (Qfloor_le (seconds / inject_Z 60)) as Hm1.
    pose proof (Qlt_floor (seconds / inject_Z 60)) as Hm2.
    fold m in Hm1, Hm2. rewrite inject_Z_plus in Hm2.
    pose proof (Qfloor_le (seconds - inject_Z 60 * inject_Z m)) as Hr1.
    pose proof (Qlt_floor (seconds - inject_Z 60 * inject_Z m)) as Hr2.
    fold r in Hr1, Hr2. rewrite inject_Z_plus in Hr2.
    clearbody m. clearbody r.
    assert (Hm : 0 < m /\ m < 60)
      by (split; rewrite Zlt_Qlt; q_consts; lra).
    assert (Hr : -1 < r /\ r < 60)
      by (split; rewrite Zlt_Qlt; q_consts; change (inject_Z (-1)) with (-1)%Q; lra).
    split; [lia|]. split; [lia|].
    rewrite !inject_Z_plus, inject_Z_mult. q_consts. split; lra.
  - intros H3600. unfold formatUptime.
    rewrite (Hge 60%Q) by lra. rewrite (Hge 3600%Q H3600). cbn [negb].
    cbv zeta.
    change 3600%Q with (inject_Z 3600) at 1 2.
    rewrite (js_rem_nonneg seconds 3600) by (try lia; lra).
    set (h := Qfloor (seconds / inject_Z 3600)).
    set (m := Qfloor ((seconds - inject_Z 3600 * inject_Z h) / 60)).
    exists h, m. split; [reflexivity|].
    pose proof (Qfloor_le (seconds / inject_Z 3600)) as Hh1.
    pose proof (Qlt_floor (seconds / inject_Z 3600)) as Hh2.
    fold h in Hh1, Hh2. rewrite inject_Z_plus in Hh2.
    pose proof (Qfloor_le ((seconds - inject_Z 3600 * inject_Z h) / 60)) as Hm1.
    pose proof (Qlt_floor ((seconds - inject_Z 3600 * inject_Z h) / 60)) as Hm2.
    fold m in Hm1, Hm2. rewrite inject_Z_plus in Hm2.
    clearbody m. clearbody h.
    assert (Hh : 0 < h) by (rewrite Zlt_Qlt; q_consts; lra).
    assert (Hm : -1 < m /\ m < 60)
      by (split; rewrite Zlt_Qlt; q_consts; change (inject_Z (-1)) with (-1)%Q; lra).
    split; [lia|]. split; [lia|].
    rewrite !inject_Z_plus, !inject_Z_mult. q_consts. split; lra.
Qed.

End Uptime.

Lemma formatUptime_parts_witness :
  formatUptime (host := sample_host) 125 = lit "2m 5s" /\
  formatUptime (host := sample_host) 7500 = lit "2h 5m".
Proof.
  split.
  - destruct (formatUptime_parts (host := sample_host) 125) as (_ & H & _).
    destruct H as (m & r & Heq & Hm & Hr & Hlo & Hhi);
      [vm_compute; discriminate|reflexivity|].
    change 125%Q with (inject_Z 125) in Hlo, Hhi.
    rewrite <- Zle_Qle in Hlo. rewrite <- Zlt_Qlt in Hhi.
    assert (m = 2) by lia. assert (r = 5) by lia. subst m r.
    rewrite Heq. reflexivity.
  - destruct (formatUptime_parts (host := sample_host) 7500) as (_ & _ & H).
    destruct H as (h & m & Heq & Hh & Hm & Hlo & Hhi);
      [vm_compute; discriminate|].
    change 7500%Q with (inject_Z 7500) in Hlo, Hhi.
    rewrite <- Zle_Qle in Hlo. rewrite <- Zlt_Qlt in Hhi.
    assert (h = 2) by lia. assert (m = 5) by lia. subst h m.
    rewrite Heq. reflexivity.
Defined.

(** ** The selection rectangle *)

(** X15.  While a drag is in progress, the selection rectangle follows the
    mouse inside the plot area: it starts at the leftmost of the press
    and the (clamped) mouse position, ends at the rightmost, and so never
    leaves the area between the left padding and the right padding,
    wherever the mouse is. *)
Theorem selection_stays_in_plot (w : Z) (allEvents : list GcEvent) (z : Zoom)
    (x : Q) :
  let h := setupPauseChartInteraction allEvents
             (w - padding_left - padding_right) z in
  let lo := inject_Z padding_left in
  let hi := inject_Z (w - padding_right) in
  isDragging z = true -> drag_ok w z ->
  exists left width x0,
    on_mousemove h x z = Some (left, width) /\
    dragStartX z = Some x0 /\
    (lo <= left)%Q /\ (0 <= width)%Q /\ (left + width <= hi)%Q /\
    (left <= x0)%Q /\ (x0 <= left + width)%Q.
Proof.
  intros h lo hi Hdrag Hok.
  destruct (Hok Hdrag) as (x0 & Hx0 & Hlo & Hhi).
  unfold on_mousemove. rewrite Hdrag, Hx0. cbn [negb].
  change (default 0%Q (Some x0)) with x0.
  subst h. cbn [cap_chartWidth setupPauseChartInteraction].
  set (hi' := inject_Z (padding_left + (w - padding_left - padding_right))) in *.
  assert (Hhieq : (hi' == hi)%Q).
  { unfold hi', hi. apply inject_Z_injective. ring. }
  fold lo in Hlo |- *.
  set (x' := Qmax lo (Qmin x hi')).
  assert (Hx'lo : (lo <= x')%Q) by apply Q.le_max_l.
  assert (Hx'hi : (x' <= hi')%Q).
  { apply Q.max_lub; [apply (Qle_trans _ x0); assumption|apply Q.le_min_r]. }
  exists (Qmin x' x0), (Qabs (x' - x0)), x0.
  split; [reflexivity|]. split; [reflexivity|].
  pose proof (Q.le_min_l x' x0) as M1. pose proof (Q.le_min_r x' x0) as M2.
  assert (M3 : (lo <= Qmin x' x0)%Q) by (apply Q.min_glb; assumption).
  pose proof (Qabs_nonneg (x' - x0)) as A0.
  assert (A1 : (Qmin x' x0 + Qabs (x' - x0) <= hi)%Q /\
               (x0 <= Qmin x' x0 + Qabs (x' - x0))%Q).
  { destruct (Qlt_le_dec x' x0) as [Hlt|Hge].
    - rewrite (Q.min_l x' x0) by lra.
      rewrite (Qabs_neg (x' - x0)) by lra. split; lra.
    - rewrite (Q.min_r x' x0) by lra.
      rewrite (Qabs_pos (x' - x0)) by lra. split; lra. }
  repeat split; try assumption; tauto.
Qed.

Lemma selection_stays_in_plot_witness :
  let z := {| startIndex := 0; endIndex := Some 8; isDragging := true;
              dragStartX := Some 100%Q |} in
  let h := setupPauseChartInteraction eight_pauses 800 z in
  exists left width x0,
    on_mousemove h 2000 z = Some (left, width) /\
    dragStartX z = Some x0 /\
    (70 <= left)%Q /\ (0 <= width)%Q /\ (left + width <= 870)%Q /\
    (left <= x0)%Q /\ (x0 <= left + width)%Q.
Proof.
  intros z h.
  apply (selection_stays_in_plot 890 eight_pauses z 2000 eq_refl).
  intros _. exists 100%Q. split; [reflexivity|].
  split; vm_compute; discriminate.
Defined.

(** ** The bars of the pause chart *)

Lemma pause_events_positive (evs : list GcEvent) :
  Forall (fun e => exists q, pause_ms e = Some q /\ (0 < q)%Q) (pause_events evs).
Proof.
  unfold pause_events. apply Forall_forall. intros e He.
  apply list_elem_of_filter in He as [Hgt _]. unfold num_gt in Hgt.
  destruct (pause_ms e) as [q|]; [|discriminate].
  exists q. split; [reflexivity|].
  apply negb_true_iff, not_true_iff_false in Hgt. rewrite Qle_bool_iff in Hgt.
  now apply Qnot_le_lt.
Qed.

Lemma foldl_Qmax_spec (l : list Q) (x : Q) :
  (x <= foldl Qmax x l)%Q /\
  Forall (fun v => (v <= foldl Qmax x l)%Q) l /\
  ((foldl Qmax x l == x)%Q \/ Exists (fun v => (foldl Qmax x l == v)%Q) l).
Proof.
  revert x. induction l as [|y l IH]; intros x; simpl.
  - split; [apply Qle_refl|]. split; [constructor|now left].
  - destruct (IH (Qmax x y)) as (H1 & H2 & H3).
    split; [eapply Qle_trans; [apply Q.le_max_l|exact H1]|]. split.
    + constructor; [eapply Qle_trans; [apply Q.le_max_r|exact H1]|exact H2].
    + destruct H3 as [H3|H3]; [|right; now constructor 2].
      destruct (Q.max_spec x y) as [[_ E]|[_ E]].
      * right. constructor 1. eapply Qeq_trans; [exact H3|exact E].
      * left. eapply Qeq_trans; [exact H3|exact E].
Qed.

Lemma math_max_spec (xs : list Q) :
  xs <> [] ->
  exists m, math_max xs = Some m /\
            Forall (fun v => (v <= m)%Q) xs /\
            Exists (fun v => (m == v)%Q) xs.
Proof.
  destruct xs as [|x l]; [contradiction|]. intros _.
  destruct (foldl_Qmax_spec l x) as (H1 & H2 & H3).
  exists (foldl Qmax x l). split; [reflexivity|]. split.
  - now constructor.
  - destruct H3; [now constructor 1|now constructor 2].
Qed.

Lemma pause_bars_positive (w s : Z) (events : list GcEvent) :
  events <> [] ->
  Forall (fun e => exists q, pause_ms e = Some q /\ (0 < q)%Q) events ->
  exists maxPause : Q,
    (0 < maxPause)%Q /\
    Forall (fun e => (0 < pause_of e)%Q /\ (pause_of e <= maxPause)%Q) events /\
    Exists (fun e => (maxPause == pause_of e)%Q) events /\
    pause_bars w s events =
      let chartWidth := inject_Z (w - padding_left - padding_right) in
      let chartHeight := inject_Z pause_chartHeight in
      let len := inject_Z (Z.of_nat (length events)) in
      let barWidth := Qmax 2 (Qmin 12 (chartWidth / len - 1)) in
      Some (imap (fun i event =>
              {| pb_x := inject_Z padding_left +
                         (chartWidth / len) * inject_Z (Z.of_nat i) +
                         (chartWidth / len - barWidth) / 2;
                 pb_y := inject_Z padding_top + chartHeight -
                         (pause_of event / maxPause) * chartHeight;
                 pb_width := barWidth;
                 pb_height := (pause_of event / maxPause) * chartHeight;
                 pb_fill := pause_color event;
                 pb_index := s + Z.of_nat i |}) events).
Proof.
  intros Hne Hpos.
  assert (Hpos' : Forall (fun e => (0 < pause_of e)%Q) events).
  { eapply Forall_impl; [exact Hpos|]. intros e (q & Hq & H0).
    unfold pause_of. now rewrite Hq. }
  destruct (math_max_spec (map pause_of events)) as (m & Hm & Hle & Hex).
  { destruct events; [contradiction|discriminate]. }
  rewrite Forall_forall in Hle. apply Exists_exists in Hex as (v & Hv & Hmv).
  apply list_elem_of_fmap in Hv as (e0 & -> & He0).
  assert (Hm0 : (0 < m)%Q).
  { rewrite Forall_forall in Hpos'.
    pose proof (Hpos' e0 He0). now rewrite Hmv. }
  exists m. split; [exact Hm0|]. split; [|split].
  - rewrite Forall_forall in *. intros e He. split; [now apply Hpos'|].
    apply Hle. apply list_elem_of_fmap. eauto.
  - apply Exists_exists. exists e0. split; [exact He0|exact Hmv].
  - unfold pause_bars. rewrite Hm.
    replace (Qeq_bool m 0) with false; [reflexivity|].
    symmetry. apply not_true_iff_false. rewrite Qeq_bool_iff.
    intros E. rewrite E in Hm0. discriminate.
Qed.

(** X16.  The bars of the chart, for a window of the events with a pause that
    is not empty.  There is one bar for each event of the window, and its
    [data-index] is the index of its event in the full list.  Every bar
    stands on the base line of the plot and reaches at most its top; the
    bar of the longest pause of the window reaches the top.  A bar is
    between 2 and 12 pixels wide.  When the plot has at least 3 pixels
    for each event, every bar lies inside the slot of its event, so the
    bars do not overlap and stay inside the plot. *)
Theorem pause_bars_geometry (w : Z) (evs : list GcEvent) (j k : nat) :
  let allEvents := pause_events evs in
  let events := take k (drop j allEvents) in
  let slot := (inject_Z (w - 90) / inject_Z (Z.of_nat (length events)))%Q in
  events <> [] ->
  exists bars : list PauseBar,
    pause_bars w (Z.of_nat j) events = Some bars /\
    length bars = length events /\
    (forall (i : nat) (b : PauseBar),
       bars !! i = Some b ->
       (exists ev, events !! i = Some ev /\
                   allEvents !! Z.to_nat (pb_index b) = Some ev /\
                   pb_fill b = pause_color ev) /\
       (0 < pb_height b)%Q /\ (pb_height b <= 220)%Q /\
       (pb_y b + pb_height b == 240)%Q /\
       (2 <= pb_width b)%Q /\ (pb_width b <= 12)%Q /\
       (pb_x b + pb_width b / 2 == 70 + slot * inject_Z (Z.of_nat i) + slot / 2)%Q) /\
    (exists b, b ∈ bars /\ (pb_height b == 220)%Q) /\
    (3 * Z.of_nat (length events) <= w - 90 ->
     forall (i : nat) (b : PauseBar),
       bars !! i = Some b ->
       (70 + slot * inject_Z (Z.of_nat i) <= pb_x b)%Q /\
       (pb_x b + pb_width b <= 70 + slot * inject_Z (Z.of_nat i + 1))%Q /\
       (pb_x b + pb_width b <= inject_Z (w - 20))%Q).
Proof.
  intros allEvents events slot Hne.
  assert (Hpos : Forall (fun e => exists q, pause_ms e = Some q /\ (0 < q)%Q) events).
  { apply Forall_take, Forall_drop, pause_events_positive. }
  destruct (pause_bars_positive w (Z.of_nat j) events Hne Hpos)
    as (M & HM & Hall & Hex & Hbars).
  cbv zeta in Hbars.
  change (w - padding_left - padding_right) with (w - 70 - 20) in Hbars.
  replace (w - 70 - 20) with (w - 90) in Hbars by lia.
  change (inject_Z pause_chartHeight) with 220%Q in Hbars.
  change (inject_Z padding_left) with 70%Q in Hbars.
  change (inject_Z padding_top) with 20%Q in Hbars.
  fold slot in Hbars.
  set (bw := Qmax 2 (Qmin 12 (slot - 1))) in *.
  assert (Hbw : (2 <= bw)%Q /\ (bw <= 12)%Q).
  { split; [apply Q.le_max_l|].
    apply Q.max_lub; [discriminate|apply Q.le_min_l]. }
  eexists. split; [exact Hbars|]. split; [apply length_imap|].
  assert (Hlook : forall i b,
            imap (fun i event =>
              {| pb_x := 70 + slot * inject_Z (Z.of_nat i) + (slot - bw) / 2;
                 pb_y := 20 + 220 - pause_of event / M * 220;
                 pb_width := bw;
                 pb_height := pause_of event / M * 220;
                 pb_fill := pause_color event;
                 pb_index := Z.of_nat j + Z.of_nat i |}) events !! i = Some b ->
            exists ev, events !! i = Some ev /\
              b = {| pb_x := 70 + slot * inject_Z (Z.of_nat i) + (slot - bw) / 2;
                     pb_y := 20 + 220 - pause_of ev / M * 220;
                     pb_width := bw;
                     pb_height := pause_of ev / M * 220;
                     pb_fill := pause_color ev;
                     pb_index := Z.of_nat j + Z.of_nat i |}).
  { intros i b Hb. rewrite list_lookup_imap in Hb.
    destruct (events !! i) as [ev|]; [|discriminate].
    injection Hb as <-. eauto. }
  assert (Hheight : forall ev, ev ∈ events ->
            (0 < pause_of ev / M * 220)%Q /\ (pause_of ev / M * 220 <= 220)%Q).
  { intros ev Hev. rewrite Forall_forall in Hall.
    destruct (Hall ev Hev) as [Hp0 HpM].
    assert (Hq0 : (0 < pause_of ev / M)%Q).
    { apply Qlt_shift_div_l; [exact HM|]. now rewrite Qmult_0_l. }
    assert (Hq1 : (pause_of ev / M <= 1)%Q).
    { apply Qle_shift_div_r; [exact HM|]. now rewrite Qmult_1_l. }
    revert Hq0 Hq1. generalize (pause_of ev / M)%Q. intros; split; lra. }
  split; [|split].
  - intros i b Hb. destruct (Hlook i b Hb) as (ev & Hev & ->). cbn.
    assert (Hin : ev ∈ events) by (eapply list_elem_of_lookup_2; exact Hev).
    destruct (Hheight ev Hin) as [Hh0 Hh1].
    split.
    { exists ev. split; [exact Hev|]. split; [|reflexivity].
      replace (Z.to_nat (Z.of_nat j + Z.of_nat i)) with (j + i)%nat by lia.
      subst events. apply lookup_take_Some in Hev as [Hev _].
      now rewrite lookup_drop in Hev. }
    split; [exact Hh0|]. split; [exact Hh1|].
    split; [|split; [tauto|split; [tauto|]]].
    + generalize (pause_of ev / M * 220)%Q. intros; lra.
    + unfold Qdiv. change (/ 2)%Q with (1 # 2)%Q.
      generalize (slot * inject_Z (Z.of_nat i))%Q. intros; lra.
  - apply Exists_exists in Hex as (e0 & He0 & HeM).
    apply list_elem_of_lookup_1 in He0 as [i Hi].
    eexists. split.
    + eapply list_elem_of_lookup_2. rewrite list_lookup_imap, Hi. reflexivity.
    + cbn. rewrite <- HeM.
      assert (E : (M / M == 1)%Q).
      { apply Qmult_inv_r. intros E. rewrite E in HM. discriminate. }
      rewrite E. reflexivity.
  - intros Hwide i b Hb. destruct (Hlook i b Hb) as (ev & Hev & ->). cbn.
    assert (Hi : (i < length events)%nat) by (eapply lookup_lt_Some; exact Hev).
    set (len := inject_Z (Z.of_nat (length events))) in *.
    assert (Hlen : (0 < len)%Q).
    { unfold len. change 0%Q with (inject_Z 0). rewrite <- Zlt_Qlt. lia. }
    assert (Hslot : (3 <= slot)%Q).
    { unfold slot. apply Qle_shift_div_l; [exact Hlen|].
      unfold len. change 3%Q with (inject_Z 3).
      rewrite <- inject_Z_mult, <- Zle_Qle. exact Hwide. }
    assert (Hbw' : (bw <= slot - 1)%Q).
    { unfold bw. apply Q.max_lub; [lra|apply Q.le_min_r]. }
    assert (Hfit : (slot * inject_Z (Z.of_nat i + 1) <= inject_Z (w - 90))%Q).
    { assert (E : (inject_Z (w - 90) == slot * len)%Q).
      { unfold slot. rewrite Qmult_comm, Qmult_div_r; [reflexivity|].
        intros E. rewrite E in Hlen. discriminate. }
      rewrite E. apply Qmult_le_l; [lra|].
      unfold len. rewrite <- Zle_Qle. lia. }
    rewrite inject_Z_plus in *. change (inject_Z 1) with 1%Q in *.
    assert (Hw20 : (inject_Z (w - 20) == 70 + inject_Z (w - 90))%Q).
    { change 70%Q with (inject_Z 70). rewrite <- inject_Z_plus.
      apply inject_Z_injective. lia. }
    rewrite Hw20.
    unfold Qdiv. change (/ 2)%Q with (1 # 2)%Q.
    assert (E2 : (slot * (inject_Z (Z.of_nat i) + 1) ==
                  slot * inject_Z (Z.of_nat i) + slot)%Q) by ring.
    rewrite E2 in *.
    revert Hfit. generalize (inject_Z (w - 90)).
    generalize (slot * inject_Z (Z.of_nat i))%Q.
    intros P C Hfit. repeat split; lra.
Qed.

Lemma pause_bars_geometry_witness :
  exists bars : list PauseBar,
    pause_bars 890 2 (take 4 (drop 2 (pause_events eight_pauses))) = Some bars /\
    length bars = 4%nat.
Proof.
  destruct (pause_bars_geometry 890 eight_pauses 2 4 ltac:(discriminate))
    as (bars & H1 & H2 & _).
  exists bars. split; [exact H1|exact H2].
Defined.

(** ** Uploading *)

Section UploadFacts.

Context `{host : Host}.
Variable net : Request -> FetchOutcome.
Variable analyze : list jsstring -> AnalyzeOutcome.

Lemma displayResults_run (w : Z) (d : AnalysisData) (evs : list GcEvent)
    (z : Zoom) (p : Page) :
  events d = Some evs ->
  displayResults net w d z p =
    (Done {| dash_pause := displayResults_chart w evs z;
             dash_distribution := displayDistributionChart d;
             dash_issues := displayIssues d;
             dash_events := displayEventsTable d |},
     snd (autoStartAgenticAnalysis net (Some d) p)).
Proof.
  intros Hev. unfold displayResults. rewrite Hev. unfold bind, ret.
  pose proof (autoStart_done net (Some d) p) as Hdone.
  destruct (autoStartAgenticAnalysis net (Some d) p) as [o p'].
  simpl in Hdone. now subst o.
Qed.

(** X17.  An upload that fails tells the user and goes back to the upload
    form.  When the request is rejected, is answered with an error
    status (the message is then "Analysis failed") or has a body that
    cannot be read, there is one alert with the message, the analyze
    result and the zoom are reset, the results are hidden, the upload
    section is shown again and the file input is emptied; no request is
    made to the AI endpoints and nothing is displayed.  Nothing removes
    the mark of the loading indicator in that case: it stays active. *)
Theorem upload_failure_resets (w : Z) (files : list jsstring) (a : App) :
  let failed (message : jsstring) :=
    {| app_page := app_page a; app_data := None; app_zoom := zoom_initial;
       app_upload_display := lit "block"; app_loading := true;
       app_results := false; app_file_input := [];
       app_alerts := app_alerts a ++ [lit "Error analyzing GC logs: " ++ message];
       app_uploads := app_uploads a ++ [files];
       app_dashboard := app_dashboard a |} in
  files <> [] ->
  (forall message,
     analyze files = AnalyzeRejected message ->
     handleFiles net analyze w files a = failed message) /\
  (forall json,
     analyze files = AnalyzeFulfilled false json ->
     handleFiles net analyze w files a = failed (lit "Analysis failed")) /\
  (forall message,
     analyze files = AnalyzeFulfilled true (AnalyzeUnreadable message) ->
     handleFiles net analyze w files a = failed message).
Proof.
  intros failed Hne.
  assert (Hlen : Nat.eqb (length files) 0 = false).
  { destruct files; [contradiction|reflexivity]. }
  unfold handleFiles. rewrite Hlen.
  split; [|split]; intros m Hm; rewrite Hm; reflexivity.
Qed.

(** X18.  An upload that succeeds installs the analyze result and displays it:
    the loading indicator is off, the results are shown, the upload
    section is hidden and there is no alert; the pause chart starts at
    the full range, whatever the zoom was; and the only requests that
    follow the upload are the health check and, when the AI is
    available, the agentic analysis of this result.  A result without
    events ends in the alert of a failed upload instead, with the
    loading indicator off.  Without files nothing happens at all. *)
Theorem upload_success_displays (w : Z) (files : list jsstring) (a : App)
    (d : AnalysisData) :
  files <> [] ->
  analyze files = AnalyzeFulfilled true (AnalyzeResult d) ->
  let a' := handleFiles net analyze w files a in
  handleFiles net analyze w [] a = a /\
  app_uploads a' = app_uploads a ++ [files] /\
  match events d with
  | Some evs =>
      app_data a' = Some d /\
      app_loading a' = false /\ app_results a' = true /\
      app_upload_display a' = lit "none" /\
      app_alerts a' = app_alerts a /\
      startIndex (app_zoom a') = 0 /\
      (pause_events evs <> [] ->
       endIndex (app_zoom a') = Some (Z.of_nat (length (pause_events evs)))) /\
      (exists dash, app_dashboard a' = Some dash /\
                    dash_events dash = displayEventsTable d /\
                    dash_issues dash = displayIssues d /\
                    dash_distribution dash = displayDistributionChart d) /\
      requests (app_page a') =
        requests (app_page a) ++
        health_request ::
        (if health_available net then [agentic_request (Some d)] else [])
  | None =>
      app_data a' = None /\ app_loading a' = false /\ app_results a' = false /\
      app_upload_display a' = lit "block" /\
      app_alerts a' =
        app_alerts a ++ [lit "Error analyzing GC logs: " ++ typeErrorMessage] /\
      requests (app_page a') = requests (app_page a)
  end.
Proof.
  intros Hne Han a'. subst a'.
  assert (Hlen : Nat.eqb (length files) 0 = false).
  { destruct files; [contradiction|reflexivity]. }
  split; [reflexivity|].
  unfold handleFiles. rewrite Hlen, Han.
  destruct (events d) as [evs|] eqn:Hev.
  - rewrite (displayResults_run w d evs _ _ Hev).
    cbn [app_data app_loading app_results app_upload_display app_alerts
         app_zoom app_dashboard app_page app_uploads dash_events dash_issues
         dash_distribution dash_pause].
    split; [reflexivity|]. repeat (split; [reflexivity|]).
    pose proof (displayResults_chart_full w evs (app_zoom a)) as Hnew.
    cbv zeta in Hnew.
    split; [|split; [|split]].
    + destruct (pause_events evs) eqn:E.
      * unfold displayResults_chart. rewrite E, displayPauseChart_eq. reflexivity.
      * now destruct Hnew as (H & _).
    + intros Hpe. destruct (pause_events evs) eqn:E; [contradiction|].
      now destruct Hnew as (_ & H & _).
    + eexists. split; [reflexivity|]. repeat split.
    + apply autoStart_requests.
  - unfold displayResults. rewrite Hev. cbn. repeat split.
Qed.

End UploadFacts.

Lemma upload_failure_resets_witness :
  let analyze := fun _ : list jsstring => AnalyzeFulfilled false AnalyzeNull in
  let net := fun _ : Request => Rejected [] in
  let a := {| app_page := blank_page; app_data := None; app_zoom := zoom_initial;
              app_upload_display := []; app_loading := false;
              app_results := false; app_file_input := lit "gc.log";
              app_alerts := []; app_uploads := []; app_dashboard := None |} in
  let a' := handleFiles (host := sample_host) net analyze 890 [lit "[0.5s] GC"] a in
  app_alerts a' = [lit "Error analyzing GC logs: Analysis failed"] /\
  app_loading a' = true /\ app_upload_display a' = lit "block" /\
  requests (app_page a') = [].
Proof.
  intros analyze net a a'.
  destruct (upload_failure_resets (host := sample_host) net analyze 890
              [lit "[0.5s] GC"] a ltac:(discriminate)) as (_ & H & _).
  subst a'. rewrite (H AnalyzeNull eq_refl). repeat split.
Defined.

Lemma upload_success_displays_witness :
  let d := sample_data eight_pauses [] in
  let analyze := fun _ : list jsstring => AnalyzeFulfilled true (AnalyzeResult d) in
  let net := fun _ : Request => Rejected [] in
  let a := {| app_page := blank_page; app_data := None;
              app_zoom := set_range zoom_initial 3 5;
              app_upload_display := []; app_loading := false;
              app_results := false; app_file_input := lit "gc.log";
              app_alerts := []; app_uploads := []; app_dashboard := None |} in
  let a' := handleFiles (host := sample_host) net analyze 890 [lit "[0.5s] GC"] a in
  app_data a' = Some d /\ app_loading a' = false /\ app_results a' = true /\
  startIndex (app_zoom a') = 0 /\ endIndex (app_zoom a') = Some 8 /\
  requests (app_page a') = [health_request].
Proof.
  intros d analyze net a a'.
  destruct (upload_success_displays (host := sample_host) net analyze 890
              [lit "[0.5s] GC"] a d ltac:(discriminate) eq_refl)
    as (_ & _ & H).
  change (events d) with (Some eight_pauses) in H. cbv iota beta in H.
  destruct H as (H1 & H2 & H3 & _ & _ & H4 & H5 & _ & H6).
  fold a' in H1, H2, H3, H4, H5, H6.
  repeat (split; [assumption|]). split.
  - apply H5. discriminate.
  - exact H6.
Defined.

(** ** Filtering the events table *)

Section FilterFacts.

Context `{host : Host}.
Variable parseFloat : jsstring -> option Q.



End FilterFacts.


(** ** Text without markdown *)

Lemma exec_at_none (r : regex) (prev : option N) (suf : jsstring) :
  (forall s0 s', Matches r s0 s' -> ms_prev s0 = prev -> ms_rest s0 = suf -> False) ->
  exec_at r prev suf = None.
Proof.
  intros H. destruct (exec_at r prev suf) as [[whole caps]|] eqn:E; [|reflexivity].
  exfalso. apply exec_at_matches in E as (s0 & s' & Hm & Hp & Hr & _). eauto.
Qed.

Lemma replace_from_no_match (r : regex) (t : list tpart) (input : jsstring) :
  forall prev : option N,
    (forall pre suf, input = pre ++ suf -> exec_at r (before prev pre) suf = None) ->
    replace_from r t prev input 0 = input.
Proof.
  induction input as [|c rest IH]; intros prev H; simpl.
  - pose proof (H [] [] eq_refl) as H0.
    change (before prev []) with prev in H0. now rewrite H0.
  - pose proof (H [] (c :: rest) eq_refl) as H0.
    change (before prev []) with prev in H0. rewrite H0.
    f_equal. apply IH.
    intros pre suf ->. specialize (H (c :: pre) suf eq_refl).
    unfold before in *. destruct pre as [|d pre]; [exact H|].
    change (last (c :: d :: pre)) with (last (d :: pre)) in H.
    destruct (last (d :: pre)) eqn:E; [exact H|].
    apply last_None in E. discriminate.
Qed.

Lemma no_match_by_head (r : regex) (t : list tpart) (bad : N -> bool)
    (x : jsstring) :
  (forall s0 s', Matches r s0 s' ->
     exists c, head (ms_rest s0) = Some c /\ bad c = true) ->
  Forall (fun c => bad c = false) x ->
  replace_all r t x = x.
Proof.
  intros Hneeds Hx. unfold replace_all. apply replace_from_no_match.
  intros pre suf ->. apply exec_at_none. intros s0 s' Hm _ Hr.
  destruct (Hneeds _ _ Hm) as (c & Hc & Hb). rewrite Hr in Hc.
  destruct suf as [|d suf]; [discriminate|]. injection Hc as ->.
  apply Forall_app in Hx as [_ Hx]. inversion Hx; congruence.
Qed.

Lemma no_match_by_line_start (r : regex) (t : list tpart) (bad : N -> bool)
    (x : jsstring) :
  (forall s0 s', Matches r s0 s' ->
     starts_line (ms_prev s0) = true /\
     exists c, head (ms_rest s0) = Some c /\ bad c = true) ->
  Forall (fun c => is_line_terminator c = false) x ->
  (forall c, head x = Some c -> bad c = false) ->
  replace_all r t x = x.
Proof.
  intros Hneeds Hx Hhead. unfold replace_all. apply replace_from_no_match.
  intros pre suf ->. apply exec_at_none. intros s0 s' Hm Hp Hr.
  destruct (Hneeds _ _ Hm) as (Hline & c & Hc & Hb). rewrite Hr in Hc.
  rewrite Hp in Hline. unfold before in Hline.
  destruct (last pre) as [d|] eqn:Hlast.
  - apply last_Some in Hlast as [pre' ->].
    apply Forall_app in Hx as [Hx _]. apply Forall_app in Hx as [_ Hx].
    inversion Hx; subst. simpl in Hline. congruence.
  - apply last_None in Hlast. subst pre. simpl in Hhead.
    specialize (Hhead c Hc). congruence.
Qed.

Ltac first_of r :=
  let Hm := fresh "Hm" in
  intros ?s0 ?s' Hm; open_match r Hm;
  repeat match goal with
  | H : Matches (RRepeat true _ (RChar _)) _ _ |- _ =>
      let H1 := fresh in
      apply repeat_inv in H as (? & H1 & _);
      apply char_inv in H1 as (? & ? & ? & _)
  end;
  chain_rest.

Ltac finish_first :=
  try (split; [assumption|]);
  match goal with
  | H : ms_rest ?s = ?c :: _ |- context [head (ms_rest ?s)] =>
      rewrite H; exists c; split; [reflexivity|first [reflexivity|assumption]]
  end.

Lemma re_h3_first (s0 s' : MState) :
  Matches (re_header "###") s0 s' ->
  starts_line (ms_prev s0) = true /\
  exists c, head (ms_rest s0) = Some c /\ (c =? 35)%N = true.
Proof. revert s0 s'. first_of (re_header "###"). finish_first. Qed.

Lemma re_h2_first (s0 s' : MState) :
  Matches (re_header "##") s0 s' ->
  starts_line (ms_prev s0) = true /\
  exists c, head (ms_rest s0) = Some c /\ (c =? 35)%N = true.
Proof. revert s0 s'. first_of (re_header "##"). finish_first. Qed.

Lemma re_h1_first (s0 s' : MState) :
  Matches (re_header "#") s0 s' ->
  starts_line (ms_prev s0) = true /\
  exists c, head (ms_rest s0) = Some c /\ (c =? 35)%N = true.
Proof. revert s0 s'. first_of (re_header "#"). finish_first. Qed.

Lemma re_bullet_first (s0 s' : MState) :
  Matches re_bullet s0 s' ->
  starts_line (ms_prev s0) = true /\
  exists c, head (ms_rest s0) = Some c /\ (c =? 45)%N = true.
Proof. revert s0 s'. first_of re_bullet. finish_first. Qed.

Lemma re_numbered_first (s0 s' : MState) :
  Matches re_numbered s0 s' ->
  starts_line (ms_prev s0) = true /\
  exists c, head (ms_rest s0) = Some c /\ class_matches CDigit c = true.
Proof. revert s0 s'. first_of re_numbered. finish_first. Qed.

Lemma re_bold_first (s0 s' : MState) :
  Matches re_bold s0 s' ->
  exists c, head (ms_rest s0) = Some c /\ (c =? 42)%N = true.
Proof. revert s0 s'. first_of re_bold. finish_first. Qed.

Lemma re_code_first (s0 s' : MState) :
  Matches re_code s0 s' ->
  exists c, head (ms_rest s0) = Some c /\ (c =? 96)%N = true.
Proof. revert s0 s'. first_of re_code. finish_first. Qed.

Lemma re_blank_line_first (s0 s' : MState) :
  Matches re_blank_line s0 s' ->
  exists c, head (ms_rest s0) = Some c /\ (c =? 10)%N = true.
Proof. revert s0 s'. first_of re_blank_line. finish_first. Qed.

Lemma re_items_first (s0 s' : MState) :
  Matches re_items s0 s' ->
  exists c, head (ms_rest s0) = Some c /\ (c =? 60)%N = true.
Proof.
  intros Hm. apply repeat_inv in Hm as (s1 & Hm & _).
  apply item_shape in Hm as (x & Hx). rewrite Hx. eexists. split; reflexivity.
Qed.

Lemma re_empty_par_first (s0 s' : MState) :
  Matches re_empty_par s0 s' ->
  exists c, head (ms_rest s0) = Some c /\ (c =? 60)%N = true.
Proof. revert s0 s'. first_of re_empty_par. finish_first. Qed.

Lemma re_par_header_first (s0 s' : MState) :
  Matches re_par_header s0 s' ->
  exists c, head (ms_rest s0) = Some c /\ (c =? 60)%N = true.
Proof. revert s0 s'. first_of re_par_header. finish_first. Qed.

Lemma re_header_par_first (s0 s' : MState) :
  Matches re_header_par s0 s' ->
  exists c, head (ms_rest s0) = Some c /\ (c =? 60)%N = true.
Proof. revert s0 s'. first_of re_header_par. finish_first. Qed.

Lemma re_par_list_first (s0 s' : MState) :
  Matches re_par_list s0 s' ->
  exists c, head (ms_rest s0) = Some c /\ (c =? 60)%N = true.
Proof. revert s0 s'. first_of re_par_list. finish_first. Qed.

Lemma re_list_par_first (s0 s' : MState) :
  Matches re_list_par s0 s' ->
  exists c, head (ms_rest s0) = Some c /\ (c =? 60)%N = true.
Proof. revert s0 s'. first_of re_list_par. finish_first. Qed.

(** The places of a paragraph of text without [<] at which a [<]
    follows: its start and the start of its closing tag. *)
Lemma closing_tag_position (e pre suf : jsstring) :
  Forall (fun c => (c =? 60)%N = false) e ->
  e ++ lit "</p>" = pre ++ suf ->
  (exists c, head suf = Some c /\ (c =? 60)%N = true) ->
  suf = lit "</p>".
Proof.
  intros He. revert pre. induction He as [|c e Hc _ IH]; intros pre Heq Hsuf.
  - simpl in Heq. destruct Hsuf as (c & Hc & Hlt). apply N.eqb_eq in Hlt. subst c.
    do 5 (destruct pre as [|? pre];
          [simpl in Heq; subst suf; first [reflexivity|discriminate Hc]|
           try discriminate Heq; injection Heq as <- Heq]).
  - destruct pre as [|d pre].
    + simpl in Heq. subst suf. destruct Hsuf as (c' & Hc' & Hlt).
      injection Hc' as <-. congruence.
    + injection Heq as <- Heq. now apply (IH pre).
Qed.

Lemma paragraph_positions (e pre suf : jsstring) :
  Forall (fun c => (c =? 60)%N = false) e ->
  lit "<p>" ++ e ++ lit "</p>" = pre ++ suf ->
  (exists c, head suf = Some c /\ (c =? 60)%N = true) ->
  pre = [] \/ suf = lit "</p>".
Proof.
  intros He Heq Hsuf.
  destruct pre as [|p1 pre]; [now left|right].
  injection Heq as <- Heq.
  destruct pre as [|p2 pre].
  { simpl in Heq. subst suf. destruct Hsuf as (c & Hc & Hlt).
    injection Hc as <-. discriminate. }
  injection Heq as <- Heq.
  destruct pre as [|p3 pre].
  { simpl in Heq. subst suf. destruct Hsuf as (c & Hc & Hlt).
    injection Hc as <-. discriminate. }
  injection Heq as <- Heq.
  now apply (closing_tag_position e pre suf).
Qed.

Lemma cleanup_no_match (r : regex) (t : list tpart) (e : jsstring) :
  (forall s0 s', Matches r s0 s' ->
     exists c, head (ms_rest s0) = Some c /\ (c =? 60)%N = true) ->
  (forall s0 s', Matches r s0 s' ->
     ms_rest s0 = lit "<p>" ++ e ++ lit "</p>" -> False) ->
  (forall s0 s', Matches r s0 s' -> ms_rest s0 = lit "</p>" -> False) ->
  Forall (fun c => (c =? 60)%N = false) e ->
  replace_all r t (lit "<p>" ++ e ++ lit "</p>") = lit "<p>" ++ e ++ lit "</p>".
Proof.
  intros Hfirst Hstart Hend He. unfold replace_all. apply replace_from_no_match.
  intros pre suf Heq. apply exec_at_none. intros s0 s' Hm _ Hr.
  pose proof (Hfirst _ _ Hm) as Hc. rewrite Hr in Hc.
  destruct (paragraph_positions e pre suf He Heq Hc) as [->| ->].
  - simpl in Heq. subst suf. eauto.
  - eauto.
Qed.

Lemma repeat_class (one greedy : bool) (cl : charclass) (s s' : MState) :
  Matches (RRepeat one greedy (RChar cl)) s s' ->
  exists w, ms_rest s = w ++ ms_rest s' /\
            Forall (fun c => class_matches cl c = true) w.
Proof.
  intros Hm. remember (RRepeat one greedy (RChar cl)) as r eqn:Hr.
  revert one greedy Hr.
  induction Hm as [| | | | | |g' a' s|one' g' a' s s1 s2 H1 _ H2 IH];
    intros one greedy Hr; try discriminate Hr.
  - exists []. split; [reflexivity|constructor].
  - injection Hr as -> -> ->.
    apply char_inv in H1 as (c & Hc & Hcl & _).
    destruct (IH false greedy eq_refl) as (w & Hw & Hall).
    exists (c :: w). split; [now rewrite Hc, Hw|now constructor].
Qed.

Lemma split_at_first_lt (a b u v : jsstring) :
  Forall (fun c => (c =? 60)%N = false) a ->
  Forall (fun c => (c =? 60)%N = false) b ->
  a ++ 60%N :: u = b ++ 60%N :: v -> a = b.
Proof.
  intros Ha. revert b. induction Ha as [|c a Hc _ IH]; intros b Hb Heq.
  - destruct b as [|d b]; [reflexivity|]. injection Heq as <- _.
    inversion Hb; subst. discriminate.
  - destruct b as [|d b].
    + injection Heq as -> _. discriminate.
    + injection Heq as <- Heq. inversion Hb; subst. f_equal. now apply IH.
Qed.

Lemma re_par_header_not_text (e : jsstring) (s0 s' : MState) :
  Forall (fun c => (c =? 60)%N = false) e ->
  Matches re_par_header s0 s' ->
  ms_rest s0 = [60; 112; 62]%N ++ e ++ [60; 47; 112; 62]%N -> False.
Proof.
  intros He Hm Hr. open_match re_par_header Hm.
  group_shape g [60; 104; c; 62]%N.
  match goal with
  | H : ms_rest s0 = 60%N :: 112%N :: 62%N :: _ |- _ =>
      rewrite Hr in H; destruct e as [|c0 e]; simpl in H;
        [discriminate H|injection H as -> _; inversion He; discriminate]
  end.
Qed.

Lemma re_par_list_not_text (e : jsstring) (s0 s' : MState) :
  Forall (fun c => (c =? 60)%N = false) e ->
  Matches re_par_list s0 s' ->
  ms_rest s0 = [60; 112; 62]%N ++ e ++ [60; 47; 112; 62]%N -> False.
Proof.
  intros He Hm Hr. open_match re_par_list Hm.
  group_shape g [60; 117; 108; 62]%N.
  match goal with
  | H : ms_rest s0 = 60%N :: 112%N :: 62%N :: _ |- _ =>
      rewrite Hr in H; destruct e as [|c0 e]; simpl in H;
        [discriminate H|injection H as -> _; inversion He; discriminate]
  end.
Qed.

Lemma re_empty_par_not_text (e : jsstring) (s0 s' : MState) :
  Forall (fun c => (c =? 60)%N = false) e ->
  Exists (fun c => is_js_whitespace c = false) e ->
  Matches re_empty_par s0 s' ->
  ms_rest s0 = [60; 112; 62]%N ++ e ++ [60; 47; 112; 62]%N -> False.
Proof.
  intros He Hex Hm Hr.
  let r' := eval vm_compute in re_empty_par in
  change re_empty_par with r' in Hm; split_match.
  match goal with
  | H : Matches (RRepeat false _ _) _ _ |- _ =>
      apply repeat_class in H as (w & H & Hw)
  end.
  chain_rest.
  match goal with
  | H : ms_rest s0 = 60%N :: 112%N :: 62%N :: _ |- _ =>
      rewrite Hr in H; injection H as H
  end.
  assert (Hw60 : Forall (fun c => (c =? 60)%N = false) w).
  { eapply Forall_impl; [exact Hw|]. intros c Hc. simpl in Hc.
    destruct (N.eqb_spec c 60) as [->|]; [discriminate Hc|reflexivity]. }
  apply split_at_first_lt in H; [|assumption|assumption]. subst w.
  apply Exists_exists in Hex as (c & Hin & Hc).
  rewrite Forall_forall in Hw. specialize (Hw c Hin). simpl in Hw. congruence.
Qed.

Ltac shape_mismatch Hr :=
  match goal with
  | H : ms_rest ?s = _, Hr' : ms_rest ?s = _ |- _ =>
      constr_eq Hr Hr'; rewrite Hr in H; simpl in H; discriminate H
  end.

Lemma re_header_par_not_text (e : jsstring) (s0 s' : MState) :
  Matches re_header_par s0 s' ->
  ms_rest s0 = [60; 112; 62]%N ++ e ++ [60; 47; 112; 62]%N -> False.
Proof.
  intros Hm Hr. open_match re_header_par Hm.
  group_shape g [60; 47; 104; c; 62]%N. shape_mismatch Hr.
Qed.

Lemma re_list_par_not_text (e : jsstring) (s0 s' : MState) :
  Matches re_list_par s0 s' ->
  ms_rest s0 = [60; 112; 62]%N ++ e ++ [60; 47; 112; 62]%N -> False.
Proof.
  intros Hm Hr. open_match re_list_par Hm.
  group_shape g [60; 47; 117; 108; 62]%N. shape_mismatch Hr.
Qed.

Lemma re_empty_par_not_closing (s0 s' : MState) :
  Matches re_empty_par s0 s' -> ms_rest s0 = [60; 47; 112; 62]%N -> False.
Proof. intros Hm Hr. open_match re_empty_par Hm. shape_mismatch Hr. Qed.

Lemma re_par_header_not_closing (s0 s' : MState) :
  Matches re_par_header s0 s' -> ms_rest s0 = [60; 47; 112; 62]%N -> False.
Proof.
  intros Hm Hr. open_match re_par_header Hm.
  group_shape g [60; 104; c; 62]%N. shape_mismatch Hr.
Qed.

Lemma re_header_par_not_closing (s0 s' : MState) :
  Matches re_header_par s0 s' -> ms_rest s0 = [60; 47; 112; 62]%N -> False.
Proof.
  intros Hm Hr. open_match re_header_par Hm.
  group_shape g [60; 47; 104; c; 62]%N. shape_mismatch Hr.
Qed.

Lemma re_par_list_not_closing (s0 s' : MState) :
  Matches re_par_list s0 s' -> ms_rest s0 = [60; 47; 112; 62]%N -> False.
Proof.
  intros Hm Hr. open_match re_par_list Hm.
  group_shape g [60; 117; 108; 62]%N. shape_mismatch Hr.
Qed.

Lemma re_list_par_not_closing (s0 s' : MState) :
  Matches re_list_par s0 s' -> ms_rest s0 = [60; 47; 112; 62]%N -> False.
Proof.
  intros Hm Hr. open_match re_list_par Hm.
  group_shape g [60; 47; 117; 108; 62]%N. shape_mismatch Hr.
Qed.

Lemma serialize_text_Forall (P : N -> Prop) (s : jsstring) :
  Forall P (lit "&amp;") -> Forall P (lit "&nbsp;") ->
  Forall P (lit "&lt;") -> Forall P (lit "&gt;") ->
  Forall P s -> Forall P (serialize_text s).
Proof.
  intros H1 H2 H3 H4. induction 1 as [|c s Hc _ IH]; [constructor|].
  rewrite serialize_text_cons. apply Forall_app. split; [|exact IH].
  unfold escape_unit. repeat (destruct (_ =? _)%N); try assumption.
  now constructor.
Qed.

Lemma serialize_text_head (s : jsstring) (c : N) :
  head (serialize_text s) = Some c ->
  c = 38%N \/ head s = Some c.
Proof.
  destruct s as [|d s]; [discriminate|]. rewrite serialize_text_cons.
  unfold escape_unit. repeat (destruct (_ =? _)%N);
    simpl; intros H; injection H as <-; auto.
Qed.

(** X20.  A line of text without markdown is shown as one paragraph: when the
    text has no asterisk, no backquote and no line terminator, does not
    begin with [#], [-] or a digit and is not blank, [formatMarkdown]
    gives the escaped text between [<p>] and [</p>] and rewrites
    nothing. *)
Theorem formatMarkdown_plain_line (s : jsstring) :
  plain_line s ->
  formatMarkdown (JStr s) = lit "<p>" ++ escapeHtml (JStr s) ++ lit "</p>".
Proof.
  intros (Hchars & Hhead & Hblank).
  assert (Hne : s <> []) by (intros ->; inversion Hblank).
  assert (Hesc : escapeHtml (JStr s) = serialize_text s).
  { destruct s; [contradiction|reflexivity]. }
  unfold formatMarkdown. rewrite Hesc.
  replace (negb (truthy (JStr s))) with false
    by (destruct s; [contradiction|reflexivity]).
  set (e := serialize_text s).
  assert (E1 : Forall (fun c => N_in c [42; 96; 10; 13; 8232; 8233]%N = false) e).
  { apply serialize_text_Forall; try exact Hchars;
      vm_compute; repeat constructor. }
  assert (E2 : Forall (fun c => (c =? 60)%N = false) e).
  { pose proof (escapeHtml_no_angle (JStr s)) as H. rewrite Hesc in H.
    eapply Forall_impl; [exact H|]. intros c [Hc _]. now apply N.eqb_neq. }
  assert (E3 : forall c, head e = Some c ->
                 N_in c [35; 45]%N = false /\ class_matches CDigit c = false).
  { intros c Hc. apply serialize_text_head in Hc as [->|Hc];
      [split; reflexivity|now apply Hhead]. }
  assert (E4 : Exists (fun c => is_js_whitespace c = false) e).
  { subst e. clear -Hblank. induction Hblank as [c s Hc|c s _ IH].
    - rewrite serialize_text_cons. apply Exists_app. left.
      unfold escape_unit.
      destruct (N.eqb_spec c 38); [vm_compute; now constructor 1|].
      destruct (N.eqb_spec c 160); [vm_compute; now constructor 1|].
      destruct (N.eqb_spec c 60); [vm_compute; now constructor 1|].
      destruct (N.eqb_spec c 62); [vm_compute; now constructor 1|].
      now constructor 1.
    - rewrite serialize_text_cons. apply Exists_app. now right. }
  assert (E5 : Forall (fun c => is_line_terminator c = false) e).
  { eapply Forall_impl; [exact E1|]. intros c Hc.
    unfold is_line_terminator. simpl in Hc.
    repeat (apply orb_false_iff in Hc as [? Hc]).
    repeat (apply orb_false_iff; split); assumption. }
  assert (Hsub : forall (bad : N -> bool) (l : list N),
            (forall c, bad c = true -> N_in c l = true) ->
            Forall (fun c => N_in c l = false) e ->
            Forall (fun c => bad c = false) e).
  { intros bad l Hbad H. eapply Forall_impl; [exact H|]. intros c Hc.
    cbv beta in Hc.
    destruct (bad c) eqn:Hb; [|reflexivity]. rewrite (Hbad c Hb) in Hc.
    discriminate. }
  assert (Hin : forall (a : N) (l : list N),
            N_in a l = true -> forall c, (c =? a)%N = true -> N_in c l = true).
  { intros a l Ha c Hc. apply N.eqb_eq in Hc. now subst c. }
  pose (bads := [42; 96; 10; 13; 8232; 8233]%N).
  unfold markdown_rewrites. cbv zeta.
  rewrite (no_match_by_line_start (re_header "###") _ (fun c => (c =? 35)%N) e
             re_h3_first E5)
    by (intros c Hc; destruct (E3 c Hc) as [H _]; simpl in H;
        now apply orb_false_iff in H as [H _]).
  rewrite (no_match_by_line_start (re_header "##") _ (fun c => (c =? 35)%N) e
             re_h2_first E5)
    by (intros c Hc; destruct (E3 c Hc) as [H _]; simpl in H;
        now apply orb_false_iff in H as [H _]).
  rewrite (no_match_by_line_start (re_header "#") _ (fun c => (c =? 35)%N) e
             re_h1_first E5)
    by (intros c Hc; destruct (E3 c Hc) as [H _]; simpl in H;
        now apply orb_false_iff in H as [H _]).
  rewrite (no_match_by_head re_bold _ (fun c => (c =? 42)%N) e re_bold_first)
    by (apply (Hsub _ bads (Hin 42%N bads eq_refl) E1)).
  rewrite (no_match_by_head re_code _ (fun c => (c =? 96)%N) e re_code_first)
    by (apply (Hsub _ bads (Hin 96%N bads eq_refl) E1)).
  rewrite (no_match_by_line_start re_bullet _ (fun c => (c =? 45)%N) e
             re_bullet_first E5)
    by (intros c Hc; destruct (E3 c Hc) as [H _]; simpl in H;
        apply orb_false_iff in H as [_ H]; now apply orb_false_iff in H as [H _]).
  rewrite (no_match_by_line_start re_numbered _ (class_matches CDigit) e
             re_numbered_first E5)
    by (intros c Hc; now destruct (E3 c Hc)).
  rewrite (no_match_by_head re_items _ (fun c => (c =? 60)%N) e re_items_first E2).
  rewrite (no_match_by_head re_blank_line _ (fun c => (c =? 10)%N) e
             re_blank_line_first)
    by (apply (Hsub _ bads (Hin 10%N bads eq_refl) E1)).
  rewrite (cleanup_no_match re_empty_par _ e re_empty_par_first
             (fun s0 s' => re_empty_par_not_text e s0 s' E2 E4)
             re_empty_par_not_closing E2).
  rewrite (cleanup_no_match re_par_header _ e re_par_header_first
             (fun s0 s' => re_par_header_not_text e s0 s' E2)
             re_par_header_not_closing E2).
  rewrite (cleanup_no_match re_header_par _ e re_header_par_first
             (re_header_par_not_text e) re_header_par_not_closing E2).
  rewrite (cleanup_no_match re_par_list _ e re_par_list_first
             (fun s0 s' => re_par_list_not_text e s0 s' E2)
             re_par_list_not_closing E2).
  rewrite (cleanup_no_match re_list_par _ e re_list_par_first
             (re_list_par_not_text e) re_list_par_not_closing E2).
  reflexivity.
Qed.

Lemma formatMarkdown_plain_line_witness :
  formatMarkdown (JStr (lit "Heap use is fine & a <b> is text.")) =
    lit "<p>Heap use is fine &amp; a &lt;b&gt; is text.</p>".
Proof.
  rewrite (formatMarkdown_plain_line (lit "Heap use is fine & a <b> is text.")).
  - reflexivity.
  - split; [|split].
    + vm_compute. repeat constructor.
    + intros c Hc. injection Hc as <-. split; reflexivity.
    + constructor 1. reflexivity.
Defined.

(** ** The heap chart *)

Lemma heap_events_positive (evs : list GcEvent) :
  Forall (fun e => exists q, heap_total_mb e = Some q /\ (0 < q)%Q) (heap_events evs).
Proof.
  unfold heap_events. apply Forall_forall. intros e He.
  apply list_elem_of_filter in He as [Hgt _]. unfold num_gt in Hgt.
  destruct (heap_total_mb e) as [q|]; [|discriminate].
  exists q. split; [reflexivity|].
  apply negb_true_iff, not_true_iff_false in Hgt. rewrite Qle_bool_iff in Hgt.
  now apply Qnot_le_lt.
Qed.


Lemma displayHeapChart_points (w : Z) (evs : list GcEvent) :
  heap_events evs <> [] ->
  exists maxHeap : Q,
    (0 < maxHeap)%Q /\
    Forall (fun e => exists t, heap_total_mb e = Some t /\ (0 < t)%Q /\
                               (t <= maxHeap)%Q) (heap_events evs) /\
    Exists (fun e => exists t, heap_total_mb e = Some t /\ (maxHeap == t)%Q)
           (heap_events evs) /\
    displayHeapChart w evs =
      let events := heap_events evs in
      let divisor := if Z.of_nat (length events) - 1 =? 0 then 1
                     else Z.of_nat (length events) - 1 in
      let y (m : option Q) : option Q :=
        match m with
        | Some v => Some (20 + 190 - (v / maxHeap) * 190)%Q
        | None => None
        end in
      Some (HeapChart
              (imap (fun i event =>
                       {| hp_x := (70 + (inject_Z (w - 90) / inject_Z divisor) *
                                        inject_Z (Z.of_nat i))%Q;
                          hp_yBefore := y (heap_before_mb event);
                          hp_yAfter := y (heap_after_mb event);
                          hp_yTotal := y (heap_total_mb event) |})
                    events)).
Proof.
  intros Hne. pose proof (heap_events_positive evs) as Hpos.
  destruct (math_max_spec (map heap_total_of (heap_events evs)))
    as (m & Hm & Hle & Hex).
  { destruct (heap_events evs); [contradiction|discriminate]. }
  rewrite Forall_forall in Hle. rewrite Forall_forall in Hpos.
  apply Exists_exists in Hex as (v & Hv & Hmv).
  apply list_elem_of_fmap in Hv as (e0 & -> & He0).
  assert (Htot : forall e, e ∈ heap_events evs ->
            exists t, heap_total_mb e = Some t /\ heap_total_of e = t /\ (0 < t)%Q).
  { intros e He. destruct (Hpos e He) as (t & Ht & H0).
    exists t. unfold heap_total_of. rewrite Ht. auto. }
  assert (Hm0 : (0 < m)%Q).
  { destruct (Htot e0 He0) as (t & _ & Et & H0). rewrite Hmv, Et. exact H0. }
  exists m. split; [exact Hm0|]. split; [|split].
  - apply Forall_forall. intros e He. destruct (Htot e He) as (t & Ht & Et & H0).
    exists t. split; [exact Ht|]. split; [exact H0|].
    rewrite <- Et. apply Hle, list_elem_of_fmap. eauto.
  - apply Exists_exists. exists e0. split; [exact He0|].
    destruct (Htot e0 He0) as (t & Ht & Et & _). exists t.
    split; [exact Ht|]. now rewrite <- Et.
  - unfold displayHeapChart. rewrite Hm.
    replace (length (heap_events evs) =? 0)%nat with false.
    2:{ symmetry. apply Nat.eqb_neq. destruct (heap_events evs);
        [contradiction|discriminate]. }
    replace (Qeq_bool m 0) with false.
    2:{ symmetry. apply not_true_iff_false. rewrite Qeq_bool_iff.
        intros E. rewrite E in Hm0. discriminate. }
    cbv zeta.
    change (inject_Z padding_top) with 20%Q.
    change (inject_Z heap_chartHeight) with 190%Q.
    change (inject_Z padding_left) with 70%Q.
    change (w - padding_left - padding_right) with (w - 70 - 20).
    replace (w - 70 - 20) with (w - 90) by lia. reflexivity.
Qed.



Lemma heap_line_below (v t m : Q) :
  (0 < m)%Q -> (0 <= v)%Q -> (v <= t)%Q ->
  (20 + 190 - t / m * 190 <= 20 + 190 - v / m * 190)%Q /\
  (20 + 190 - v / m * 190 <= 210)%Q.
Proof.
  intros Hm Hv Hvt.
  assert (Hi : (0 <= / m)%Q) by (apply Qlt_le_weak, Qinv_lt_0_compat, Hm).
  assert (H0 : (0 <= v / m)%Q).
  { unfold Qdiv. now apply Qmult_le_0_compat. }
  assert (H1 : (v / m <= t / m)%Q).
  { unfold Qdiv. now apply Qmult_le_compat_r. }
  revert H0 H1. generalize (v / m)%Q (t / m)%Q. intros a b H0 H1. split; lra.
Qed.

(** X22.  The heights of the heap chart.  The point of each event on the line
    of the total heap lies between the top of the plot (y = 20) and
    its base line (y = 210), above the base line, and the largest total
    heap is on the top.  A heap before or after the collection that is
    between 0 and the total heap of its event is drawn between the line
    of the total heap and the base line. *)
Theorem heap_chart_lines_in_plot (w : Z) (evs : list GcEvent) :
  let events := heap_events evs in
  events <> [] ->
  exists points : list HeapPoint,
    displayHeapChart w evs = Some (HeapChart points) /\
    (forall (i : nat) (p : HeapPoint),
       points !! i = Some p ->
       exists (ev : GcEvent) (total y : Q),
         events !! i = Some ev /\ heap_total_mb ev = Some total /\
         hp_yTotal p = Some y /\ (20 <= y)%Q /\ (y < 210)%Q /\
         (forall v, heap_before_mb ev = Some v -> (0 <= v)%Q -> (v <= total)%Q ->
            exists yv, hp_yBefore p = Some yv /\ (y <= yv)%Q /\ (yv <= 210)%Q) /\
         (forall v, heap_after_mb ev = Some v -> (0 <= v)%Q -> (v <= total)%Q ->
            exists yv, hp_yAfter p = Some yv /\ (y <= yv)%Q /\ (yv <= 210)%Q)) /\
    (exists (p : HeapPoint) (y : Q),
       p ∈ points /\ hp_yTotal p = Some y /\ (y == 20)%Q).
Proof.
  intros events Hne.
  destruct (displayHeapChart_points w evs Hne) as (M & HM & Hall & Hex & Hpts).
  cbv zeta in Hpts. fold events in Hpts, Hall, Hex.
  eexists. split; [exact Hpts|]. split.
  - intros i p Hp. rewrite list_lookup_imap in Hp.
    destruct (events !! i) as [ev|] eqn:Hev; [|discriminate].
    injection Hp as <-.
    rewrite Forall_forall in Hall.
    destruct (Hall ev) as (t & Ht & Ht0 & HtM).
    { eapply list_elem_of_lookup_2. exact Hev. }
    exists ev, t. eexists. split; [reflexivity|]. split; [exact Ht|].
    cbn. rewrite Ht. split; [reflexivity|].
    assert (Hq0 : (0 < t / M)%Q).
    { apply Qlt_shift_div_l; [exact HM|]. now rewrite Qmult_0_l. }
    assert (Hq1 : (t / M <= 1)%Q).
    { apply Qle_shift_div_r; [exact HM|]. now rewrite Qmult_1_l. }
    split; [revert Hq0 Hq1; generalize (t / M)%Q; intros; lra|].
    split; [revert Hq0 Hq1; generalize (t / M)%Q; intros; lra|].
    split; intros v Hv Hv0 Hvt; rewrite Hv; eexists; (split; [reflexivity|]);
      apply heap_line_below; assumption.
  - apply Exists_exists in Hex as (e0 & He0 & t & Ht & HtM).
    apply list_elem_of_lookup_1 in He0 as [i Hi].
    eexists. eexists. split; [|split].
    + eapply list_elem_of_lookup_2. rewrite list_lookup_imap, Hi. reflexivity.
    + cbn. rewrite Ht. reflexivity.
    + rewrite <- HtM.
      assert (E : (M / M == 1)%Q).
      { apply Qmult_inv_r. intros E. rewrite E in HM. discriminate. }
      rewrite E. reflexivity.
Qed.

Lemma heap_chart_lines_in_plot_witness :
  exists points : list HeapPoint,
    displayHeapChart 890 three_heaps = Some (HeapChart points) /\
    exists (p : HeapPoint) (y : Q),
      p ∈ points /\ hp_yTotal p = Some y /\ (y == 20)%Q.
Proof.
  destruct (heap_chart_lines_in_plot 890 three_heaps ltac:(discriminate))
    as (points & H1 & _ & H3).
  exists points. split; [exact H1|exact H3].
Defined.

(** ** The timeline *)

Lemma foldl_Qmin_spec (l : list Q) (x : Q) :
  (foldl Qmin x l <= x)%Q /\
  Forall (fun v => (foldl Qmin x l <= v)%Q) l /\
  ((foldl Qmin x l == x)%Q \/ Exists (fun v => (foldl Qmin x l == v)%Q) l).
Proof.
  revert x. induction l as [|y l IH]; intros x; simpl.
  - split; [apply Qle_refl|]. split; [constructor|now left].
  - destruct (IH (Qmin x y)) as (H1 & H2 & H3).
    split; [eapply Qle_trans; [exact H1|apply Q.le_min_l]|]. split.
    + constructor; [eapply Qle_trans; [exact H1|apply Q.le_min_r]|exact H2].
    + destruct H3 as [H3|H3]; [|right; now constructor 2].
      destruct (Q.min_spec x y) as [[_ E]|[_ E]].
      * left. eapply Qeq_trans; [exact H3|exact E].
      * right. constructor 1. eapply Qeq_trans; [exact H3|exact E].
Qed.

Lemma math_min_spec (xs : list Q) :
  xs <> [] ->
  exists m, math_min xs = Some m /\
            Forall (fun v => (m <= v)%Q) xs /\
            Exists (fun v => (m == v)%Q) xs.
Proof.
  destruct xs as [|x l]; [contradiction|]. intros _.
  destruct (foldl_Qmin_spec l x) as (H1 & H2 & H3).
  exists (foldl Qmin x l). split; [reflexivity|]. split.
  - now constructor.
  - destruct H3; [now constructor 1|now constructor 2].
Qed.

Lemma all_some_length {A : Type} (xs : list (option A)) (l : list A) :
  all_some xs = Some l -> length l = length xs.
Proof.
  revert l. induction xs as [|[x|] xs IH]; intros l H; simpl in H.
  - now injection H as <-.
  - destruct (all_some xs) as [l'|]; [|discriminate].
    injection H as <-. simpl. f_equal. now apply IH.
  - discriminate.
Qed.

Section TimelineFacts.

Variable getTime : JsVal -> option Q.

Lemma timeValues_length (events : list GcEvent) (times : list Q) :
  timeValues getTime events = Some times -> length times = length events.
Proof.
  unfold timeValues. intros H.
  destruct (existsb _ events).
  - apply all_some_length in H. now rewrite length_map in H.
  - destruct (existsb _ events); injection H as <-.
    + apply length_map.
    + apply length_imap.
Qed.

Lemma displayTimelineChart_marks (w : Z) (evs : list GcEvent) (times : list Q) :
  pause_events evs <> [] ->
  timeValues getTime (pause_events evs) = Some times ->
  exists minTime maxTime timeRange maxPause : Q,
    Forall (fun t => (minTime <= t)%Q /\ (t <= maxTime)%Q) times /\
    Exists (fun t => (minTime == t)%Q) times /\
    Exists (fun t => (maxTime == t)%Q) times /\
    (0 < timeRange)%Q /\
    ((maxTime - minTime == 0)%Q \/ (timeRange == maxTime - minTime)%Q) /\
    (0 < maxPause)%Q /\
    Forall (fun e => (0 < pause_of e)%Q /\ (pause_of e <= maxPause)%Q)
           (pause_events evs) /\
    Exists (fun e => (maxPause == pause_of e)%Q) (pause_events evs) /\
    displayTimelineChart getTime w evs =
      Some (TimelineChart (timeLabel (pause_events evs))
              (map (fun te =>
                      {| tm_x := 80 + ((fst te - minTime) / timeRange) *
                                      inject_Z (w - 110);
                         tm_y := 30 + 270 - (pause_of (snd te) / maxPause) * 270;
                         tm_radius := if is_full_gc (snd te) then 6 else 4;
                         tm_fill := pause_color (snd te) |})
                   (zip times (pause_events evs)))).
Proof.
  intros Hne Htimes.
  destruct (pause_bars_positive w 0 (pause_events evs) Hne
              (pause_events_positive evs)) as (M & HM & Hall & Hex & _).
  assert (Hlen : length times = length (pause_events evs))
    by now apply timeValues_length.
  assert (Hts : times <> []).
  { intros ->. destruct (pause_events evs); [contradiction|discriminate]. }
  destruct (math_min_spec times Hts) as (lo & Hlo & Hlo_le & Hlo_in).
  destruct (math_max_spec times Hts) as (hi & Hhi & Hhi_le & Hhi_in).
  destruct (math_max_spec (map pause_of (pause_events evs)))
    as (M' & HM' & Hle' & Hex').
  { destruct (pause_events evs); [contradiction|discriminate]. }
  assert (HM'0 : (0 < M')%Q).
  { apply Exists_exists in Hex' as (v & Hv & E).
    apply list_elem_of_fmap in Hv as (e0 & -> & He0).
    rewrite Forall_forall in Hall. destruct (Hall e0 He0) as [H0 _].
    now rewrite E. }
  assert (Hlohi : (lo <= hi)%Q).
  { apply Exists_exists in Hlo_in as (t & Ht & E).
    rewrite Forall_forall in Hhi_le. rewrite E. now apply Hhi_le. }
  set (range := if Qeq_bool (hi - lo) 0 then 1%Q else (hi - lo)%Q).
  exists lo, hi, range, M'.
  split.
  { rewrite Forall_forall in Hlo_le. rewrite Forall_forall in Hhi_le.
    apply Forall_forall. intros t Ht.
    split; [now apply Hlo_le|now apply Hhi_le]. }
  split; [exact Hlo_in|]. split; [exact Hhi_in|].
  split.
  { unfold range. destruct (Qeq_bool (hi - lo) 0) eqn:E; [reflexivity|].
    apply Qeq_bool_neq in E. lra. }
  split.
  { unfold range. destruct (Qeq_bool (hi - lo) 0) eqn:E.
    - left. now apply Qeq_bool_iff.
    - right. reflexivity. }
  split; [exact HM'0|]. split.
  { rewrite Forall_forall in Hle'. rewrite Forall_forall in Hall.
    apply Forall_forall. intros e He. split; [now apply Hall|].
    apply Hle', list_elem_of_fmap. eauto. }
  split.
  { apply Exists_exists in Hex' as (v & Hv & E).
    apply list_elem_of_fmap in Hv as (e0 & -> & He0).
    apply Exists_exists. eauto. }
  unfold displayTimelineChart. rewrite Htimes, Hlo, Hhi, HM'.
  replace (length (pause_events evs) =? 0)%nat with false.
  2:{ symmetry. apply Nat.eqb_neq. destruct (pause_events evs);
      [contradiction|discriminate]. }
  replace (Qeq_bool M' 0) with false.
  2:{ symmetry. apply not_true_iff_false. rewrite Qeq_bool_iff.
      intros E. rewrite E in HM'0. discriminate. }
  cbv zeta. fold range.
  change (inject_Z timeline_left) with 80%Q.
  change (inject_Z timeline_top) with 30%Q.
  change (inject_Z timeline_chartHeight) with 270%Q.
  change (w - timeline_left - timeline_right) with (w - 80 - 30).
  replace (w - 80 - 30) with (w - 110) by lia. reflexivity.
Qed.

(** X23.  The marks of the timeline, when some event has a pause and every
    time value is a number.  There is one mark for each event with a
    pause, with the colour of its bar in the pause chart, and a larger
    circle for a full collection.  Every mark lies inside the plot: its
    x between the left edge (80) and the right edge (width - 30), its
    circle between the top (30) and the base line (300), above the base
    line.  An event that is not later than another is not drawn to its
    right.  The earliest event is on the left edge and the longest pause
    reaches the top; when the times are not all equal the latest event
    is on the right edge. *)
Theorem timeline_marks_in_plot (w : Z) (evs : list GcEvent) (times : list Q) :
  let events := pause_events evs in
  events <> [] -> 110 <= w ->
  timeValues getTime events = Some times ->
  exists marks : list TimelineMark,
    displayTimelineChart getTime w evs =
      Some (TimelineChart (timeLabel events) marks) /\
    length marks = length events /\
    (forall (i : nat) (m : TimelineMark),
       marks !! i = Some m ->
       (exists ev, events !! i = Some ev /\
                   tm_fill m = pause_color ev /\
                   tm_radius m = if is_full_gc ev then 6 else 4) /\
       (80 <= tm_x m)%Q /\ (tm_x m <= inject_Z (w - 30))%Q /\
       (30 <= tm_y m)%Q /\ (tm_y m < 300)%Q) /\
    (forall (i j : nat) (m m' : TimelineMark) (t t' : Q),
       marks !! i = Some m -> marks !! j = Some m' ->
       times !! i = Some t -> times !! j = Some t' ->
       (t <= t')%Q -> (tm_x m <= tm_x m')%Q) /\
    (exists m, m ∈ marks /\ (tm_x m == 80)%Q) /\
    (exists m, m ∈ marks /\ (tm_y m == 30)%Q) /\
    ((exists t t', t ∈ times /\ t' ∈ times /\ ~ (t == t')%Q) ->
     exists m, m ∈ marks /\ (tm_x m == inject_Z (w - 30))%Q).
Proof.
  intros events Hne Hw Htimes.
  destruct (displayTimelineChart_marks w evs times Hne Htimes)
    as (lo & hi & range & M & Hbnd & Hlo & Hhi & Hr0 & Hr & HM & Hall & Hex & Hrun).
  fold events in Hall, Hex, Hrun.
  assert (Hlen : length times = length events) by now apply timeValues_length.
  set (cw := inject_Z (w - 110)) in *.
  assert (Hcw : (0 <= cw)%Q).
  { unfold cw. change 0%Q with (inject_Z 0). rewrite <- Zle_Qle. lia. }
  assert (Hw30 : (inject_Z (w - 30) == 80 + cw)%Q).
  { unfold cw. change 80%Q with (inject_Z 80). rewrite <- inject_Z_plus.
    apply inject_Z_injective. lia. }
  set (mk := fun te : Q * GcEvent =>
               {| tm_x := 80 + (fst te - lo) / range * cw;
                  tm_y := 30 + 270 - pause_of (snd te) / M * 270;
                  tm_radius := if is_full_gc (snd te) then 6 else 4;
                  tm_fill := pause_color (snd te) |}) in *.
  assert (Hlook : forall i m, map mk (zip times events) !! i = Some m ->
            exists t ev, times !! i = Some t /\ events !! i = Some ev /\
                         m = mk (t, ev)).
  { intros i m Hm. rewrite list_lookup_fmap in Hm.
    rewrite lookup_zip_with in Hm.
    destruct (times !! i) as [t|]; [|discriminate].
    destruct (events !! i) as [ev|]; [|discriminate].
    simpl in Hm. injection Hm as <-. eauto. }
  assert (Hmark : forall i t ev, times !! i = Some t -> events !! i = Some ev ->
            map mk (zip times events) !! i = Some (mk (t, ev))).
  { intros i t ev Ht He.
    rewrite list_lookup_fmap, lookup_zip_with, Ht, He. reflexivity. }
  assert (Hfrac : forall t, t ∈ times ->
            (0 <= (t - lo) / range)%Q /\ ((t - lo) / range <= 1)%Q).
  { intros t Ht. rewrite Forall_forall in Hbnd. destruct (Hbnd t Ht) as [H1 H2].
    split.
    - apply Qle_shift_div_l; [exact Hr0|]. rewrite Qmult_0_l. lra.
    - apply Qle_shift_div_r; [exact Hr0|]. rewrite Qmult_1_l.
      destruct Hr as [Hr|Hr]; lra. }
  assert (Hmono : forall t t', (t <= t')%Q ->
            ((t - lo) / range * cw <= (t' - lo) / range * cw)%Q).
  { intros t t' Htt. apply Qmult_le_compat_r; [|exact Hcw].
    unfold Qdiv. apply Qmult_le_compat_r; [lra|].
    apply Qlt_le_weak, Qinv_lt_0_compat, Hr0. }
  exists (map mk (zip times events)). split; [exact Hrun|].
  split.
  { rewrite length_map, length_zip. lia. }
  split; [|split; [|split; [|split]]].
  - intros i m Hm. destruct (Hlook i m Hm) as (t & ev & Ht & He & ->). cbn.
    split; [exists ev; auto|].
    assert (Htin : t ∈ times) by (eapply list_elem_of_lookup_2; exact Ht).
    assert (Hein : ev ∈ events) by (eapply list_elem_of_lookup_2; exact He).
    destruct (Hfrac t Htin) as [Hf0 Hf1].
    rewrite Forall_forall in Hall. destruct (Hall ev Hein) as [Hp0 HpM].
    assert (Hx0 : (0 <= (t - lo) / range * cw)%Q) by now apply Qmult_le_0_compat.
    assert (Hx1 : ((t - lo) / range * cw <= cw)%Q).
    { rewrite <- (Qmult_1_l cw) at 2. now apply Qmult_le_compat_r. }
    assert (Hq0 : (0 < pause_of ev / M)%Q).
    { apply Qlt_shift_div_l; [exact HM|]. now rewrite Qmult_0_l. }
    assert (Hq1 : (pause_of ev / M <= 1)%Q).
    { apply Qle_shift_div_r; [exact HM|]. now rewrite Qmult_1_l. }
    rewrite Hw30. revert Hx0 Hx1 Hq0 Hq1.
    generalize ((t - lo) / range * cw)%Q (pause_of ev / M)%Q.
    intros; repeat split; lra.
  - intros i j m m' t t' Hm Hm' Ht Ht' Htt.
    destruct (Hlook i m Hm) as (t1 & ev & Ht1 & _ & ->).
    destruct (Hlook j m' Hm') as (t2 & ev' & Ht2 & _ & ->).
    rewrite Ht in Ht1. rewrite Ht' in Ht2.
    injection Ht1 as <-. injection Ht2 as <-. cbn.
    pose proof (Hmono t t' Htt). lra.
  - apply Exists_exists in Hlo as (t & Ht & E).
    apply list_elem_of_lookup_1 in Ht as [i Hi].
    destruct (events !! i) as [ev|] eqn:He.
    2:{ apply lookup_ge_None in He. apply lookup_lt_Some in Hi. lia. }
    exists (mk (t, ev)). split.
    + eapply list_elem_of_lookup_2. apply Hmark; eassumption.
    + cbn. assert (E0 : ((t - lo) / range == 0)%Q).
      { unfold Qdiv. assert (E1 : (t - lo == 0)%Q) by lra.
        rewrite E1. apply Qmult_0_l. }
      rewrite E0. ring.
  - apply Exists_exists in Hex as (ev & Hev & E).
    apply list_elem_of_lookup_1 in Hev as [i Hi].
    destruct (times !! i) as [t|] eqn:Ht.
    2:{ apply lookup_ge_None in Ht. apply lookup_lt_Some in Hi. lia. }
    exists (mk (t, ev)). split.
    + eapply list_elem_of_lookup_2. apply Hmark; eassumption.
    + cbn. rewrite <- E.
      assert (E1 : (M / M == 1)%Q).
      { apply Qmult_inv_r. intros E1. rewrite E1 in HM. discriminate. }
      rewrite E1. ring.
  - intros (t1 & t2 & Ht1 & Ht2 & Hdiff).
    assert (Hspread : ~ (hi - lo == 0)%Q).
    { intros E0. rewrite Forall_forall in Hbnd.
      destruct (Hbnd t1 Ht1) as [? ?]. destruct (Hbnd t2 Ht2) as [? ?].
      apply Hdiff. lra. }
    destruct Hr as [Hr|Hr]; [contradiction|].
    apply Exists_exists in Hhi as (t & Ht & E).
    apply list_elem_of_lookup_1 in Ht as [i Hi].
    destruct (events !! i) as [ev|] eqn:He.
    2:{ apply lookup_ge_None in He. apply lookup_lt_Some in Hi. lia. }
    exists (mk (t, ev)). split.
    + eapply list_elem_of_lookup_2. apply Hmark; eassumption.
    + cbn. rewrite Hw30.
      assert (E1 : ((t - lo) / range == 1)%Q).
      { assert (E2 : (t - lo == range)%Q) by lra.
        rewrite E2. apply Qmult_inv_r. intros E3. rewrite E3 in Hr0. discriminate. }
      rewrite E1. ring.
Qed.

End TimelineFacts.

Lemma timeline_marks_in_plot_witness :
  exists marks : list TimelineMark,
    displayTimelineChart (fun _ => None) 890 eight_pauses =
      Some (TimelineChart (lit "Event #") marks) /\
    length marks = 8%nat.
Proof.
  destruct (timeline_marks_in_plot (fun _ => None) 890 eight_pauses
              (map inject_Z [0; 1; 2; 3; 4; 5; 6; 7])
              ltac:(discriminate) ltac:(lia) eq_refl)
    as (marks & H1 & H2 & _).
  exists marks. split; [exact H1|exact H2].
Defined.
